(** * SickChill torrent providers: search, login and result filtering

    A shallow embedding of the four torrent providers of
    [sickchill/providers/media/torrent] (ABNormal, IPTorrents, Ncore and
    Norbits), and the properties of their [login] and [search] methods.

    Python values are a small inductive type with Python's truth test;
    exceptions are an error result; the HTTP transport and the session are
    an abstract world threaded through a state monad that records every
    request handed to [get_url].  Third-party libraries (requests, bs4,
    validators, json, re) and the helpers of [sickchill.helper.common] are
    interfaces: the provider code is verified for every implementation.

    The migration of the quality flags of [sickbeard/databases/main.py] and
    the token handling of the Plex notifier are embedded as well. *)

From Stdlib Require Import ZArith List String Ascii Bool Lia.
From Stdlib Require Import Sorting.Permutation Sorting.Sorted.
Import ListNotations.

Open Scope string_scope.
Open Scope Z_scope.
Open Scope list_scope.

(** ** Python values *)

Set Warnings "-register-all".


(** A float, by the number it stands for: [m * 2^e], an infinity, or not a
    number.  Every double is one of these, [json.loads] reading [NaN],
    [Infinity] and [-Infinity] as well. *)
Inductive pyfloat : Type :=
| FNum (m e : Z)
| FInf (negative : bool)
| FNan.

(** The order of two floats, and none when one of them is not a number:
    every comparison with it is false. *)
Definition float_compare (a b : pyfloat) : option comparison :=
  match a, b with
  | FNan, _ | _, FNan => None
  | FInf s, FInf s' => Some (if s then (if s' then Eq else Lt)
                             else (if s' then Gt else Eq))
  | FInf s, FNum _ _ => Some (if s then Lt else Gt)
  | FNum _ _, FInf s => Some (if s then Gt else Lt)
  | FNum m e, FNum m' e' =>
      let e0 := Z.min e e' in
      Some (m * 2 ^ (e - e0) ?= m' * 2 ^ (e' - e0))
  end.

(** The values the providers handle: what [json.loads] builds and the
    strings and integers read from markup.  A dict is the list of its items
    in insertion order. *)
Inductive pyval : Type :=
| VNone
| VBool (b : bool)
| VInt (z : Z)
| VFloat (f : pyfloat)
| VStr (s : string)
| VList (l : list pyval)
| VDict (d : list (string * pyval)).

Definition str_truthy (s : string) : bool :=
  match s with EmptyString => false | String _ _ => true end.

(** [bool(v)]: what [if v], [not v], [all([...])] and [v or d] test. *)
Definition truthy (v : pyval) : bool :=
  match v with
  | VNone => false
  | VBool b => b
  | VInt z => negb (z =? 0)
  | VFloat f => match f with FNum m _ => negb (m =? 0) | _ => true end
  | VStr s => str_truthy s
  | VList l => match l with [] => false | _ :: _ => true end
  | VDict d => match d with [] => false | _ :: _ => true end
  end.

(** [v or d] *)
Definition py_or (v d : pyval) : pyval := if truthy v then v else d.

(** The integer a number stands for ([bool] is a subclass of [int]). *)
Definition num (v : pyval) : option Z :=
  match v with
  | VInt z => Some z
  | VBool b => Some (if b then 1 else 0)
  | _ => None
  end.

Inductive exn : Type :=
| AuthException
| TypeError
| ValueError
| KeyError
| AttributeError
| IndexError.

Inductive result (A : Type) : Type :=
| Ok (a : A)
| Raise (e : exn).
Arguments Ok {A} a.
Arguments Raise {A} e.

Definition rbind {A B} (r : result A) (k : A -> result B) : result B :=
  match r with
  | Ok a => k a
  | Raise e => Raise e
  end.

Declare Scope result_scope.
Delimit Scope result_scope with res.
Notation "x <~ r ;; k" := (rbind r (fun x => k))
  (at level 61, r at next level, right associativity) : result_scope.

(** [d[k]] and [d.get(k, default)] on the items of a dict. *)
Fixpoint dict_find (k : string) (d : list (string * pyval)) : option pyval :=
  match d with
  | [] => None
  | (k', v) :: d' => if String.eqb k k' then Some v else dict_find k d'
  end.

(** [v[k]] *)
Definition py_getitem (v : pyval) (k : string) : result pyval :=
  match v with
  | VDict d => match dict_find k d with Some x => Ok x | None => Raise KeyError end
  | _ => Raise TypeError
  end.

(** [v.get(k, default)]: only a dict has [get]. *)
Definition py_get (v : pyval) (k : string) (default : pyval) : result pyval :=
  match v with
  | VDict d => Ok (match dict_find k d with Some x => x | None => default end)
  | _ => Raise AttributeError
  end.

(** [v.pop(k)]: the popped value; the dict that loses the key is a row that
    no later statement reads under that key. *)
Definition py_pop (v : pyval) (k : string) : result pyval :=
  match v with
  | VDict d => match dict_find k d with Some x => Ok x | None => Raise KeyError end
  | VList _ => Raise TypeError
  | _ => Raise AttributeError
  end.

(** [v.pop(k, default)] *)
Definition py_pop_default (v : pyval) (k : string) (default : pyval) : result pyval :=
  match v with
  | VDict d => Ok (match dict_find k d with Some x => x | None => default end)
  | VList _ => Raise TypeError
  | _ => Raise AttributeError
  end.

Fixpoint chars (s : string) : list pyval :=
  match s with
  | EmptyString => []
  | String c s' => VStr (String c EmptyString) :: chars s'
  end.

(** [for x in v]: a list gives its elements, a dict its keys, a string its
    characters; nothing else is iterable. *)
Definition py_iter (v : pyval) : result (list pyval) :=
  match v with
  | VList l => Ok l
  | VDict d => Ok (map (fun kv => VStr (fst kv)) d)
  | VStr s => Ok (chars s)
  | _ => Raise TypeError
  end.

(** [v < n] for an integer [n]: a float and an integer are compared by
    their exact values. *)
Definition py_lt (v : pyval) (n : Z) : result bool :=
  match v with
  | VFloat f => Ok (match float_compare f (FNum n 0) with
                    | Some Lt => true
                    | _ => false
                    end)
  | _ => match num v with
         | Some z => Ok (z <? n)
         | None => Raise TypeError
         end
  end.

(** The number a value stands for, as a float: Python compares an [int]
    and a [float] by their exact values. *)
Definition number (v : pyval) : option pyfloat :=
  match v with
  | VFloat f => Some f
  | _ => option_map (fun z => FNum z 0) (num v)
  end.

(** [a >= b] for two numbers. *)
Definition py_ge (a b : pyval) : bool :=
  match number a, number b with
  | Some x, Some y => match float_compare x y with
                      | Some Gt | Some Eq => true
                      | _ => false
                      end
  | _, _ => false
  end.

Definition is_substring (pat s : string) : bool :=
  match String.index 0 pat s with Some _ => true | None => false end.

Definition is_str (k : string) (v : pyval) : bool :=
  match v with VStr s => String.eqb k s | _ => false end.

(** [k in v] for a string [k]. *)
Definition py_contains (k : string) (v : pyval) : result bool :=
  match v with
  | VDict d => Ok (match dict_find k d with Some _ => true | None => false end)
  | VList l => Ok (existsb (is_str k) l)
  | VStr s => Ok (is_substring k s)
  | _ => Raise TypeError
  end.

(** [v == n] for an integer [n]. *)
Definition py_eq_int (v : pyval) (n : Z) : bool :=
  match v with
  | VFloat f => match float_compare f (FNum n 0) with
                | Some Eq => true
                | _ => false
                end
  | _ => match num v with Some z => z =? n | None => false end
  end.

(** [l.index(x)] *)
Fixpoint list_index (x : string) (l : list string) : option nat :=
  match l with
  | [] => None
  | y :: l' => if String.eqb x y then Some O
               else match list_index x l' with Some n => Some (S n) | None => None end
  end.

Definition index_of (x : string) (l : list string) : result nat :=
  match list_index x l with Some n => Ok n | None => Raise ValueError end.

(** [l[i]] *)
Definition item_at {A} (l : list A) (i : nat) : result A :=
  match nth_error l i with Some a => Ok a | None => Raise IndexError end.

(** [re.sub(r'[()]', '', s)] *)
Fixpoint strip_parens (s : string) : string :=
  match s with
  | EmptyString => EmptyString
  | String c s' =>
      if (Ascii.eqb c "(" || Ascii.eqb c ")")%bool then strip_parens s'
      else String c (strip_parens s')
  end.

(** [s.split(sep)] for a non-empty [sep]: [skip] counts the characters of a
    separator just matched that are still to be passed over. *)
Fixpoint split_aux (sep s cur : string) (skip : nat) : list string :=
  match s with
  | EmptyString => [cur]
  | String c s' =>
      match skip with
      | S k => split_aux sep s' cur k
      | O =>
          if String.prefix sep s
          then cur :: split_aux sep s' EmptyString (pred (String.length sep))
          else split_aux sep s' (cur ++ String c EmptyString)%string O
      end
  end.

Definition py_split (s sep : string) : list string := split_aux sep s EmptyString O.

(** ** Result records *)

(** The dict every provider appends to [items]. *)
Record item : Type := mkItem {
  title : pyval;
  link : pyval;
  size : pyval;
  seeders : pyval;
  leechers : pyval;
  hash : pyval
}.

(** ** Provider configuration: the values behind [self.config(key)].
    A credential that is not set is the empty string. *)
Record config : Type := mkConfig {
  username : string;
  password : string;
  passkey : string;
  minseed : Z;
  minleech : Z;
  custom_url : string;
  cookies : string;
  freeleech : bool
}.

(** ** Markup, as bs4 shows it to the providers *)

Record anchor : Type := mkAnchor {
  a_text : string;             (* .text *)
  a_href : option string       (* ['href'] *)
}.

Record td : Type := mkTd {
  td_text : string;            (* .text, .get_text() *)
  td_text_strip : string;      (* .get_text(strip=True) *)
  td_a : option anchor;        (* .find('a') *)
  td_a_tooltip : option anchor (* .find('a', class_='tooltip') *)
}.

Record tr : Type := mkTr {
  tr_tds : list td;              (* row('td') *)
  tr_seeders : option string;    (* row.find('td', class_='ac t_seeders').text *)
  tr_leechers : option string    (* row.find('td', class_='ac t_leechers').text *)
}.

Record soup : Type := mkSoup {
  torrent_table : option (list tr);   (* html.find(class_='torrent_table')('tr') *)
  torrents_table : option (list tr);  (* html.find('table', id='torrents')('tr') *)
  no_torrents_found : bool;           (* html.find(text='No Torrents Found!') *)
  login_form : option string          (* html.find('form', {'action': ...login...}).get('action') *)
}.

(** ** Interfaces *)

Record request : Type := mkRequest {
  req_url : string;
  req_data : list (string * string)  (* params or post_data *)
}.

(** The transport and the session of [TorrentProvider]: [get_url] answers a
    request and may change the world (cookies included). *)
Class Transport : Type := {
  world : Type;
  get_url_text : request -> world -> option string * world;  (* returns='text' *)
  get_url_json : request -> world -> pyval * world;          (* returns='json' *)
  session_cookies : world -> list (string * string);         (* dict_from_cookiejar(self.session.cookies) *)
  add_cookies_from_ui : config -> world -> (bool * string) * world
}.

(** requests, validators, re, json, bs4 and [int] on a string. *)
Class Library : Type := {
  urljoin : string -> string -> string;
  urlencode : list (string * pyval) -> string;
  re_search : string -> string -> bool;        (* re.search(pattern, text) is not None *)
  re_sub_buttons : string -> string;           (* re.sub(r'(?im)<button.+?</button>', '', data, 0) *)
  validators_url : string -> bool;
  json_loads : string -> option pyval;         (* None: ValueError *)
  int_of_str : string -> option Z;             (* None: ValueError *)
  BS4Parser : string -> soup
}.

(** [sickchill.helper.common].  [try_int] is taken as returning for every
    value, as [int(v)] or the default 0 does; the [OverflowError] of [int]
    on an infinity is not modelled. *)
Class Helpers : Type := {
  try_int : pyval -> Z;
  convert_size : pyval -> pyval -> list string -> pyval  (* size, default, units *)
}.

Definition default_units : list string := ["B"; "KB"; "MB"; "GB"; "TB"; "PB"].

(** ** The monad of provider methods *)

Section Monad.
Context {T : Transport}.

(** The world and the requests issued so far, oldest first. *)
Record state : Type := mkState {
  sess : world;
  calls : list request
}.

Definition M (A : Type) : Type := state -> result A * state.

Definition ret {A} (a : A) : M A := fun st => (Ok a, st).

Definition raise {A} (e : exn) : M A := fun st => (Raise e, st).

Definition bind {A B} (m : M A) (k : A -> M B) : M B :=
  fun st => match m st with
            | (Ok a, st') => k a st'
            | (Raise e, st') => (Raise e, st')
            end.

Definition lift {A} (r : result A) : M A := fun st => (r, st).

(** [self.get_url(url, ..., returns='text')] *)
Definition fetch_text (rq : request) : M (option string) :=
  fun st => let (r, w) := get_url_text rq (sess st) in
            (Ok r, mkState w (calls st ++ [rq])).

(** [self.get_url(url, ..., returns='json')] *)
Definition fetch_json (rq : request) : M pyval :=
  fun st => let (r, w) := get_url_json rq (sess st) in
            (Ok r, mkState w (calls st ++ [rq])).

Definition read_cookies : M (list (string * string)) :=
  fun st => (Ok (session_cookies (sess st)), st).

Definition cookies_from_ui (cfg : config) : M (bool * string) :=
  fun st => let (r, w) := add_cookies_from_ui cfg (sess st) in
            (Ok r, mkState w (calls st)).

End Monad.

Declare Scope monad_scope.
Delimit Scope monad_scope with monad.
Notation "x <- m ;; k" := (bind m (fun x => k))
  (at level 61, m at next level, right associativity) : monad_scope.

(** [not data] for the body of a text fetch. *)
Definition no_body (data : option string) : bool :=
  match data with
  | None => true
  | Some s => negb (str_truthy s)
  end.

(** ** [items.sort(key=lambda d: try_int(d.get('seeders', 0)), reverse=True)] *)

Section Sort.
Context {H : Helpers}.

Definition sort_key (d : item) : Z := try_int (seeders d).

(** [list.sort] is stable, also with [reverse=True]: an element goes before
    the first one whose key is not greater. *)
Fixpoint sort_insert (x : item) (l : list item) : list item :=
  match l with
  | [] => [x]
  | y :: l' => if sort_key x <? sort_key y then y :: sort_insert x l'
               else x :: l
  end.

Definition py_sort (l : list item) : list item := fold_right sort_insert [] l.

End Sort.

(** ** The loops of [search] *)

(** How the body of the inner loop ends: the loop goes on with the items
    collected so far, or [search] executes [return results]. *)
Inductive flow (A : Type) : Type :=
| Next (a : A)
| Return.
Arguments Next {A} a.
Arguments Return {A}.

Section Loops.
Context {T : Transport} {H : Helpers}.
Open Scope monad_scope.

(** [for search_string in search_strings[mode]: ...] *)
Fixpoint string_loop (body : string -> list item -> M (flow (list item)))
    (strings : list string) (items : list item) : M (flow (list item)) :=
  match strings with
  | [] => ret (Next items)
  | s :: rest =>
      f <- body s items ;;
      match f with
      | Next items' => string_loop body rest items'
      | Return => ret Return
      end
  end.

(** [for mode in search_strings: items = []; ...; items.sort(...);
    results += items] and the final [return results].  [search_strings] is
    the dict's items in iteration order. *)
Fixpoint mode_loop (body : string -> string -> list item -> M (flow (list item)))
    (search_strings : list (string * list string)) (results : list item)
    : M (list item) :=
  match search_strings with
  | [] => ret results
  | (mode, strings) :: rest =>
      f <- string_loop (body mode) strings [] ;;
      match f with
      | Next items => mode_loop body rest (results ++ py_sort items)
      | Return => ret results
      end
  end.

(** The lists of items the modes collected, before sorting, for the modes
    [mode_loop] completes. *)
Fixpoint discovered (body : string -> string -> list item -> M (flow (list item)))
    (search_strings : list (string * list string)) (st : state)
    : list (list item) :=
  match search_strings with
  | [] => []
  | (mode, strings) :: rest =>
      match string_loop (body mode) strings [] st with
      | (Ok (Next items), st') => items :: discovered body rest st'
      | _ => []
      end
  end.

End Loops.

Definition body_text (data : option string) : string :=
  match data with
  | Some s => s
  | None => EmptyString
  end.

(** [cookie_dict.get(k)] is true *)
Fixpoint cookie_set (k : string) (cookie_dict : list (string * string)) : bool :=
  match cookie_dict with
  | [] => false
  | (k', v) :: rest => if String.eqb k k' then str_truthy v else cookie_set k rest
  end.

(** ** abnormal.py *)

Module ABNormalProvider.
Section Provider.
Context {T : Transport} {L : Library} {H : Helpers}.
Open Scope monad_scope.

Definition url : string := "https://abnormal.ws".
Definition urls_login : string := urljoin url "login.php".
Definition urls_search : string := urljoin url "torrents.php".

Definition login (cfg : config) : M bool :=
  cookie_dict <- read_cookies ;;
  if existsb (fun kv => str_truthy (snd kv)) cookie_dict then ret true
  else
    let login_params := [("username", username cfg); ("password", password cfg)] in
    response <- fetch_text (mkRequest urls_login login_params) ;;
    if no_body response then ret false
    else if negb (re_search "torrents.php" (body_text response)) then ret false
    else ret true.

Definition categories : list string :=
  ["TV|SD|VOSTFR"; "TV|HD|VOSTFR"; "TV|SD|VF"; "TV|HD|VF"; "TV|PACK|FR";
   "TV|PACK|VOSTFR"; "TV|EMISSIONS"; "ANIME"].

Definition units : list string := ["O"; "KO"; "MO"; "GO"; "TO"; "PO"].

Definition search_params (mode search_string : string) : list (string * string) :=
  map (fun c => ("cat[]", c)) categories
  ++ [("way", "DESC");
      ("order", if String.eqb mode "RSS" then "Time" else "Seeders");
      ("search", strip_parens search_string)].

(** [cell.find('a', class_='tooltip')['href']] *)
Definition tooltip_href (cell : td) : result string :=
  match td_a_tooltip cell with
  | None => Raise TypeError
  | Some a => match a_href a with Some h => Ok h | None => Raise KeyError end
  end.

(** [labels.index('Size') if 'Size' in labels else labels.index('Taille')] *)
Definition size_index (labels : list string) : result nat :=
  if existsb (String.eqb "Size") labels
  then index_of "Size" labels
  else index_of "Taille" labels.

(** The body of the [try] of one row: [Ok None] is a [continue]. *)
Definition parse_row (cfg : config) (labels : list string) (cells : list td)
    : result (option item) :=
  (i <~ index_of "Release" labels ;;
   c <~ item_at cells i ;;
   let title := td_text_strip c in
   i <~ index_of "DL" labels ;;
   c <~ item_at cells i ;;
   href <~ tooltip_href c ;;
   let download_url := urljoin url href in
   if negb (str_truthy title && str_truthy download_url) then Ok None
   else
     i <~ index_of "S" labels ;;
     c <~ item_at cells i ;;
     let seeders := try_int (VStr (td_text_strip c)) in
     i <~ index_of "L" labels ;;
     c <~ item_at cells i ;;
     let leechers := try_int (VStr (td_text_strip c)) in
     if (seeders <? minseed cfg) || (leechers <? minleech cfg) then Ok None
     else
       i <~ size_index labels ;;
       c <~ item_at cells i ;;
       let torrent_size := td_text c in
       let size := py_or (convert_size (VStr torrent_size) VNone units) (VInt (-1)) in
       Ok (Some (mkItem (VStr title) (VStr download_url) size
                        (VInt seeders) (VInt leechers) (VStr EmptyString))))%res.

(** One row of the table: short rows are skipped, and [except Exception:
    continue] skips a row whose parsing raised. *)
Definition add_row (cfg : config) (labels : list string) (items : list item)
    (row : tr) : list item :=
  let cells := tr_tds row in
  if (List.length cells <? List.length labels)%nat then items
  else match parse_row cfg labels cells with
       | Ok (Some it) => items ++ [it]
       | Ok None => items
       | Raise _ => items
       end.

Definition parse (cfg : config) (data : string) (items : list item) : list item :=
  let html := BS4Parser data in
  let torrent_rows := match torrent_table html with Some rows => rows | None => [] end in
  match torrent_rows with
  | header :: ((_ :: _) as rows) =>
      let labels := map td_text_strip (tr_tds header) in
      fold_left (add_row cfg labels) rows items
  | _ => items
  end.

Definition search_string (cfg : config) (mode s : string) (items : list item)
    : M (flow (list item)) :=
  data <- fetch_text (mkRequest urls_search (search_params mode s)) ;;
  if no_body data then ret (Next items)
  else ret (Next (parse cfg (body_text data) items)).

Definition search (cfg : config) (search_strings : list (string * list string))
    : M (list item) :=
  ok <- login cfg ;;
  if negb ok then ret []
  else mode_loop (search_string cfg) search_strings [].

End Provider.
End ABNormalProvider.

(** ** iptorrents.py *)

Module IPTorrentsProvider.
Section Provider.
Context {T : Transport} {L : Library} {H : Helpers}.
Open Scope monad_scope.

Definition url : string := "https://iptorrents.eu".
Definition categories : string := "73=&60=".

Definition base_url (cfg : config) : string :=
  if str_truthy (custom_url cfg) then custom_url cfg else url.

Definition login (cfg : config) : M bool :=
  cookie_dict <- read_cookies ;;
  if cookie_set "uid" cookie_dict && cookie_set "pass" cookie_dict then ret true
  else
    success <- (if str_truthy (cookies cfg)
                then r <- cookies_from_ui cfg ;; ret (fst r)
                else ret true) ;;
    if negb success then ret false
    else
      let login_params := [("username", username cfg); ("password", password cfg);
                           ("login", "submit")] in
      if str_truthy (custom_url cfg) && negb (validators_url (custom_url cfg))
      then ret false
      else
        data <- fetch_text (mkRequest (base_url cfg) []) ;;
        if no_body data then ret false
        else
          match login_form (BS4Parser (body_text data)) with
          | None => raise AttributeError
          | Some action =>
              if negb (str_truthy action) then ret false
              else
                response <- fetch_text (mkRequest (urljoin (base_url cfg) action) login_params) ;;
                if no_body response then ret false
                else if re_search "Invalid username and password combination" (body_text response)
                then ret false
                else if re_search "You tried too often" (body_text response) then ret false
                else if re_search "Captcha verification failed." (body_text response) then ret false
                else ret true
          end.

(** What the first [try] of a row reads. *)
Record row_fields : Type := mkRow {
  row_title : string;
  row_url : string;
  row_seeders : Z;
  row_leechers : Z;
  row_size : pyval
}.

(** [int(tag.text)] for the tag [row.find('td', class_=...)] *)
Definition int_text (t : option string) : result Z :=
  match t with
  | None => Raise AttributeError
  | Some s => match int_of_str s with Some z => Ok z | None => Raise ValueError end
  end.

Definition read_row (search_url : string) (row : tr) : result row_fields :=
  (c <~ item_at (tr_tds row) 1 ;;
   a <~ match td_a c with Some a => Ok a | None => Raise AttributeError end ;;
   let title := a_text a in
   c <~ item_at (tr_tds row) 3 ;;
   a <~ match td_a c with Some a => Ok a | None => Raise TypeError end ;;
   href <~ match a_href a with Some h => Ok h | None => Raise KeyError end ;;
   let download_url := urljoin search_url href in
   seeders <~ int_text (tr_seeders row) ;;
   leechers <~ int_text (tr_leechers row) ;;
   c <~ item_at (tr_tds row) 5 ;;
   let torrent_size := td_text c in
   let size := py_or (convert_size (VStr torrent_size) VNone default_units) (VInt (-1)) in
   Ok (mkRow title download_url seeders leechers size))%res.

(** [except (AttributeError, TypeError, KeyError): continue] *)
Definition row_except (e : exn) : bool :=
  match e with
  | AttributeError | TypeError | KeyError => true
  | _ => false
  end.

(** After the row's [try]: [None] is a [continue]. *)
Definition emit (cfg : config) (r : row_fields) : option item :=
  if negb (str_truthy (row_title r) && str_truthy (row_url r)) then None
  else if (row_seeders r <? minseed cfg) || (row_leechers r <? minleech cfg) then None
  else Some (mkItem (VStr (row_title r)) (VStr (row_url r)) (row_size r)
                    (VInt (row_seeders r)) (VInt (row_leechers r)) (VStr EmptyString)).

(** [for row in torrents[1:]]: an exception the row's [except] does not
    name reaches [except Exception] around the page, which keeps the items
    appended so far and leaves the page. *)
Fixpoint parse_rows (cfg : config) (search_url : string) (rows : list tr)
    (items : list item) : list item :=
  match rows with
  | [] => items
  | row :: rest =>
      match read_row search_url row with
      | Raise e => if row_except e then parse_rows cfg search_url rest items else items
      | Ok r =>
          match emit cfg r with
          | Some it => parse_rows cfg search_url rest (items ++ [it])
          | None => parse_rows cfg search_url rest items
          end
      end
  end.

(** The [try] around a page; [if not html] never holds, a [BeautifulSoup]
    object being true. *)
Definition parse (cfg : config) (search_url data : string) (items : list item)
    : list item :=
  let data := re_sub_buttons data in
  let html := BS4Parser data in
  if no_torrents_found html then items
  else
    let torrents := match torrents_table html with Some rows => rows | None => [] end in
    match torrents with
    | _ :: ((_ :: _) as rows) => parse_rows cfg search_url rows items
    | _ => items
    end.

Definition search_string (cfg : config) (mode s : string) (items : list item)
    : M (flow (list item)) :=
  let freeleech := if freeleech cfg then "&free=on" else EmptyString in
  let search_url := ("https://iptorrents.eu/t?" ++ categories ++ freeleech
                     ++ "&q=" ++ s ++ "&qf=#torrents")%string in
  let search_url := (search_url ++ (if negb (String.eqb mode "RSS") then ";o=seeders"
                                    else EmptyString))%string in
  if str_truthy (custom_url cfg) && negb (validators_url (custom_url cfg))
  then ret Return
  else
    search_url <- (if str_truthy (custom_url cfg)
                   then path <- lift (item_at (py_split search_url url) 1) ;;
                        ret (urljoin (custom_url cfg) path)
                   else ret search_url) ;;
    data <- fetch_text (mkRequest search_url []) ;;
    if no_body data then ret (Next items)
    else ret (Next (parse cfg search_url (body_text data) items)).

Definition search (cfg : config) (search_strings : list (string * list string))
    : M (list item) :=
  ok <- login cfg ;;
  if negb ok then ret []
  else mode_loop (search_string cfg) search_strings [].

End Provider.
End IPTorrentsProvider.

(** ** ncore.py *)

Module NcoreProvider.
Section Provider.
Context {T : Transport} {L : Library} {H : Helpers}.
Open Scope monad_scope.

Definition url : string := "https://ncore.cc/".
Definition urls_login : string := "https://ncore.cc/login.php".

Definition categories : string :=
  "&kivalasztott_tipus=xvidser_hun,xvidser,dvdser_hun,dvdser,hdser_hun,hdser".

(** [self.urls['search'] % (search_string)] *)
Definition urls_search (s : string) : string :=
  ("https://ncore.cc/torrents.php?nyit_sorozat_resz=true&" ++ categories
   ++ "&mire=" ++ s
   ++ "&miben=name&tipus=kivalasztottak_kozott&submit.x=0&submit.y=0&submit=Ok"
   ++ "&tags=&searchedfrompotato=true&jsons=true")%string.

Definition login (cfg : config) : M bool :=
  let login_params := [("nev", username cfg); ("pass", password cfg); ("submitted", "1")] in
  response <- fetch_text (mkRequest urls_login login_params) ;;
  if no_body response then ret false
  else if re_search "images/warning.png" (body_text response) then ret false
  else ret true.

(** The body of the [try] of one row: [Ok None] is a [continue]. *)
Definition parse_row (cfg : config) (row : pyval) : result (option item) :=
  (title <~ py_pop row "release_name" ;;
   download_url <~ py_pop row "download_url" ;;
   if negb (truthy title && truthy download_url) then Ok None
   else
     seeders <~ py_pop row "seeders" ;;
     leechers <~ py_pop row "leechers" ;;
     low <~ py_lt seeders (minseed cfg) ;;
     low <~ (if low then Ok true else py_lt leechers (minleech cfg)) ;;
     if low then Ok None
     else
       torrent_size <~ py_pop_default row "size" (VInt (-1)) ;;
       let size := py_or (convert_size torrent_size VNone default_units) (VInt (-1)) in
       Ok (Some (mkItem title download_url size seeders leechers (VStr EmptyString))))%res.

(** [except Exception: continue] skips a row whose parsing raised. *)
Definition add_row (cfg : config) (items : list item) (row : pyval) : list item :=
  match parse_row cfg row with
  | Ok (Some it) => items ++ [it]
  | Ok None => items
  | Raise _ => items
  end.

(** From [json.loads(data)] to the end of the loop over the rows.  [None] is
    not a [str]: [json.loads] raises [TypeError], which [except ValueError]
    does not catch. *)
Definition parse (cfg : config) (data : option string) (items : list item)
    : result (list item) :=
  match data with
  | None => Raise TypeError
  | Some text =>
      match json_loads text with
      | None => Ok items
      | Some parsed_json =>
          match parsed_json with
          | VDict _ =>
              (torrent_results <~ py_getitem parsed_json "total_results" ;;
               if negb (truthy torrent_results) then Ok items
               else
                 results <~ py_getitem parsed_json "results" ;;
                 rows <~ py_iter results ;;
                 Ok (fold_left (add_row cfg) rows items))%res
          | _ => Ok items
          end
      end
  end.

Definition search_string (cfg : config) (mode s : string) (items : list item)
    : M (flow (list item)) :=
  data <- fetch_text (mkRequest (urls_search s) []) ;;
  items <- lift (parse cfg data items) ;;
  ret (Next items).

Definition search (cfg : config) (search_strings : list (string * list string))
    : M (list item) :=
  ok <- login cfg ;;
  if negb ok then ret []
  else mode_loop (search_string cfg) search_strings [].

End Provider.
End NcoreProvider.

(** ** norbits.py *)

Module NorbitsProvider.
Section Provider.
Context {T : Transport} {L : Library} {H : Helpers}.
Open Scope monad_scope.

Definition url : string := "https://norbits.net".
Definition urls_search : string := (url ++ "/api2.php?action=torrents")%string.
Definition urls_download : string := (url ++ "/download.php?")%string.

Definition _check_auth (cfg : config) : result bool :=
  if negb (str_truthy (username cfg)) || negb (str_truthy (passkey cfg))
  then Raise AuthException
  else Ok true.

(** The condition holds the warning; whatever it is, the method returns
    [True]. *)
Definition _check_auth_from_data (parsed_json : pyval) : result bool :=
  (has_status <~ py_contains "status" parsed_json ;;
   has_message <~ (if has_status then py_contains "message" parsed_json else Ok false) ;;
   invalid <~ (if has_message
               then status <~ py_get parsed_json "status" VNone ;; Ok (py_eq_int status 3)
               else Ok false) ;;
   let _ := invalid in
   Ok true)%res.

(** One turn of [for item in json_items.get('torrents', [])]: nothing
    catches what a row raises. *)
Definition parse_row (cfg : config) (row : pyval) : result (option item) :=
  (title <~ py_pop_default row "name" (VStr EmptyString) ;;
   id <~ py_pop_default row "id" (VStr EmptyString) ;;
   let download_url :=
     (urls_download ++ urlencode [("id", id); ("passkey", VStr (passkey cfg))])%string in
   if negb (truthy title && str_truthy download_url) then Ok None
   else
     s <~ py_pop_default row "seeders" (VInt 0) ;;
     let seeders := try_int s in
     l <~ py_pop_default row "leechers" (VInt 0) ;;
     let leechers := try_int l in
     if (seeders <? minseed cfg) || (leechers <? minleech cfg) then Ok None
     else
       info_hash <~ py_pop_default row "info_hash" (VStr EmptyString) ;;
       sz <~ py_pop_default row "size" (VInt (-1)) ;;
       let size := convert_size sz (VInt (-1)) default_units in
       Ok (Some (mkItem title (VStr download_url) size
                        (VInt seeders) (VInt leechers) info_hash)))%res.

Fixpoint parse_rows (cfg : config) (rows : list pyval) (items : list item)
    : result (list item) :=
  match rows with
  | [] => Ok items
  | row :: rest =>
      (r <~ parse_row cfg row ;;
       match r with
       | Some it => parse_rows cfg rest (items ++ [it])
       | None => parse_rows cfg rest items
       end)%res
  end.

(** What follows [if not parsed_json: return results] for one response. *)
Definition parse (cfg : config) (parsed_json : pyval) (items : list item)
    : result (list item) :=
  (ok <~ _check_auth_from_data parsed_json ;;
   if ok then
     json_items <~ py_get parsed_json "data" (VStr EmptyString) ;;
     torrents <~ py_get json_items "torrents" (VList []) ;;
     rows <~ py_iter torrents ;;
     parse_rows cfg rows items
   else Ok items)%res.

Definition search_string (cfg : config) (mode s : string) (items : list item)
    : M (flow (list item)) :=
  let post_data := [("username", username cfg); ("passkey", passkey cfg);
                    ("category", "2"); ("search", s)] in
  _ <- lift (_check_auth cfg) ;;
  parsed_json <- fetch_json (mkRequest urls_search post_data) ;;
  if negb (truthy parsed_json) then ret Return
  else
    items <- lift (parse cfg parsed_json items) ;;
    ret (Next items).

Definition search (cfg : config) (search_strings : list (string * list string))
    : M (list item) :=
  mode_loop (search_string cfg) search_strings [].

End Provider.
End NorbitsProvider.

(** ** The providers together *)

Inductive provider : Type := ABNormal | IPTorrents | Ncore | Norbits.

Section Providers.
Context {T : Transport} {L : Library} {H : Helpers}.

Definition provider_search (p : provider) (cfg : config)
    (search_strings : list (string * list string)) : M (list item) :=
  match p with
  | ABNormal => ABNormalProvider.search cfg search_strings
  | IPTorrents => IPTorrentsProvider.search cfg search_strings
  | Ncore => NcoreProvider.search cfg search_strings
  | Norbits => NorbitsProvider.search cfg search_strings
  end.

(** Norbits has no [login]. *)
Definition provider_login (p : provider) : option (config -> M bool) :=
  match p with
  | ABNormal => Some ABNormalProvider.login
  | IPTorrents => Some IPTorrentsProvider.login
  | Ncore => Some NcoreProvider.login
  | Norbits => None
  end.

(** The body of the inner loop of [search]. *)
Definition provider_body (p : provider) (cfg : config)
    : string -> string -> list item -> M (flow (list item)) :=
  match p with
  | ABNormal => ABNormalProvider.search_string cfg
  | IPTorrents => IPTorrentsProvider.search_string cfg
  | Ncore => NcoreProvider.search_string cfg
  | Norbits => NorbitsProvider.search_string cfg
  end.

End Providers.

(** The lists [items] holds at the sort of each mode [search] completes:
    [login] first where the provider has one. *)
Definition search_found {T : Transport} {L : Library} {H : Helpers}
    (p : provider) (cfg : config) (search_strings : list (string * list string))
    (st : state) : list (list item) :=
  match provider_login p with
  | None => discovered (provider_body p cfg) search_strings st
  | Some login =>
      match login cfg st with
      | (Ok true, st') => discovered (provider_body p cfg) search_strings st'
      | _ => []
      end
  end.

(** ** Vocabulary of the properties *)

(** A record has a title and a link. *)
Definition named (d : item) : Prop :=
  truthy (title d) = true /\ truthy (link d) = true.

(** [seeders >= minseed] and [leechers >= minleech] hold of a record. *)
Definition meets (cfg : config) (d : item) : Prop :=
  py_ge (seeders d) (VInt (minseed cfg)) = true
  /\ py_ge (leechers d) (VInt (minleech cfg)) = true.

(** Neither [seeders < minseed] nor [leechers < minleech] holds of a
    record. *)
Definition not_below (cfg : config) (d : item) : Prop :=
  py_lt (seeders d) (minseed cfg) = Ok false
  /\ py_lt (leechers d) (minleech cfg) = Ok false.

Definition not_a_number (v : pyval) : bool :=
  match v with VFloat FNan => true | _ => false end.

(** A record's seeders and leechers are integers that reach the provider's
    [minseed] and [minleech]. *)
Definition accepts (cfg : config) (d : item) : Prop :=
  exists s l, num (seeders d) = Some s /\ num (leechers d) = Some l
              /\ minseed cfg <= s /\ minleech cfg <= l.

(** [cells[labels.index(label)]] *)
Definition cell_by_label (labels : list string) (cells : list td) (label : string)
    : result td :=
  rbind (index_of label labels) (fun i => item_at cells i).

(** A row of a page or of a response, with what its provider reads it by:
    the labels of the table's header, or the address of the search. *)
Inductive table_row : Type :=
| ABNormalRow (labels : list string) (row : tr)
| IPTorrentsRow (search_url : string) (row : tr)
| NcoreRow (row : pyval)
| NorbitsRow (row : pyval).

Definition row_provider (r : table_row) : provider :=
  match r with
  | ABNormalRow _ _ => ABNormal
  | IPTorrentsRow _ _ => IPTorrents
  | NcoreRow _ => Ncore
  | NorbitsRow _ => Norbits
  end.

(** One turn of the loop over the rows: the items after it. *)
Definition row_step {L : Library} {H : Helpers} (cfg : config) (r : table_row)
    (items : list item) : result (list item) :=
  match r with
  | ABNormalRow labels row => Ok (ABNormalProvider.add_row cfg labels items row)
  | IPTorrentsRow search_url row =>
      Ok (IPTorrentsProvider.parse_rows cfg search_url [row] items)
  | NcoreRow row => Ok (NcoreProvider.add_row cfg items row)
  | NorbitsRow row => NorbitsProvider.parse_rows cfg [row] items
  end.

(** The seeders and the leechers of a row, as its provider reads them. *)
Definition row_counts {L : Library} {H : Helpers} (r : table_row)
    : result (pyval * pyval) :=
  match r with
  | ABNormalRow labels row =>
      (s <~ cell_by_label labels (tr_tds row) "S" ;;
       l <~ cell_by_label labels (tr_tds row) "L" ;;
       Ok (VInt (try_int (VStr (td_text_strip s))),
           VInt (try_int (VStr (td_text_strip l)))))%res
  | IPTorrentsRow _ row =>
      (s <~ IPTorrentsProvider.int_text (tr_seeders row) ;;
       l <~ IPTorrentsProvider.int_text (tr_leechers row) ;;
       Ok (VInt s, VInt l))%res
  | NcoreRow row =>
      (s <~ py_pop row "seeders" ;;
       l <~ py_pop row "leechers" ;;
       Ok (s, l))%res
  | NorbitsRow row =>
      (s <~ py_pop_default row "seeders" (VInt 0) ;;
       l <~ py_pop_default row "leechers" (VInt 0) ;;
       Ok (VInt (try_int s), VInt (try_int l)))%res
  end.

(** ABNormal passes over a row with fewer cells than the header. *)
Definition row_short (r : table_row) : bool :=
  match r with
  | ABNormalRow labels row => (List.length (tr_tds row) <? List.length labels)%nat
  | _ => false
  end.

(** The row's turn appends [d]. *)
Definition emitted {L : Library} {H : Helpers} (cfg : config) (r : table_row)
    (d : item) : Prop :=
  match r with
  | ABNormalRow labels row =>
      (List.length (tr_tds row) <? List.length labels)%nat = false
      /\ ABNormalProvider.parse_row cfg labels (tr_tds row) = Ok (Some d)
  | IPTorrentsRow search_url row =>
      exists fields, IPTorrentsProvider.read_row search_url row = Ok fields
                     /\ IPTorrentsProvider.emit cfg fields = Some d
  | NcoreRow row => NcoreProvider.parse_row cfg row = Ok (Some d)
  | NorbitsRow row => NorbitsProvider.parse_row cfg row = Ok (Some d)
  end.

(** [seeders < minseed or leechers < minleech] holds of a row's counts. *)
Definition below (cfg : config) (counts : pyval * pyval) : Prop :=
  py_lt (fst counts) (minseed cfg) = Ok true
  \/ py_lt (snd counts) (minleech cfg) = Ok true.

(** The size of a row as its provider hands it to [convert_size], with the
    units: the text of the size cell, or the row's [size]. *)
Definition row_size (r : table_row) : result (pyval * list string) :=
  match r with
  | ABNormalRow labels row =>
      (i <~ ABNormalProvider.size_index labels ;;
       c <~ item_at (tr_tds row) i ;;
       Ok (VStr (td_text c), ABNormalProvider.units))%res
  | IPTorrentsRow _ row =>
      (c <~ item_at (tr_tds row) 5 ;;
       Ok (VStr (td_text c), default_units))%res
  | NcoreRow row =>
      (torrent_size <~ py_pop_default row "size" (VInt (-1)) ;;
       Ok (torrent_size, default_units))%res
  | NorbitsRow row =>
      (torrent_size <~ py_pop_default row "size" (VInt (-1)) ;;
       Ok (torrent_size, default_units))%res
  end.

(** The title and the link of a row, as its provider reads them. *)
Definition row_names {L : Library} (cfg : config) (r : table_row)
    : result (pyval * pyval) :=
  match r with
  | ABNormalRow labels row =>
      (c <~ cell_by_label labels (tr_tds row) "Release" ;;
       dl <~ cell_by_label labels (tr_tds row) "DL" ;;
       href <~ ABNormalProvider.tooltip_href dl ;;
       Ok (VStr (td_text_strip c), VStr (urljoin ABNormalProvider.url href)))%res
  | IPTorrentsRow search_url row =>
      (c <~ item_at (tr_tds row) 1 ;;
       a <~ match td_a c with Some a => Ok a | None => Raise AttributeError end ;;
       dl <~ item_at (tr_tds row) 3 ;;
       a' <~ match td_a dl with Some a => Ok a | None => Raise TypeError end ;;
       href <~ match a_href a' with Some h => Ok h | None => Raise KeyError end ;;
       Ok (VStr (a_text a), VStr (urljoin search_url href)))%res
  | NcoreRow row =>
      (t <~ py_pop row "release_name" ;;
       u <~ py_pop row "download_url" ;;
       Ok (t, u))%res
  | NorbitsRow row =>
      (t <~ py_pop_default row "name" (VStr EmptyString) ;;
       id <~ py_pop_default row "id" (VStr EmptyString) ;;
       Ok (t, VStr (NorbitsProvider.urls_download
                    ++ urlencode [("id", id); ("passkey", VStr (passkey cfg))])%string))%res
  end.

(** The providers that write [convert_size(...) or -1]. *)
Definition size_or_unknown (p : provider) : bool :=
  match p with
  | ABNormal | IPTorrents | Ncore => true
  | Norbits => false
  end.

Definition record_ok (p : provider) (cfg : config) (d : item) : Prop :=
  named d /\ not_below cfg d /\ (p <> Ncore -> accepts cfg d)
  /\ (size_or_unknown p = true -> truthy (size d) = true).

(** [try_int] of a number is that number, as [int(v)] is. *)
Definition try_int_numeric {H : Helpers} : Prop :=
  forall v z, num v = Some z -> try_int v = z.

(** The order of the sort's keys. *)
Definition key_desc {H : Helpers} (a b : item) : Prop := sort_key b <= sort_key a.

(** [block] is [found] sorted by the key of the sort, greatest first,
    records with the same key in the order [found] has them. *)
Definition stable_key_sort {H : Helpers} (found block : list item) : Prop :=
  Permutation found block
  /\ StronglySorted key_desc block
  /\ forall k, filter (fun d => sort_key d =? k) block
               = filter (fun d => sort_key d =? k) found.

(** The order of the seeders themselves: [a] has no fewer than [b]. *)
Definition seeders_desc (a b : item) : Prop :=
  py_ge (seeders a) (seeders b) = true.

(** [seeders == k] *)
Definition has_seeders (k : Z) (d : item) : bool := py_eq_int (seeders d) k.

(** [block] is [found] sorted by seeders, most first, records with the same
    seeders in the order [found] has them. *)
Definition stable_desc_sort (found block : list item) : Prop :=
  Permutation found block
  /\ StronglySorted seeders_desc block
  /\ forall k, filter (has_seeders k) block = filter (has_seeders k) found.

(** A record's seeders are an integer. *)
Definition whole (d : item) : Prop := exists z, num (seeders d) = Some z.

(** [search_strings] has a mode with a search string. *)
Definition has_pair (search_strings : list (string * list string)) : Prop :=
  exists mode s strings, In (mode, s :: strings) search_strings.

Definition missing_credentials (cfg : config) : Prop :=
  str_truthy (username cfg) = false \/ str_truthy (passkey cfg) = false.

(** The cookies [login] takes as proof of an open session. *)
Definition session_proof (p : provider) (cookie_dict : list (string * string)) : bool :=
  match p with
  | ABNormal => existsb (fun kv => str_truthy (snd kv)) cookie_dict
  | IPTorrents => cookie_set "uid" cookie_dict && cookie_set "pass" cookie_dict
  | Ncore | Norbits => false
  end.

(** ** A scripted transport and small libraries, to run the providers *)

Module Fixture.

(** The session's cookies and the answers the sites give. *)
Record script : Type := mkScript {
  w_cookies : list (string * string);
  w_text : request -> option string;
  w_json : request -> pyval
}.

#[global] Instance transport : Transport := {|
  world := script;
  get_url_text := fun rq w => (w_text w rq, w);
  get_url_json := fun rq w => (w_json w rq, w);
  session_cookies := w_cookies;
  add_cookies_from_ui := fun _ w => ((true, EmptyString), w)
|}.

Definition digit (c : ascii) : option Z :=
  let n := Z.of_nat (nat_of_ascii c) in
  if (48 <=? n) && (n <=? 57) then Some (n - 48) else None.

Fixpoint digits (s : string) (acc : Z) : option Z :=
  match s with
  | EmptyString => Some acc
  | String c s' => match digit c with
                   | Some d => digits s' (10 * acc + d)
                   | None => None
                   end
  end.

Definition decimal (s : string) : option Z :=
  match s with
  | EmptyString => None
  | _ => digits s 0
  end.

Fixpoint lookup {A} (k : string) (table : list (string * A)) : option A :=
  match table with
  | [] => None
  | (k', a) :: rest => if String.eqb k k' then Some a else lookup k rest
  end.

Definition cell (text : string) : td := mkTd text text None None.

Definition link_cell (text href : string) : td :=
  let a := mkAnchor text (Some href) in mkTd text text (Some a) (Some a).

(** A row of the IPTorrents table: name, download link, size, seeders,
    leechers. *)
Definition ipt_row (name href sz s l : string) : tr :=
  mkTr [cell "tv"; link_cell name "/t/1"; cell "-"; link_cell "dl" href;
        cell "0"; cell sz; cell s; cell l]
       (Some s) (Some l).

(** A row of the ABNormal table under the header Release, DL, Size, S, L. *)
Definition ab_row (name href sz s l : string) : tr :=
  mkTr [cell name; link_cell "dl" href; cell sz; cell s; cell l] None None.

Definition ab_header : tr :=
  mkTr [cell "Release"; cell "DL"; cell "Size"; cell "S"; cell "L"] None None.

Definition no_soup : soup := mkSoup None None false None.

Definition pages : list (string * soup) :=
  [("ab-two",
    mkSoup (Some [ab_header; ab_row "Show.S01E01" "dl/1" "1 GO" "7" "2";
                  ab_row "Show.S01E02" "dl/2" "n/a" "9" "3"]) None false None);
   ("ipt-bad-then-good",
    mkSoup None (Some [ipt_row "Name" "Link" "Size" "S" "L";
                       ipt_row "Show.S01E01" "dl/1" "1 GB" "n/a" "2";
                       ipt_row "Show.S01E02" "dl/2" "1 GB" "9" "3"]) false None);
   ("ipt-good",
    mkSoup None (Some [ipt_row "Name" "Link" "Size" "S" "L";
                       ipt_row "Show.S01E02" "dl/2" "1 GB" "9" "3"]) false None);
   ("ipt-empty-file",
    mkSoup None (Some [ipt_row "Name" "Link" "Size" "S" "L";
                       ipt_row "Show.S01E03" "dl/3" "0 B" "9" "3"]) false None)].

Definition torrent (name : string) (id s l sz : Z) : pyval :=
  VDict [("name", VStr name); ("id", VInt id); ("seeders", VInt s);
         ("leechers", VInt l); ("size", VInt sz)].

Definition release (name href : string) (s l sz : Z) : pyval :=
  VDict [("release_name", VStr name); ("download_url", VStr href);
         ("seeders", VInt s); ("leechers", VInt l); ("size", VInt sz)].

(** A release with the counts as the numbers the response holds. *)
Definition release_of (name href : string) (s l : pyval) (sz : Z) : pyval :=
  VDict [("release_name", VStr name); ("download_url", VStr href);
         ("seeders", s); ("leechers", l); ("size", VInt sz)].

(** 5.25 and 5.75 *)
Definition five_and_a_quarter : pyfloat := FNum 21 (-2).
Definition five_and_three_quarters : pyfloat := FNum 23 (-2).

Definition documents : list (string * pyval) :=
  [("{}", VDict []);
   ("nc-two",
    VDict [("total_results", VInt 2);
           ("results", VList [release "Show.S01E01" "http://x/d/1" 10 2 0;
                              release "Show.S01E02" "http://x/d/2" 12 4 104857600])]);
   ("nc-low",
    VDict [("total_results", VInt 2);
           ("results", VList [release "Show.S01E03" "http://x/d/3" 3 2 300;
                              release "Show.S01E04" "http://x/d/4" 6 2 400])]);
   ("nc-nan",
    VDict [("total_results", VInt 1);
           ("results", VList [release_of "Show.S01E07" "http://x/d/7"
                                (VFloat FNan) (VInt 2) 700])]);
   ("nc-quarters",
    VDict [("total_results", VInt 2);
           ("results", VList [release_of "Show.S01E08" "http://x/d/8"
                                (VFloat five_and_a_quarter) (VInt 2) 800;
                              release_of "Show.S01E09" "http://x/d/9"
                                (VFloat five_and_three_quarters) (VInt 2) 900])])].

#[global] Instance library : Library := {|
  urljoin := fun base u => (base ++ "/" ++ u)%string;
  urlencode := fun _ => "id=1&passkey=k";
  re_search := is_substring;
  re_sub_buttons := fun s => s;
  validators_url := String.prefix "http";
  json_loads := fun s => lookup s documents;
  int_of_str := decimal;
  BS4Parser := fun s => match lookup s pages with Some h => h | None => no_soup end
|}.

#[global] Instance helpers : Helpers := {|
  try_int := fun v =>
    match v with
    | VInt z => z
    | VBool b => if b then 1 else 0
    | VFloat (FNum m e) => if 0 <=? e then m * 2 ^ e else Z.quot m (2 ^ (- e))
    | VStr s => match decimal s with Some z => z | None => 0 end
    | _ => 0
    end;
  convert_size := fun sz default _ =>
    match sz with
    | VInt z => VInt (Z.max z 0)
    | VStr "1 GB" => VInt 1073741824
    | VStr "1 GO" => VInt 1073741824
    | VStr "0 B" => VInt 0
    | _ => default
    end
|}.

Definition cfg : config :=
  mkConfig "user" "secret" "key" 5 1 EmptyString EmptyString false.

Definition cfg_no_passkey : config :=
  mkConfig "user" "secret" EmptyString 5 1 EmptyString EmptyString false.

Definition search_of (rq : request) : string :=
  match lookup "search" (req_data rq) with Some s => s | None => EmptyString end.

(** Norbits answers by search string: [down] gets nothing, [bad] a response
    without [data], [denied] the invalid-credentials marker with data. *)
Definition norbits_json (rq : request) : pyval :=
  let s := search_of rq in
  if String.eqb s "down" then VNone
  else if String.eqb s "bad" then VDict [("status", VInt 3); ("message", VStr "denied")]
  else if String.eqb s "denied"
  then VDict [("status", VInt 3); ("message", VStr "denied");
              ("data", VDict [("torrents", VList [torrent "Show.S01E03" 3 8 1 300])])]
  else if String.eqb s "tie"
  then VDict [("data", VDict [("torrents", VList [torrent "Show.S01E04" 4 8 1 400;
                                                   torrent "Show.S01E05" 5 10 1 500;
                                                   torrent "Show.S01E06" 6 8 1 600])])]
  else if String.eqb s "a"
  then VDict [("data", VDict [("torrents", VList [torrent "Show.S01E01" 1 10 2 100;
                                                   torrent "Show.S01E02" 2 3 2 200])])]
  else VDict [("data", VDict [("torrents", VList [torrent "Show.S01E03" 3 8 1 300])])].

(** The sites answer by address; [*] stands for every other address. *)
Definition site (answers : list (string * string)) (rq : request) : option string :=
  match lookup (req_url rq) answers with
  | Some body => Some body
  | None => lookup "*" answers
  end.

Definition start (w : script) : state := mkState w [].

(** The record Norbits builds from [torrent name _ s l sz]. *)
Definition norbits_record (name : string) (s l sz : Z) : item :=
  mkItem (VStr name) (VStr "https://norbits.net/download.php?id=1&passkey=k")
         (VInt sz) (VInt s) (VInt l) (VStr EmptyString).

Definition ncore_login_page : string * string :=
  ("https://ncore.cc/login.php", "welcome").

Definition anonymous (answers : list (string * string)) : script :=
  mkScript [] (site answers) norbits_json.

Definition logged_in (answers : list (string * string)) : script :=
  mkScript [("uid", "7"); ("pass", "x")] (site answers) norbits_json.

End Fixture.

(** ** databases/main.py: the migration to the 1080p qualities *)

Module Add1080pAndRawHDQualities.

(** [if result & (1 << k)] *)
Definition flag (result k : Z) : bool := negb (Z.land result (Z.shiftl 1 k) =? 0).

Definition _update_quality (old_quality : Z) : Z :=
  let result := old_quality in
  (* move fullhdbluray from 1<<5 to 1<<8 if set *)
  let result := if flag result 5
                then Z.lor (Z.land result (Z.lnot (Z.shiftl 1 5))) (Z.shiftl 1 8)
                else result in
  (* move hdbluray from 1<<4 to 1<<7 if set *)
  let result := if flag result 4
                then Z.lor (Z.land result (Z.lnot (Z.shiftl 1 4))) (Z.shiftl 1 7)
                else result in
  (* move hdwebdl from 1<<3 to 1<<5 if set *)
  let result := if flag result 3
                then Z.lor (Z.land result (Z.lnot (Z.shiftl 1 3))) (Z.shiftl 1 5)
                else result in
  result.

Definition _update_composite_qualities (status : Z) : Z :=
  let best := Z.shiftr (Z.land status (Z.shiftl 65535 16)) 16 in
  let initial := Z.land status 65535 in
  let best := _update_quality best in
  let initial := _update_quality initial in
  Z.lor (Z.shiftl best 16) initial.

End Add1080pAndRawHDQualities.

(** ** notifications/plex.py: the token of the Plex Media Server *)

Module PlexNotifier.
Section Notifier.
Context {T : Transport}.

(** [sickbeard.PLEX_SERVER_USERNAME], [PLEX_SERVER_PASSWORD] and
    [PLEX_SERVER_TOKEN]; a setting that is not set is the empty string. *)
Record settings : Type := mkSettings {
  PLEX_SERVER_USERNAME : string;
  PLEX_SERVER_PASSWORD : string;
  PLEX_SERVER_TOKEN : string
}.

(** The notifier: the [X-Plex-Token] entry of [self.headers], when there is
    one, and the transport. *)
Record notifier : Type := mkNotifier {
  x_plex_token : option pyval;
  net : state
}.

Definition sign_in_url : string := "https://plex.tv/users/sign_in.json".

(** [get_token(username, password, plex_server_token)]; an argument left to
    its default [None] is the empty string.  Whatever the [try] raises ends
    in the handler, which pops the header: a [getURL] that fails is a
    response the token cannot be read from.  The last statement returns
    ['X-Plex-Token' in self.headers]: [True] when the [try] set the header,
    [False] when the handler popped it. *)
Definition get_token (cfg : settings) (username password plex_server_token : string)
    (n : notifier) : pyval * notifier :=
  let username := if str_truthy username then username else PLEX_SERVER_USERNAME cfg in
  let password := if str_truthy password then password else PLEX_SERVER_PASSWORD cfg in
  let plex_server_token :=
    if str_truthy plex_server_token then plex_server_token else PLEX_SERVER_TOKEN cfg in
  let header := if str_truthy plex_server_token then Some (VStr plex_server_token)
                else x_plex_token n in
  match header with
  | Some _ => (VBool true, mkNotifier header (net n))
  | None =>
      if negb (str_truthy username && str_truthy password)
      then (VBool true, mkNotifier header (net n))
      else
        let params := [("user[login]", username); ("user[password]", password)] in
        let (response, st) := fetch_json (mkRequest sign_in_url params) (net n) in
        match rbind response (fun r => rbind (py_getitem r "user")
                                  (fun user => py_getitem user "authentication_token")) with
        | Ok token => (VBool true, mkNotifier (Some token) st)
        | Raise _ => (VBool false, mkNotifier None st)
        end
  end.

End Notifier.
End PlexNotifier.

(** ** Vocabulary of the further properties *)

(** The (mode, search string) pairs of [search_strings], in the order the
    loops visit them. *)
Definition pairs (search_strings : list (string * list string)) : list (string * string) :=
  flat_map (fun ms => map (pair (fst ms)) (snd ms)) search_strings.

(** The requests [login] issues at most. *)
Definition login_requests (p : provider) : nat :=
  match p with
  | ABNormal => 1
  | IPTorrents => 2
  | Ncore => 1
  | Norbits => 0
  end.

Fixpoint has_char (c : ascii) (s : string) : bool :=
  match s with
  | EmptyString => false
  | String c' s' => Ascii.eqb c c' || has_char c s'
  end.

(** The sites do not answer: every fetch brings nothing. *)
Definition unreachable {T : Transport} : Prop :=
  (forall rq w, no_body (fst (get_url_text rq w)) = true)
  /\ (forall rq w, truthy (fst (get_url_json rq w)) = false).

(** One bit of a quality after the migration, from the bits before it. *)
Definition migrated_bit (q n : Z) : bool :=
  if n =? 8 then Z.testbit q 8 || Z.testbit q 5
  else if n =? 7 then Z.testbit q 7 || Z.testbit q 4
  else if n =? 5 then Z.testbit q 3
  else if n =? 4 then false
  else if n =? 3 then false
  else Z.testbit q n.

(** A quality of the old scheme: the bits the migration moves flags to are
    not in use yet. *)
Definition old_quality (q : Z) : Prop :=
  Z.testbit q 6 = false /\ Z.testbit q 7 = false /\ Z.testbit q 8 = false.

(** The request ABNormal issues for a (mode, search string) pair. *)
Definition abnormal_request {L : Library} (mode s : string) : request :=
  mkRequest ABNormalProvider.urls_search (ABNormalProvider.search_params mode s).

(** The first value a request carries under a name. *)
Definition param (k : string) (rq : request) : option string :=
  option_map snd (find (fun kv => String.eqb k (fst kv)) (req_data rq)).

(** The column of a label, in the table of (label, cell) pairs of a row. *)
Definition keyed (label : string) (column : string * td) : bool :=
  String.eqb label (fst column).

(** What [TypeError] and [AttributeError] have in common: a read of a value
    of the wrong kind. *)
Definition lookup_error (e : exn) : Prop := e = TypeError \/ e = AttributeError.

(** The exceptions that leave [search], the helpers and libraries taken as
    returning. *)
Definition may_raise (p : provider) (e : exn) : bool :=
  match p, e with
  | IPTorrents, AttributeError => true
  | Ncore, TypeError | Ncore, KeyError => true
  | Norbits, AuthException | Norbits, TypeError | Norbits, AttributeError => true
  | _, _ => false
  end.

(** The kinds of the fields of a record, by provider. *)
Definition record_shape {L : Library} (p : provider) (cfg : config) (d : item) : Prop :=
  match p with
  | ABNormal | IPTorrents =>
      (exists t u s l, title d = VStr t /\ link d = VStr u
                       /\ seeders d = VInt s /\ leechers d = VInt l)
      /\ hash d = VStr EmptyString
  | Ncore => hash d = VStr EmptyString
  | Norbits =>
      exists id s l,
        link d = VStr (NorbitsProvider.urls_download
                       ++ urlencode [("id", id); ("passkey", VStr (passkey cfg))])%string
        /\ seeders d = VInt s /\ leechers d = VInt l
  end.

(** Plex: a token is at hand, as argument, as setting or in the headers. *)
Definition token_known {T : Transport} (cfg : PlexNotifier.settings)
    (plex_server_token : string) (n : PlexNotifier.notifier) : bool :=
  str_truthy plex_server_token || str_truthy (PlexNotifier.PLEX_SERVER_TOKEN cfg)
  || match PlexNotifier.x_plex_token n with Some _ => true | None => false end.

(** Plex: a username and a password are at hand, as arguments or settings. *)
Definition can_sign_in (cfg : PlexNotifier.settings) (username password : string) : bool :=
  (str_truthy username || str_truthy (PlexNotifier.PLEX_SERVER_USERNAME cfg))
  && (str_truthy password || str_truthy (PlexNotifier.PLEX_SERVER_PASSWORD cfg)).

(** The request [get_token] signs in with. *)
Definition sign_in_request (cfg : PlexNotifier.settings) (username password : string)
    : request :=
  mkRequest PlexNotifier.sign_in_url
    [("user[login]",
      if str_truthy username then username else PlexNotifier.PLEX_SERVER_USERNAME cfg);
     ("user[password]",
      if str_truthy password then password else PlexNotifier.PLEX_SERVER_PASSWORD cfg)].

(** [response['user']['authentication_token']], when it can be read. *)
Definition token_in (response : pyval) : option pyval :=
  match rbind (py_getitem response "user")
          (fun user => py_getitem user "authentication_token") with
  | Ok token => Some token
  | Raise _ => None
  end.

(** ** Further scripts *)

Module Scenario.

(** A transport that never answers. *)
Definition silent : Transport := {|
  world := list (string * string);
  get_url_text := fun _ w => (None, w);
  get_url_json := fun _ w => (VNone, w);
  session_cookies := fun w => w;
  add_cookies_from_ui := fun _ w => ((true, EmptyString), w)
|}.

Definition silent_start (cookie_dict : list (string * string)) : @state silent :=
  @mkState silent cookie_dict [].

(** Configurations of IPTorrents with a custom URL. *)
Definition cfg_bad_url : config :=
  mkConfig "user" "secret" "key" 5 1 "not a url" EmptyString false.

Definition cfg_mirror : config :=
  mkConfig "user" "secret" "key" 5 1 "https://mirror.example" EmptyString false.

(** plex.tv hands out a token. *)
Definition plex_answer (rq : request) : pyval :=
  VDict [("user", VDict [("authentication_token", VStr "tok-1")])].

Definition plex_world : Fixture.script := Fixture.mkScript [] (fun _ => None) plex_answer.

Definition plex_settings : PlexNotifier.settings :=
  PlexNotifier.mkSettings "user" "secret" EmptyString.

Definition plex_start : PlexNotifier.notifier :=
  PlexNotifier.mkNotifier None (Fixture.start plex_world).

(** plex.tv does not answer. *)
Definition plex_down : PlexNotifier.notifier :=
  PlexNotifier.mkNotifier None
    (Fixture.start (Fixture.mkScript [] (fun _ => None) (fun _ => VNone))).

(** The ABNormal columns in another order. *)
Definition ab_labels_swapped : list string := ["S"; "L"; "Release"; "Size"; "DL"].

Definition ab_cells (name href sz s l : string) : list td :=
  [Fixture.cell name; Fixture.link_cell "dl" href; Fixture.cell sz; Fixture.cell s;
   Fixture.cell l].

Definition ab_cells_swapped (name href sz s l : string) : list td :=
  [Fixture.cell s; Fixture.cell l; Fixture.cell name; Fixture.cell sz;
   Fixture.link_cell "dl" href].

End Scenario.

(** * Properties *)

(** ** The monad *)

Ltac run_in H :=
  unfold bind, ret, raise, lift, fetch_text, fetch_json, read_cookies,
    cookies_from_ui in H; cbn beta iota in H.

Ltac run :=
  unfold bind, ret, raise, lift, fetch_text, fetch_json, read_cookies,
    cookies_from_ui; cbn beta iota.

(** Splits the first [rbind], [if] or [match] a hypothesis is stuck on. *)
Ltac split_res H :=
  repeat (cbn [rbind] in H;
          match type of H with
          | context [rbind ?r _] =>
              let E := fresh "E" in destruct r eqn:E; cbn [rbind] in H; try discriminate H
          | context [if ?b then _ else _] =>
              let E := fresh "E" in destruct b eqn:E; try discriminate H
          end).

(** Two reads of the same place give the same value. *)
Ltac same_read :=
  repeat match goal with
         | E : Ok _ = Ok _ |- _ => inversion E; subst; clear E
         end.

(** Takes the goal through the reads the hypotheses record. *)
Ltac replay :=
  repeat (cbn [rbind];
          match goal with
          | E : ?r = Ok _ |- context [rbind ?r _] => rewrite E
          end).

Ltac replay_in H :=
  repeat (cbn [rbind] in H;
          match type of H with
          | context [rbind ?r _] =>
              match goal with
              | E : r = Ok _ |- _ => rewrite E in H
              end
          end).

(** The cell [Hc] names is the one [item_at] read. *)
Ltac same_cell Hc :=
  match goal with
  | E : item_at _ _ = Ok _ |- _ =>
      unfold item_at in E; rewrite Hc in E; inversion E; subst; clear E
  end.

(** ** [v or -1] *)

Lemma py_or_truthy v : truthy (py_or v (VInt (-1))) = true.
Proof.
  unfold py_or. destruct (truthy v) eqn:E; [exact E | reflexivity].
Qed.

Lemma py_or_falsy v d : truthy v = false -> py_or v d = d.
Proof.
  intros E. unfold py_or. now rewrite E.
Qed.

(** ** The sort *)

Section SortFacts.
Context {H : Helpers}.

Lemma sort_insert_perm x l : Permutation (x :: l) (sort_insert x l).
Proof.
  induction l as [|y l IH]; cbn.
  - apply Permutation_refl.
  - destruct (sort_key x <? sort_key y).
    + eapply perm_trans; [apply perm_swap|]. now apply perm_skip.
    + apply Permutation_refl.
Qed.

Lemma py_sort_perm l : Permutation l (py_sort l).
Proof.
  induction l as [|x l IH]; cbn.
  - constructor.
  - eapply perm_trans; [apply perm_skip, IH | apply sort_insert_perm].
Qed.

Lemma py_sort_Forall (G : item -> Prop) l : Forall G l -> Forall G (py_sort l).
Proof.
  intros HG. rewrite Forall_forall in *. intros d Hd.
  apply HG. eapply Permutation_in; [apply Permutation_sym, py_sort_perm | exact Hd].
Qed.

Lemma sort_insert_sorted x l :
  StronglySorted key_desc l -> StronglySorted key_desc (sort_insert x l).
Proof.
  induction 1 as [|y l Hl IH Hy]; cbn.
  - repeat constructor.
  - destruct (sort_key x <? sort_key y) eqn:E.
    + constructor; [exact IH|].
      rewrite Forall_forall in *. intros d Hd.
      apply (Permutation_in _ (Permutation_sym (sort_insert_perm x l))) in Hd.
      destruct Hd as [<- | Hd].
      * unfold key_desc. apply Z.ltb_lt in E. lia.
      * now apply Hy.
    + apply Z.ltb_ge in E. constructor; [now constructor|].
      constructor; [exact E|].
      rewrite Forall_forall in *. intros d Hd. specialize (Hy d Hd).
      unfold key_desc in *. lia.
Qed.

Lemma py_sort_sorted l : StronglySorted key_desc (py_sort l).
Proof.
  induction l as [|x l IH]; cbn; [constructor | now apply sort_insert_sorted].
Qed.

(** An inserted element passes only elements of a greater key: among the
    elements of its own key it comes first. *)
Lemma sort_insert_filter k x l :
  filter (fun d => sort_key d =? k) (sort_insert x l)
  = filter (fun d => sort_key d =? k) (x :: l).
Proof.
  induction l as [|y l IH]; [reflexivity|].
  cbn [sort_insert]. destruct (sort_key x <? sort_key y) eqn:E; [|reflexivity].
  cbn [filter] in *. rewrite IH. apply Z.ltb_lt in E.
  destruct (sort_key x =? k) eqn:Ex; [|reflexivity].
  apply Z.eqb_eq in Ex.
  destruct (sort_key y =? k) eqn:Ey; [|reflexivity].
  apply Z.eqb_eq in Ey. lia.
Qed.

Lemma py_sort_stable k l :
  filter (fun d => sort_key d =? k) (py_sort l) = filter (fun d => sort_key d =? k) l.
Proof.
  induction l as [|x l IH]; [reflexivity|].
  cbn [py_sort fold_right]. fold (py_sort l).
  rewrite sort_insert_filter. cbn [filter]. now rewrite IH.
Qed.

End SortFacts.

(** ** The loops *)

Section LoopFacts.
Context {T : Transport} {H : Helpers}.
Variable G : item -> Prop.
Variable body : string -> string -> list item -> M (flow (list item)).
Hypothesis body_keeps :
  forall mode s items st items' st',
    Forall G items -> body mode s items st = (Ok (Next items'), st') -> Forall G items'.

Lemma string_loop_keeps mode strings :
  forall items st items' st',
    Forall G items ->
    string_loop (body mode) strings items st = (Ok (Next items'), st') ->
    Forall G items'.
Proof.
  induction strings as [|s strings IH]; intros items st items' st' HG Hrun.
  - cbn in Hrun. run_in Hrun. now inversion Hrun; subst.
  - cbn [string_loop] in Hrun. run_in Hrun.
    destruct (body mode s items st) as [[[items1|]|e] st1] eqn:Eb; try discriminate.
    eapply IH; [|exact Hrun]. eapply body_keeps; eauto.
Qed.

Lemma mode_loop_keeps search_strings :
  forall results st rs st',
    Forall G results ->
    mode_loop body search_strings results st = (Ok rs, st') ->
    Forall G rs.
Proof.
  induction search_strings as [|[mode strings] rest IH]; intros results st rs st' HG Hrun.
  - cbn in Hrun. run_in Hrun. now inversion Hrun; subst.
  - cbn [mode_loop] in Hrun. run_in Hrun.
    destruct (string_loop (body mode) strings [] st) as [[[items|]|e] st1] eqn:El;
      try discriminate.
    + eapply IH; [|exact Hrun]. apply Forall_app. split; [exact HG|].
      apply py_sort_Forall. eapply string_loop_keeps; [constructor | exact El].
    + now inversion Hrun; subst.
Qed.

Lemma discovered_keeps search_strings :
  forall st, Forall (Forall G) (discovered body search_strings st).
Proof.
  induction search_strings as [|[mode strings] rest IH]; intros st; cbn.
  - constructor.
  - destruct (string_loop (body mode) strings [] st) as [[[items|]|e] st1] eqn:El;
      [|constructor|constructor].
    constructor; [|apply IH].
    eapply string_loop_keeps; [constructor | exact El].
Qed.

End LoopFacts.

Section BlockFacts.
Context {T : Transport} {H : Helpers}.
Variable body : string -> string -> list item -> M (flow (list item)).

(** [search] returns the sorted lists of the modes it completed, one after
    the other. *)
Lemma mode_loop_blocks search_strings :
  forall results st rs st',
    mode_loop body search_strings results st = (Ok rs, st') ->
    rs = results ++ List.concat (map py_sort (discovered body search_strings st)).
Proof.
  induction search_strings as [|[mode strings] rest IH]; intros results st rs st' Hrun.
  - cbn in Hrun. run_in Hrun. inversion Hrun; subst. cbn. now rewrite app_nil_r.
  - cbn [mode_loop] in Hrun. run_in Hrun. cbn [discovered].
    destruct (string_loop (body mode) strings [] st) as [[[items|]|e] st1] eqn:El;
      try discriminate.
    + apply IH in Hrun. subst rs. cbn. now rewrite <- app_assoc.
    + inversion Hrun; subst. cbn. now rewrite app_nil_r.
Qed.

End BlockFacts.

Lemma fold_left_keeps {A} (G : item -> Prop) (f : list item -> A -> list item) :
  (forall items a, Forall G items -> Forall G (f items a)) ->
  forall l items, Forall G items -> Forall G (fold_left f l items).
Proof.
  intros Hf. induction l as [|a l IH]; intros items HG; cbn; [exact HG|].
  apply IH, Hf, HG.
Qed.

Lemma Forall_snoc (G : item -> Prop) items d :
  Forall G items -> G d -> Forall G (items ++ [d]).
Proof.
  intros. apply Forall_app. split; [assumption | now constructor].
Qed.

Lemma accepts_ints cfg s l :
  (s <? minseed cfg) || (l <? minleech cfg) = false ->
  exists s' l', num (VInt s) = Some s' /\ num (VInt l) = Some l'
                /\ minseed cfg <= s' /\ minleech cfg <= l'.
Proof.
  intros E. apply orb_false_iff in E. destruct E as [Es El].
  apply Z.ltb_ge in Es, El. exists s, l. cbn. auto.
Qed.

Lemma not_below_ints cfg s l :
  (s <? minseed cfg) || (l <? minleech cfg) = false ->
  py_lt (VInt s) (minseed cfg) = Ok false /\ py_lt (VInt l) (minleech cfg) = Ok false.
Proof.
  intros E. apply orb_false_iff in E. destruct E as [Es El].
  unfold py_lt. cbn. now rewrite Es, El.
Qed.

(** ** Numbers *)

Lemma float_compare_ints x y : float_compare (FNum x 0) (FNum y 0) = Some (x ?= y).
Proof.
  unfold float_compare. cbn. now rewrite !Z.mul_1_r.
Qed.

Lemma py_ge_ints a b x y :
  num a = Some x -> num b = Some y -> py_ge a b = (y <=? x).
Proof.
  intros Ha Hb. unfold py_ge.
  assert (Na : number a = Some (FNum x 0))
    by (destruct a; cbn in *; try discriminate; now rewrite ?Ha; inversion Ha).
  assert (Nb : number b = Some (FNum y 0))
    by (destruct b; cbn in *; try discriminate; now rewrite ?Hb; inversion Hb).
  rewrite Na, Nb, float_compare_ints.
  destruct (Z.compare_spec x y); symmetry.
  - apply Z.leb_le. lia.
  - apply Z.leb_gt. lia.
  - apply Z.leb_le. lia.
Qed.

Lemma py_eq_int_num v z k : num v = Some z -> py_eq_int v k = (z =? k).
Proof.
  destruct v; cbn; intros E; try discriminate; now inversion E.
Qed.

(** What is not below a bound reaches it, unless it is not a number. *)
Lemma py_lt_false_ge v n :
  py_lt v n = Ok false -> not_a_number v = false -> py_ge v (VInt n) = true.
Proof.
  intros Hlt Hnan.
  destruct v as [|b|z|f|s|l|d]; try discriminate Hlt.
  - rewrite (py_ge_ints _ _ (if b then 1 else 0) n) by reflexivity.
    cbn in Hlt. inversion Hlt as [E]. apply Z.ltb_ge in E. now apply Z.leb_le.
  - rewrite (py_ge_ints _ _ z n) by reflexivity.
    cbn in Hlt. inversion Hlt as [E]. apply Z.ltb_ge in E. now apply Z.leb_le.
  - unfold py_lt in Hlt. unfold py_ge. cbn [number num option_map].
    destruct f as [m e|s|]; [| |discriminate Hnan].
    + revert Hlt. unfold float_compare. cbv zeta.
      destruct (_ ?= _); intros Hlt; try reflexivity; discriminate Hlt.
    + destruct s; [discriminate Hlt | reflexivity].
Qed.

Lemma not_below_meets cfg d :
  not_below cfg d ->
  not_a_number (seeders d) = false -> not_a_number (leechers d) = false ->
  meets cfg d.
Proof.
  intros [Hs Hl] Ns Nl. split; now apply py_lt_false_ge.
Qed.

Lemma snoc_inv {A} (items : list A) a b : items ++ [a] = items ++ [b] -> a = b.
Proof.
  intros E. apply app_inv_head in E. now inversion E.
Qed.

Lemma snoc_neq {A} (items : list A) a : items <> items ++ [a].
Proof.
  intros E. apply (f_equal (@List.length A)) in E.
  rewrite length_app in E. cbn in E. lia.
Qed.

(** ** Rows *)

Section RowFacts.
Context {T : Transport} {L : Library} {H : Helpers}.

Lemma abnormal_row_ok cfg labels cells d :
  ABNormalProvider.parse_row cfg labels cells = Ok (Some d) -> record_ok ABNormal cfg d.
Proof.
  unfold ABNormalProvider.parse_row. intros Hrow. split_res Hrow.
  all: inversion Hrow; subst d; clear Hrow.
  all: match goal with
       | Hn : negb (_ && _) = false |- _ =>
           apply negb_false_iff, andb_true_iff in Hn; destruct Hn as [Ht Hl]
       end.
  all: match goal with
       | Hb : _ || _ = false |- _ =>
           pose proof (accepts_ints cfg _ _ Hb) as Ha;
           pose proof (not_below_ints cfg _ _ Hb) as Hn
       end.
  all: split; [split; assumption|].
  all: split; [exact Hn|].
  all: split; [intros _; exact Ha|].
  all: intros _; cbn; apply py_or_truthy.
Qed.

Lemma abnormal_keeps cfg mode s items st items' st' :
  Forall (record_ok ABNormal cfg) items ->
  ABNormalProvider.search_string cfg mode s items st = (Ok (Next items'), st') ->
  Forall (record_ok ABNormal cfg) items'.
Proof.
  intros HG Hrun. unfold ABNormalProvider.search_string in Hrun. run_in Hrun.
  destruct (get_url_text _ (sess st)) as [data w].
  destruct (no_body data); inversion Hrun; subst; clear Hrun; [exact HG|].
  unfold ABNormalProvider.parse.
  destruct (torrent_table _) as [[|header [|row rows]]|]; try exact HG.
  apply fold_left_keeps; [|exact HG].
  intros acc r Hacc. unfold ABNormalProvider.add_row.
  destruct (_ <? _)%nat; [exact Hacc|].
  destruct (ABNormalProvider.parse_row _ _ _) as [[d|]|e] eqn:Er; try exact Hacc.
  apply Forall_snoc; [exact Hacc|]. eapply abnormal_row_ok; eauto.
Qed.

Lemma iptorrents_row_ok cfg search_url row fields d :
  IPTorrentsProvider.read_row search_url row = Ok fields ->
  IPTorrentsProvider.emit cfg fields = Some d ->
  record_ok IPTorrents cfg d.
Proof.
  intros Er. unfold IPTorrentsProvider.emit.
  destruct (negb _) eqn:En; [discriminate|].
  destruct (_ || _) eqn:Eb; [discriminate|].
  intros Hd. inversion Hd; subst d; clear Hd.
  apply negb_false_iff, andb_true_iff in En. destruct En as [Ht Hl].
  split; [split; assumption|].
  split; [exact (not_below_ints cfg _ _ Eb)|].
  split; [intros _; exact (accepts_ints cfg _ _ Eb)|].
  intros _. unfold IPTorrentsProvider.read_row in Er. split_res Er.
  inversion Er; subst fields. cbn. apply py_or_truthy.
Qed.

Lemma iptorrents_rows_keep cfg search_url rows :
  forall items,
    Forall (record_ok IPTorrents cfg) items ->
    Forall (record_ok IPTorrents cfg) (IPTorrentsProvider.parse_rows cfg search_url rows items).
Proof.
  induction rows as [|row rows IH]; intros items HG; cbn [IPTorrentsProvider.parse_rows];
    [exact HG|].
  destruct (IPTorrentsProvider.read_row search_url row) as [r|e] eqn:Er.
  - destruct (IPTorrentsProvider.emit cfg r) as [d|] eqn:Ee; [|now apply IH].
    apply IH, Forall_snoc; [exact HG|]. eapply iptorrents_row_ok; eauto.
  - destruct (IPTorrentsProvider.row_except e); [now apply IH | exact HG].
Qed.

Lemma iptorrents_keeps cfg mode s items st items' st' :
  Forall (record_ok IPTorrents cfg) items ->
  IPTorrentsProvider.search_string cfg mode s items st = (Ok (Next items'), st') ->
  Forall (record_ok IPTorrents cfg) items'.
Proof.
  intros HG Hrun. unfold IPTorrentsProvider.search_string in Hrun. run_in Hrun.
  destruct (_ && _); [discriminate|].
  destruct (str_truthy (custom_url cfg)).
  - destruct (item_at _ _) as [path|e]; [|discriminate].
    destruct (get_url_text _ (sess st)) as [data w].
    destruct (no_body data); inversion Hrun; subst; clear Hrun; [exact HG|].
    unfold IPTorrentsProvider.parse.
    destruct (no_torrents_found _); [exact HG|].
    destruct (torrents_table _) as [[|header [|row rows]]|]; try exact HG.
    now apply iptorrents_rows_keep.
  - destruct (get_url_text _ (sess st)) as [data w].
    destruct (no_body data); inversion Hrun; subst; clear Hrun; [exact HG|].
    unfold IPTorrentsProvider.parse.
    destruct (no_torrents_found _); [exact HG|].
    destruct (torrents_table _) as [[|header [|row rows]]|]; try exact HG.
    now apply iptorrents_rows_keep.
Qed.

End RowFacts.

Section JsonRowFacts.
Context {T : Transport} {L : Library} {H : Helpers}.

(** What Ncore's row handler returns, by what it read. *)
Lemma ncore_row_read cfg row d :
  NcoreProvider.parse_row cfg row = Ok (Some d) ->
  exists t u s l sz,
    py_pop row "release_name" = Ok t /\ py_pop row "download_url" = Ok u
    /\ truthy t = true /\ truthy u = true
    /\ py_pop row "seeders" = Ok s /\ py_pop row "leechers" = Ok l
    /\ py_lt s (minseed cfg) = Ok false /\ py_lt l (minleech cfg) = Ok false
    /\ py_pop_default row "size" (VInt (-1)) = Ok sz
    /\ d = mkItem t u (py_or (convert_size sz VNone default_units) (VInt (-1))) s l
             (VStr EmptyString).
Proof.
  unfold NcoreProvider.parse_row. intros Hrow.
  destruct (py_pop row "release_name") as [t|] eqn:Et; [|discriminate]. cbn [rbind] in Hrow.
  destruct (py_pop row "download_url") as [u|] eqn:Eu; [|discriminate]. cbn [rbind] in Hrow.
  destruct (negb (truthy t && truthy u)) eqn:En; [discriminate|].
  destruct (py_pop row "seeders") as [s|] eqn:Es; [|discriminate]. cbn [rbind] in Hrow.
  destruct (py_pop row "leechers") as [l|] eqn:El; [|discriminate]. cbn [rbind] in Hrow.
  destruct (py_lt s (minseed cfg)) as [[|]|] eqn:Els; try discriminate. cbn [rbind] in Hrow.
  destruct (py_lt l (minleech cfg)) as [[|]|] eqn:Ell; try discriminate. cbn [rbind] in Hrow.
  destruct (py_pop_default row "size" (VInt (-1))) as [sz|] eqn:Esz; [|discriminate].
  cbn [rbind] in Hrow. inversion Hrow; subst d; clear Hrow.
  apply negb_false_iff, andb_true_iff in En. destruct En as [Ht Hu].
  exists t, u, s, l, sz. repeat split; assumption.
Qed.

Lemma ncore_row_ok cfg row d :
  NcoreProvider.parse_row cfg row = Ok (Some d) -> record_ok Ncore cfg d.
Proof.
  intros Hrow. apply ncore_row_read in Hrow.
  destruct Hrow as (t & u & s & l & sz & _ & _ & Ht & Hu & _ & _ & Hs & Hl & _ & ->).
  split; [split; assumption|]. split; [split; assumption|].
  split; [intros Hp; now contradiction Hp|].
  intros _. cbn. apply py_or_truthy.
Qed.

Lemma ncore_keeps cfg mode s items st items' st' :
  Forall (record_ok Ncore cfg) items ->
  NcoreProvider.search_string cfg mode s items st = (Ok (Next items'), st') ->
  Forall (record_ok Ncore cfg) items'.
Proof.
  intros HG Hrun. unfold NcoreProvider.search_string in Hrun. run_in Hrun.
  destruct (get_url_text _ (sess st)) as [data w].
  destruct (NcoreProvider.parse cfg data items) as [items1|e] eqn:Ep; [|discriminate].
  inversion Hrun; subst; clear Hrun.
  unfold NcoreProvider.parse in Ep.
  destruct data as [text|]; [|discriminate].
  destruct (json_loads text) as [parsed_json|]; [|now inversion Ep; subst].
  destruct parsed_json; try (now inversion Ep; subst).
  split_res Ep; inversion Ep; subst; clear Ep; try exact HG.
  apply fold_left_keeps; [|exact HG].
  intros acc r Hacc. unfold NcoreProvider.add_row.
  destruct (NcoreProvider.parse_row cfg r) as [[it|]|] eqn:Er; try exact Hacc.
  apply Forall_snoc; [exact Hacc|]. eapply ncore_row_ok; eauto.
Qed.

Lemma norbits_row_ok cfg row d :
  NorbitsProvider.parse_row cfg row = Ok (Some d) -> record_ok Norbits cfg d.
Proof.
  unfold NorbitsProvider.parse_row. intros Hrow. split_res Hrow.
  inversion Hrow; subst d; clear Hrow.
  match goal with
  | Hn : negb (_ && _) = false |- _ =>
      apply negb_false_iff, andb_true_iff in Hn; destruct Hn as [Ht Hl]
  end.
  match goal with
  | Hb : _ || _ = false |- _ =>
      pose proof (accepts_ints cfg _ _ Hb) as Ha;
      pose proof (not_below_ints cfg _ _ Hb) as Hn
  end.
  split; [split; assumption|]. split; [exact Hn|].
  split; [intros _; exact Ha|]. discriminate.
Qed.

Lemma norbits_rows_keep cfg rows :
  forall items items',
    Forall (record_ok Norbits cfg) items ->
    NorbitsProvider.parse_rows cfg rows items = Ok items' ->
    Forall (record_ok Norbits cfg) items'.
Proof.
  induction rows as [|row rows IH]; intros items items' HG Hrun;
    cbn [NorbitsProvider.parse_rows] in Hrun.
  - now inversion Hrun; subst.
  - destruct (NorbitsProvider.parse_row cfg row) as [[d|]|e] eqn:Er;
      cbn [rbind] in Hrun; try discriminate.
    + eapply IH; [|exact Hrun]. apply Forall_snoc; [exact HG|].
      eapply norbits_row_ok; eauto.
    + eapply IH; eauto.
Qed.

Lemma norbits_keeps cfg mode s items st items' st' :
  Forall (record_ok Norbits cfg) items ->
  NorbitsProvider.search_string cfg mode s items st = (Ok (Next items'), st') ->
  Forall (record_ok Norbits cfg) items'.
Proof.
  intros HG Hrun. unfold NorbitsProvider.search_string in Hrun. run_in Hrun.
  destruct (NorbitsProvider._check_auth cfg); [|discriminate].
  destruct (get_url_json _ (sess st)) as [parsed_json w].
  destruct (negb (truthy parsed_json)); [discriminate|].
  destruct (NorbitsProvider.parse cfg parsed_json items) as [items1|e] eqn:Ep;
    [|discriminate].
  inversion Hrun; subst; clear Hrun.
  unfold NorbitsProvider.parse in Ep.
  destruct (NorbitsProvider._check_auth_from_data parsed_json) as [[|]|];
    cbn [rbind] in Ep; try discriminate.
  - destruct (py_get parsed_json "data" _) as [json_items|]; cbn [rbind] in Ep;
      [|discriminate].
    destruct (py_get json_items "torrents" _) as [torrents|]; cbn [rbind] in Ep;
      [|discriminate].
    destruct (py_iter torrents) as [rows|]; cbn [rbind] in Ep; [|discriminate].
    eapply norbits_rows_keep; eauto.
  - now inversion Ep; subst.
Qed.

(** Every provider's loop body keeps the collected records well formed. *)
Lemma provider_body_keeps p cfg mode s items st items' st' :
  Forall (record_ok p cfg) items ->
  provider_body p cfg mode s items st = (Ok (Next items'), st') ->
  Forall (record_ok p cfg) items'.
Proof.
  destruct p; cbn [provider_body].
  - apply abnormal_keeps.
  - apply iptorrents_keeps.
  - apply ncore_keeps.
  - apply norbits_keeps.
Qed.

(** [search] is [login], where there is one, and then the loops. *)
Lemma provider_search_run p cfg search_strings st rs st' :
  provider_search p cfg search_strings st = (Ok rs, st') ->
  (rs = [] /\ search_found p cfg search_strings st = [])
  \/ exists st1,
       mode_loop (provider_body p cfg) search_strings [] st1 = (Ok rs, st')
       /\ search_found p cfg search_strings st
          = discovered (provider_body p cfg) search_strings st1.
Proof.
  unfold search_found.
  destruct p; cbn [provider_search provider_login provider_body];
    unfold ABNormalProvider.search, IPTorrentsProvider.search, NcoreProvider.search,
      NorbitsProvider.search; intros Hrun.
  4: { right. exists st. split; [exact Hrun | reflexivity]. }
  all: unfold bind at 1 in Hrun.
  1: destruct (ABNormalProvider.login cfg st) as [[[|]|e] st1] eqn:Elog.
  4: destruct (IPTorrentsProvider.login cfg st) as [[[|]|e] st1] eqn:Elog.
  7: destruct (NcoreProvider.login cfg st) as [[[|]|e] st1] eqn:Elog.
  all: cbn [negb] in Hrun; try discriminate.
  all: try (right; exists st1; split; [exact Hrun | reflexivity]).
  all: left; unfold ret in Hrun; inversion Hrun; subst; split; reflexivity.
Qed.

End JsonRowFacts.

(** ** One row *)

Section OneRow.
Context {L : Library} {H : Helpers}.

(** A turn of the loop over the rows appends one record or nothing. *)
Lemma row_step_cases cfg r items items' :
  row_step cfg r items = Ok items' ->
  items' = items \/ exists d, items' = items ++ [d] /\ emitted cfg r d.
Proof.
  destruct r as [labels row|search_url row|row|row]; cbn [row_step emitted]; intros Hs.
  - inversion Hs; subst items'; clear Hs. unfold ABNormalProvider.add_row.
    destruct (_ <? _)%nat eqn:Elen; [now left|].
    destruct (ABNormalProvider.parse_row _ _ _) as [[d|]|e] eqn:Er; try (now left).
    right. exists d. auto.
  - inversion Hs; subst items'; clear Hs. cbn [IPTorrentsProvider.parse_rows].
    destruct (IPTorrentsProvider.read_row search_url row) as [fields|e] eqn:Er.
    + destruct (IPTorrentsProvider.emit cfg fields) as [d|] eqn:Ee; [|now left].
      right. exists d. split; [reflexivity|]. now exists fields.
    + left. now destruct (IPTorrentsProvider.row_except e).
  - inversion Hs; subst items'; clear Hs. unfold NcoreProvider.add_row.
    destruct (NcoreProvider.parse_row cfg row) as [[d|]|e] eqn:Er; try (now left).
    right. exists d. auto.
  - cbn [NorbitsProvider.parse_rows] in Hs.
    destruct (NorbitsProvider.parse_row cfg row) as [[d|]|e] eqn:Er; cbn [rbind] in Hs;
      inversion Hs; subst items'; clear Hs; [|now left].
    right. exists d. auto.
Qed.

Lemma emitted_step cfg r items d :
  row_step cfg r items = Ok (items ++ [d]) -> emitted cfg r d.
Proof.
  intros Hs. apply row_step_cases in Hs.
  destruct Hs as [E | (d' & E & He)].
  - symmetry in E. now apply snoc_neq in E.
  - apply snoc_inv in E. now subst d'.
Qed.

Lemma emitted_ok cfg r d : emitted cfg r d -> record_ok (row_provider r) cfg d.
Proof.
  destruct r as [labels row|search_url row|row|row]; cbn [emitted row_provider].
  - intros [_ Hrow]. eapply abnormal_row_ok; eauto.
  - intros (fields & Hr & He). eapply iptorrents_row_ok; eauto.
  - apply ncore_row_ok.
  - apply norbits_row_ok.
Qed.

(** An appended record carries the counts its row holds. *)
Lemma emitted_counts cfg r d :
  emitted cfg r d -> row_counts r = Ok (seeders d, leechers d).
Proof.
  destruct r as [labels row|search_url row|row|row]; cbn [emitted row_counts].
  - intros [_ Hrow]. unfold ABNormalProvider.parse_row in Hrow. unfold cell_by_label.
    split_res Hrow. all: inversion Hrow; subst d; cbn [seeders leechers]; replay.
    all: reflexivity.
  - intros (fields & Hr & He). unfold IPTorrentsProvider.read_row in Hr.
    split_res Hr. inversion Hr; subst fields; clear Hr.
    unfold IPTorrentsProvider.emit in He. cbn in He. split_res He.
    inversion He; subst d. cbn [seeders leechers]. replay. reflexivity.
  - intros Hrow. apply ncore_row_read in Hrow.
    destruct Hrow as (t & u & s & l & sz & _ & _ & _ & _ & Es & El & _ & _ & _ & ->).
    rewrite Es, El. reflexivity.
  - unfold NorbitsProvider.parse_row. intros Hrow. split_res Hrow.
    inversion Hrow; subst d. cbn [seeders leechers]. replay. reflexivity.
Qed.

(** An appended record of ABNormal, IPTorrents and Ncore has the size the
    helper gives for the row's size, or -1. *)
Lemma emitted_size cfg r d sz units :
  size_or_unknown (row_provider r) = true ->
  emitted cfg r d -> row_size r = Ok (sz, units) ->
  size d = py_or (convert_size sz VNone units) (VInt (-1)).
Proof.
  destruct r as [labels row|search_url row|row|row]; cbn [emitted row_size row_provider];
    intros Hp; try discriminate Hp.
  - intros [_ Hrow] Hsz. unfold ABNormalProvider.parse_row in Hrow.
    split_res Hrow. all: inversion Hrow; subst d; clear Hrow.
    all: replay_in Hsz; inversion Hsz; subst; reflexivity.
  - intros (fields & Hr & He) Hsz. unfold IPTorrentsProvider.read_row in Hr.
    split_res Hr. inversion Hr; subst fields; clear Hr.
    unfold IPTorrentsProvider.emit in He. cbn in He. split_res He.
    inversion He; subst d. replay_in Hsz. inversion Hsz; subst. reflexivity.
  - intros Hrow Hsz. apply ncore_row_read in Hrow.
    destruct Hrow as (t & u & s & l & sz' & _ & _ & _ & _ & _ & _ & _ & _ & Esz & ->).
    rewrite Esz in Hsz. cbn [rbind] in Hsz. inversion Hsz; subst. reflexivity.
Qed.

(** A row whose counts are below a bound is dropped: the items stay as they
    are. *)
Lemma below_row_dropped cfg r items counts :
  row_counts r = Ok counts -> below cfg counts -> row_step cfg r items = Ok items.
Proof.
  intros Hc Hb.
  assert (Hnone : forall d, ~ emitted cfg r d).
  { intros d He. pose proof (emitted_counts cfg r d He) as Hc'.
    rewrite Hc in Hc'. inversion Hc'; subst counts.
    apply emitted_ok in He. destruct He as (_ & [Hs Hl] & _).
    destruct Hb as [Hb | Hb]; cbn [fst snd] in Hb; congruence. }
  destruct (row_step cfg r items) as [items'|e] eqn:Hs.
  - apply row_step_cases in Hs. destruct Hs as [-> | (d & _ & He)]; [reflexivity|].
    now apply Hnone in He.
  - destruct r as [labels row|search_url row|row|row]; cbn [row_step] in Hs;
      try discriminate Hs.
    exfalso. cbn [NorbitsProvider.parse_rows] in Hs.
    destruct row; cbn in Hc; try discriminate Hc.
    unfold NorbitsProvider.parse_row in Hs. cbn in Hs.
    destruct (negb _); [discriminate|].
    destruct (_ || _); discriminate.
Qed.

Lemma lookup_bind {B} labels cells label (k : td -> result B) :
  rbind (index_of label labels) (fun i => rbind (item_at cells i) k)
  = rbind (cell_by_label labels cells label) k.
Proof.
  unfold cell_by_label. now destruct (index_of label labels).
Qed.

Ltac replay_cells :=
  repeat (cbn [rbind]; rewrite ?lookup_bind;
          match goal with
          | E : ?r = Ok _ |- context [rbind ?r _] => rewrite E
          end).

Lemma py_lt_int_false s n : py_lt (VInt s) n = Ok false -> (s <? n) = false.
Proof.
  cbn. intros E. now inversion E.
Qed.

(** A row with a title, a link and counts not below the bounds is appended,
    with the size the helper gives for it, or -1. *)
Lemma row_appended cfg r items names counts sz units :
  size_or_unknown (row_provider r) = true ->
  row_short r = false ->
  row_names cfg r = Ok names ->
  truthy (fst names) = true -> truthy (snd names) = true ->
  row_counts r = Ok counts ->
  py_lt (fst counts) (minseed cfg) = Ok false ->
  py_lt (snd counts) (minleech cfg) = Ok false ->
  row_size r = Ok (sz, units) ->
  row_step cfg r items
  = Ok (items ++ [mkItem (fst names) (snd names)
                    (py_or (convert_size sz VNone units) (VInt (-1)))
                    (fst counts) (snd counts) (VStr EmptyString)]).
Proof.
  destruct r as [labels row|search_url row|row|row];
    cbn [row_provider row_short row_names row_counts row_size row_step];
    intros Hp Hshort Hn Ht Hl Hc Hs Hle Hsz; try discriminate Hp.
  - unfold ABNormalProvider.add_row. rewrite Hshort.
    unfold ABNormalProvider.parse_row.
    split_res Hn. inversion Hn; subst names; clear Hn.
    split_res Hc. inversion Hc; subst counts; clear Hc.
    split_res Hsz. inversion Hsz; subst sz units; clear Hsz.
    cbn [fst snd truthy] in *. replay_cells. rewrite Ht, Hl. cbn [andb negb].
    replay_cells.
    apply py_lt_int_false in Hs, Hle. rewrite Hs, Hle. cbn [orb]. replay.
    reflexivity.
  - cbn [IPTorrentsProvider.parse_rows]. unfold IPTorrentsProvider.read_row.
    split_res Hn. inversion Hn; subst names; clear Hn.
    split_res Hc. inversion Hc; subst counts; clear Hc.
    split_res Hsz. inversion Hsz; subst sz units; clear Hsz.
    cbn [fst snd truthy] in *. replay.
    unfold IPTorrentsProvider.emit. cbn.
    rewrite Ht, Hl. cbn [andb negb].
    apply py_lt_int_false in Hs, Hle. rewrite Hs, Hle. reflexivity.
  - unfold NcoreProvider.add_row, NcoreProvider.parse_row.
    split_res Hn. inversion Hn; subst names; clear Hn.
    split_res Hc. inversion Hc; subst counts; clear Hc.
    split_res Hsz. inversion Hsz; subst sz units; clear Hsz.
    cbn [fst snd] in *. replay. rewrite Ht, Hl. cbn [andb negb]. replay.
    reflexivity.
Qed.

Lemma falsy_size_appended cfg r items names counts sz units :
  size_or_unknown (row_provider r) = true ->
  row_short r = false ->
  row_names cfg r = Ok names ->
  truthy (fst names) = true -> truthy (snd names) = true ->
  row_counts r = Ok counts ->
  py_lt (fst counts) (minseed cfg) = Ok false ->
  py_lt (snd counts) (minleech cfg) = Ok false ->
  row_size r = Ok (sz, units) ->
  truthy (convert_size sz VNone units) = false ->
  row_step cfg r items
  = Ok (items ++ [mkItem (fst names) (snd names) (VInt (-1))
                    (fst counts) (snd counts) (VStr EmptyString)]).
Proof.
  intros Hp Hshort Hn Ht Hl Hc Hs Hle Hsz Hfalse.
  rewrite (row_appended cfg r items names counts sz units) by assumption.
  now rewrite (py_or_falsy _ _ Hfalse).
Qed.

End OneRow.

(** ** Records of [search] *)

Section SearchFacts.
Context {T : Transport} {L : Library} {H : Helpers}.

Lemma search_records_ok p cfg search_strings st rs st' :
  provider_search p cfg search_strings st = (Ok rs, st') ->
  Forall (record_ok p cfg) rs.
Proof.
  intros Hrun. apply provider_search_run in Hrun.
  destruct Hrun as [[-> _] | (st1 & Hloop & _)]; [constructor|].
  eapply mode_loop_keeps; [|constructor|exact Hloop].
  intros mode s items st2 items' st2'. apply provider_body_keeps.
Qed.

Lemma search_found_ok p cfg search_strings st :
  Forall (Forall (record_ok p cfg)) (search_found p cfg search_strings st).
Proof.
  assert (Hd : forall st1, Forall (Forall (record_ok p cfg))
                     (discovered (provider_body p cfg) search_strings st1)).
  { intros st1. apply discovered_keeps.
    intros mode s items st2 items' st2'. apply provider_body_keeps. }
  unfold search_found. destruct (provider_login p) as [login|]; [|apply Hd].
  destruct (login cfg st) as [[[|]|e] st1]; [apply Hd | constructor | constructor].
Qed.

Lemma record_ok_whole p cfg d : p <> Ncore -> record_ok p cfg d -> whole d.
Proof.
  intros Hp (_ & _ & Ha & _). destruct (Ha Hp) as (s & l & Hs & _). now exists s.
Qed.

Lemma StronglySorted_on (R R' : item -> item -> Prop) l :
  (forall a b, In a l -> In b l -> R a b -> R' a b) ->
  StronglySorted R l -> StronglySorted R' l.
Proof.
  intros Himp Hs. induction Hs as [|a l Hl IH Ha]; constructor.
  - apply IH. intros x y Hx Hy. apply Himp; now right.
  - rewrite Forall_forall in *. intros b Hb.
    apply Himp; [now left | now right | now apply Ha].
Qed.

Lemma py_sort_stable_key found : stable_key_sort found (py_sort found).
Proof.
  split; [apply py_sort_perm|]. split; [apply py_sort_sorted|].
  intros k. apply py_sort_stable.
Qed.

Lemma has_seeders_key k d :
  try_int_numeric -> whole d -> has_seeders k d = (sort_key d =? k).
Proof.
  intros Hint [z Hz]. unfold has_seeders, sort_key.
  now rewrite (py_eq_int_num _ z k Hz), (Hint _ _ Hz).
Qed.

(** The sort of records whose seeders are integers orders them by their
    seeders. *)
Lemma py_sort_stable_desc found :
  try_int_numeric -> Forall whole found -> stable_desc_sort found (py_sort found).
Proof.
  intros Hint Hok.
  assert (Hsorted : Forall whole (py_sort found)) by now apply py_sort_Forall.
  rewrite Forall_forall in Hok, Hsorted.
  split; [apply py_sort_perm|]. split.
  - apply StronglySorted_on with (R := key_desc); [|apply py_sort_sorted].
    intros a b Ha Hb. unfold key_desc, seeders_desc, sort_key.
    destruct (Hsorted a Ha) as [x Hx]. destruct (Hsorted b Hb) as [y Hy].
    rewrite (py_ge_ints _ _ x y Hx Hy), (Hint _ _ Hx), (Hint _ _ Hy).
    apply Z.leb_le.
  - intros k.
    rewrite (filter_ext_in (has_seeders k) (fun d => sort_key d =? k)).
    2: { intros d Hd. apply has_seeders_key; auto. }
    rewrite py_sort_stable. apply filter_ext_in.
    intros d Hd. symmetry. apply has_seeders_key; auto.
Qed.

(** C1. For every provider and every [search_strings], every record of the
    list [search] returns has a non-empty title and a non-empty link: a row
    whose title or download URL is empty never reaches the output. *)
Theorem search_records_named p cfg search_strings st rs st' :
  provider_search p cfg search_strings st = (Ok rs, st') ->
  Forall named rs.
Proof.
  intros Hrun. apply search_records_ok in Hrun.
  eapply Forall_impl; [|exact Hrun]. now intros d (Hn & _).
Qed.

(** C2, as the code has it.  No record of the list [search] returns is
    below a bound: neither [seeders < minseed] nor [leechers < minleech]
    holds of it.  Counts that are numbers thus reach the bounds, and the
    counts of ABNormal, IPTorrents and Norbits are integers that do; Ncore
    keeps the number of the response as it is, and a count that is not a
    number is below nothing.  A row whose counts are below a bound is
    dropped, the items staying as they are; a turn of the loop over the
    rows changes the items by appending at most one record, which carries
    the counts of its row. *)
Theorem search_records_accepted :
  (forall p cfg search_strings st rs st',
      provider_search p cfg search_strings st = (Ok rs, st') ->
      Forall (fun d => not_below cfg d
                       /\ (not_a_number (seeders d) = false ->
                           not_a_number (leechers d) = false -> meets cfg d)
                       /\ (p <> Ncore -> accepts cfg d)) rs)
  /\ (forall cfg r items counts,
         row_counts r = Ok counts -> below cfg counts ->
         row_step cfg r items = Ok items)
  /\ (forall cfg r items items',
         row_step cfg r items = Ok items' ->
         items' = items
         \/ exists d, items' = items ++ [d]
                      /\ row_counts r = Ok (seeders d, leechers d)
                      /\ not_below cfg d).
Proof.
  split; [|split].
  - intros p cfg search_strings st rs st' Hrun. apply search_records_ok in Hrun.
    eapply Forall_impl; [|exact Hrun]. intros d (_ & Hn & Ha & _).
    split; [exact Hn|]. split; [now apply not_below_meets | exact Ha].
  - intros cfg r items counts. apply below_row_dropped.
  - intros cfg r items items' Hs. apply row_step_cases in Hs.
    destruct Hs as [-> | (d & -> & He)]; [now left|].
    right. exists d. split; [reflexivity|].
    split; [now apply (emitted_counts cfg)|].
    apply emitted_ok in He. now destruct He as (_ & Hn & _).
Qed.

(** C3, as the code has it.  The list [search] returns is the blocks of its
    modes one after the other, and the block of a mode is the records the
    mode found, sorted by the key [try_int(seeders)] in descending order,
    records with equal keys in the order they were found.  Where the
    seeders of the records found are integers, as those of ABNormal,
    IPTorrents and Norbits always are, that is the order of the seeders
    themselves; Ncore keeps the number of the response and sorts by its
    key. *)
Theorem search_modes_sorted p cfg search_strings st rs st' :
  provider_search p cfg search_strings st = (Ok rs, st') ->
  exists blocks,
    rs = List.concat blocks
    /\ Forall2 stable_key_sort (search_found p cfg search_strings st) blocks
    /\ (try_int_numeric ->
        Forall2 (fun found block => Forall whole found -> stable_desc_sort found block)
          (search_found p cfg search_strings st) blocks)
    /\ (p <> Ncore -> Forall (Forall whole) (search_found p cfg search_strings st)).
Proof.
  intros Hrun.
  pose proof (search_found_ok p cfg search_strings st) as Hok.
  assert (Hwhole : p <> Ncore -> Forall (Forall whole) (search_found p cfg search_strings st)).
  { intros Hp. eapply Forall_impl; [|exact Hok]. intros found Hf.
    eapply Forall_impl; [|exact Hf]. intros d Hd. eapply record_ok_whole; eauto. }
  apply provider_search_run in Hrun.
  destruct Hrun as [[-> Hf] | (st1 & Hloop & Hf)].
  - exists []. rewrite Hf in *. repeat split; constructor.
  - apply mode_loop_blocks in Hloop. cbn [app] in Hloop.
    exists (map py_sort (search_found p cfg search_strings st)).
    split; [now rewrite Hf|]. clear Hf Hloop Hok.
    split; [|split; [|exact Hwhole]].
    + clear Hwhole.
      induction (search_found p cfg search_strings st) as [|found rest IH]; cbn [map];
        constructor; [apply py_sort_stable_key | exact IH].
    + clear Hwhole. intros Hint.
      induction (search_found p cfg search_strings st) as [|found rest IH]; cbn [map];
        constructor; [now apply py_sort_stable_desc | exact IH].
Qed.

(** C10. For ABNormal, IPTorrents and Ncore, a row with a title and a link
    and counts that are not below the bounds, whose size the size helper
    turns into 0 or another false value, is appended with size -1; whenever
    a row of theirs is appended and the helper's value is false, the size of
    the record is -1; and no record these providers return has a false
    size. *)
Theorem falsy_size_is_unknown :
  (forall cfg r items names counts sz units,
      size_or_unknown (row_provider r) = true ->
      row_short r = false ->
      row_names cfg r = Ok names ->
      truthy (fst names) = true -> truthy (snd names) = true ->
      row_counts r = Ok counts ->
      py_lt (fst counts) (minseed cfg) = Ok false ->
      py_lt (snd counts) (minleech cfg) = Ok false ->
      row_size r = Ok (sz, units) ->
      truthy (convert_size sz VNone units) = false ->
      row_step cfg r items
      = Ok (items ++ [mkItem (fst names) (snd names) (VInt (-1))
                        (fst counts) (snd counts) (VStr EmptyString)]))
  /\ (forall cfg r items d sz units,
         size_or_unknown (row_provider r) = true ->
         row_step cfg r items = Ok (items ++ [d]) ->
         row_size r = Ok (sz, units) ->
         truthy (convert_size sz VNone units) = false ->
         size d = VInt (-1))
  /\ (forall p cfg search_strings st rs st',
         size_or_unknown p = true ->
         provider_search p cfg search_strings st = (Ok rs, st') ->
         Forall (fun d => truthy (size d) = true) rs).
Proof.
  split; [|split].
  - intros cfg r items names counts sz units Hp Hshort Hn Ht Hl Hc Hs Hle Hsz Hfalse.
    now apply (falsy_size_appended cfg r items names counts sz units).
  - intros cfg r items d sz units Hp Hs Hsz Hfalse.
    apply emitted_step in Hs.
    rewrite (emitted_size cfg r d sz units Hp Hs Hsz). now apply py_or_falsy.
  - intros p cfg search_strings st rs st' Hp Hrun.
    apply search_records_ok in Hrun.
    eapply Forall_impl; [|exact Hrun]. intros d (_ & _ & _ & Hsize). now apply Hsize.
Qed.

End SearchFacts.

(** ** [login] *)

Section LoginFacts.
Context {T : Transport} {L : Library} {H : Helpers}.

(** Ncore's [login] reads nothing of the session: it posts the form. *)
Lemma ncore_login_posts cfg st :
  calls (snd (NcoreProvider.login cfg st))
  = calls st ++ [mkRequest NcoreProvider.urls_login
                   [("nev", username cfg); ("pass", password cfg); ("submitted", "1")]].
Proof.
  unfold NcoreProvider.login. run.
  destruct (get_url_text _ (sess st)) as [response w].
  destruct (no_body response); [reflexivity|].
  destruct (re_search _ _); reflexivity.
Qed.

(** C5, as the code has it.  ABNormal, with a cookie of a non-empty value in
    the session, and IPTorrents, with non-empty [uid] and [pass] cookies,
    return [True] from [login] at once: the state is as before, no request
    was issued.  Ncore's [login] has no such test and issues its request
    whatever the session holds. *)
Theorem login_reuses_session :
  (forall p login cfg st,
      provider_login p = Some login ->
      session_proof p (session_cookies (sess st)) = true ->
      login cfg st = (Ok true, st))
  /\ (forall cfg st, calls (snd (NcoreProvider.login cfg st)) <> calls st).
Proof.
  split.
  - intros p login cfg st Hlogin Hproof.
    destruct p; cbn in Hlogin, Hproof; inversion Hlogin; subst login;
      try discriminate.
    + unfold ABNormalProvider.login. run. now rewrite Hproof.
    + unfold IPTorrentsProvider.login. run. now rewrite Hproof.
  - intros cfg st E. rewrite ncore_login_posts in E.
    apply (f_equal (@List.length request)) in E.
    rewrite length_app in E. cbn in E. lia.
Qed.

(** C8. For ABNormal, IPTorrents and Ncore, when [login] returns [False],
    [search] returns the empty list, raises nothing, and leaves the state
    as [login] left it: no search request is issued. *)
Theorem failed_login_no_search p login cfg search_strings st st1 :
  provider_login p = Some login ->
  login cfg st = (Ok false, st1) ->
  provider_search p cfg search_strings st = (Ok [], st1).
Proof.
  intros Hlogin Hfalse.
  destruct p; cbn in Hlogin; inversion Hlogin; subst login; cbn [provider_search].
  - unfold ABNormalProvider.search, bind. now rewrite Hfalse.
  - unfold IPTorrentsProvider.search, bind. now rewrite Hfalse.
  - unfold NcoreProvider.search, bind. now rewrite Hfalse.
Qed.

End LoginFacts.

(** ** Norbits: credentials and the response *)

Section NorbitsFacts.
Context {T : Transport} {L : Library} {H : Helpers}.

Lemma norbits_check_auth_missing cfg :
  missing_credentials cfg -> NorbitsProvider._check_auth cfg = Raise AuthException.
Proof.
  unfold NorbitsProvider._check_auth. intros [E | E]; rewrite E; cbn.
  - reflexivity.
  - now rewrite orb_true_r.
Qed.

Lemma norbits_mode_loop_raises cfg search_strings :
  forall results st,
    missing_credentials cfg -> has_pair search_strings ->
    mode_loop (NorbitsProvider.search_string cfg) search_strings results st
    = (Raise AuthException, st).
Proof.
  induction search_strings as [|[mode strings] rest IH];
    intros results st Hmiss (m & s & ss & Hin).
  - destruct Hin.
  - cbn [mode_loop]. destruct strings as [|s0 strings].
    + destruct Hin as [Hin | Hin]; [discriminate|].
      cbn [string_loop]. run. apply IH; [exact Hmiss|]. now exists m, s, ss.
    + cbn [string_loop]. unfold NorbitsProvider.search_string. run.
      now rewrite (norbits_check_auth_missing cfg Hmiss).
Qed.

(** Without a credential, the first pair raises before its request. *)
Lemma norbits_search_raises cfg search_strings st :
  missing_credentials cfg ->
  has_pair search_strings ->
  NorbitsProvider.search cfg search_strings st = (Raise AuthException, st).
Proof.
  intros Hmiss Hpair. unfold NorbitsProvider.search.
  now apply norbits_mode_loop_raises.
Qed.

Lemma check_auth_from_data_dict d :
  NorbitsProvider._check_auth_from_data (VDict d) = Ok true.
Proof.
  unfold NorbitsProvider._check_auth_from_data. cbn.
  destruct (dict_find "status" d); cbn; [|reflexivity].
  destruct (dict_find "message" d); reflexivity.
Qed.

Lemma check_auth_from_data_never_false parsed_json :
  NorbitsProvider._check_auth_from_data parsed_json <> Ok false.
Proof.
  unfold NorbitsProvider._check_auth_from_data.
  destruct parsed_json; cbn; try discriminate.
  - destruct (is_substring "status" s); cbn; [|discriminate].
    destruct (is_substring "message" s); cbn; discriminate.
  - destruct (existsb (is_str "status") l); cbn; [|discriminate].
    destruct (existsb (is_str "message") l); cbn; discriminate.
  - destruct (dict_find "status" d); cbn; [|discriminate].
    destruct (dict_find "message" d); cbn; discriminate.
Qed.

(** The parse of a response reads its [data] and nothing else. *)
Lemma norbits_parse_reads_data cfg d d' items :
  dict_find "data" d = dict_find "data" d' ->
  NorbitsProvider.parse cfg (VDict d) items = NorbitsProvider.parse cfg (VDict d') items.
Proof.
  intros E. unfold NorbitsProvider.parse.
  rewrite !check_auth_from_data_dict. cbn [rbind py_get]. now rewrite E.
Qed.

(** C9, as the code has it.  [_check_auth_from_data] returns [True] for
    every response that is a mapping, the invalid-credentials marker
    (status 3 with a message) included, and returns [False] for no value at
    all; two mappings with the same [data] are parsed into the same records,
    whether or not they carry the marker. *)
Theorem check_auth_from_data_true :
  (forall d, NorbitsProvider._check_auth_from_data (VDict d) = Ok true)
  /\ (forall parsed_json, NorbitsProvider._check_auth_from_data parsed_json <> Ok false)
  /\ (forall cfg d message items,
         dict_find "data" (("status", VInt 3) :: ("message", message) :: d)
         = dict_find "data" d
         /\ NorbitsProvider.parse cfg
              (VDict (("status", VInt 3) :: ("message", message) :: d)) items
            = NorbitsProvider.parse cfg (VDict d) items).
Proof.
  split; [exact check_auth_from_data_dict|].
  split; [exact check_auth_from_data_never_false|].
  intros cfg d message items.
  assert (E : dict_find "data" (("status", VInt 3) :: ("message", message) :: d)
              = dict_find "data" d) by reflexivity.
  split; [exact E | now apply norbits_parse_reads_data].
Qed.

End NorbitsFacts.

(** ** Which exceptions a Norbits response can raise *)

Section NorbitsExceptions.
Context {T : Transport} {L : Library} {H : Helpers}.

Lemma py_pop_default_exn row k d e :
  py_pop_default row k d = Raise e -> e <> AuthException.
Proof.
  destruct row; cbn; intros E; inversion E; discriminate.
Qed.

Lemma py_get_exn v k d e : py_get v k d = Raise e -> e <> AuthException.
Proof.
  destruct v; cbn; intros E; inversion E; discriminate.
Qed.

Lemma py_iter_exn v e : py_iter v = Raise e -> e <> AuthException.
Proof.
  destruct v; cbn; intros E; inversion E; discriminate.
Qed.

Lemma py_contains_exn k v e : py_contains k v = Raise e -> e <> AuthException.
Proof.
  destruct v; cbn; intros E; inversion E; discriminate.
Qed.

(** Splits a computation that raised at its first [rbind], closing the
    case where the raise is that of a primitive. *)
Ltac raised H :=
  repeat (cbn [rbind] in H;
          match type of H with
          | rbind ?r _ = Raise _ =>
              let E := fresh "E" in
              destruct r eqn:E; cbn [rbind] in H;
              [| inversion H; subst;
                 eauto using py_pop_default_exn, py_get_exn, py_iter_exn, py_contains_exn]
          | (if ?b then _ else _) = Raise _ => destruct b; try discriminate H
          end).

Lemma norbits_row_exn cfg row e :
  NorbitsProvider.parse_row cfg row = Raise e -> e <> AuthException.
Proof.
  unfold NorbitsProvider.parse_row. intros Hrow. raised Hrow.
  all: discriminate Hrow.
Qed.

Lemma norbits_rows_exn cfg rows :
  forall items e, NorbitsProvider.parse_rows cfg rows items = Raise e -> e <> AuthException.
Proof.
  induction rows as [|row rows IH]; intros items e Hrun;
    cbn [NorbitsProvider.parse_rows] in Hrun; [discriminate|].
  destruct (NorbitsProvider.parse_row cfg row) as [[d|]|e'] eqn:Er; cbn [rbind] in Hrun.
  - eapply IH; eauto.
  - eapply IH; eauto.
  - inversion Hrun; subst. eapply norbits_row_exn; eauto.
Qed.

Lemma check_auth_from_data_exn parsed_json e :
  NorbitsProvider._check_auth_from_data parsed_json = Raise e -> e <> AuthException.
Proof.
  unfold NorbitsProvider._check_auth_from_data. intros Hrun.
  destruct (py_contains "status" parsed_json) as [[|]|e1] eqn:E1; cbn [rbind] in Hrun;
    try discriminate.
  - destruct (py_contains "message" parsed_json) as [[|]|e2] eqn:E2; cbn [rbind] in Hrun;
      try discriminate.
    + destruct (py_get parsed_json "status" VNone) as [v|e3] eqn:E3; cbn [rbind] in Hrun;
        [discriminate|].
      inversion Hrun; subst. eapply py_get_exn; eauto.
    + inversion Hrun; subst. eapply py_contains_exn; eauto.
  - inversion Hrun; subst. eapply py_contains_exn; eauto.
Qed.

Lemma norbits_parse_exn cfg parsed_json items e :
  NorbitsProvider.parse cfg parsed_json items = Raise e -> e <> AuthException.
Proof.
  unfold NorbitsProvider.parse. intros Hrun.
  destruct (NorbitsProvider._check_auth_from_data parsed_json) as [[|]|e1] eqn:E1;
    cbn [rbind] in Hrun; try discriminate.
  - destruct (py_get parsed_json "data" _) as [json_items|e2] eqn:E2; cbn [rbind] in Hrun.
    2: { inversion Hrun; subst. eapply py_get_exn; eauto. }
    destruct (py_get json_items "torrents" _) as [torrents|e3] eqn:E3; cbn [rbind] in Hrun.
    2: { inversion Hrun; subst. eapply py_get_exn; eauto. }
    destruct (py_iter torrents) as [rows|e4] eqn:E4; cbn [rbind] in Hrun.
    2: { inversion Hrun; subst. eapply py_iter_exn; eauto. }
    eapply norbits_rows_exn; eauto.
  - inversion Hrun; subst. eapply check_auth_from_data_exn; eauto.
Qed.

Lemma norbits_check_auth_raised cfg e :
  NorbitsProvider._check_auth cfg = Raise e -> missing_credentials cfg.
Proof.
  unfold NorbitsProvider._check_auth, missing_credentials.
  destruct (str_truthy (username cfg)), (str_truthy (passkey cfg)); cbn;
    intros E; try discriminate; auto.
Qed.

Lemma norbits_string_loop_auth cfg mode strings :
  forall items st st',
    string_loop (NorbitsProvider.search_string cfg mode) strings items st
    = (Raise AuthException, st') ->
    missing_credentials cfg.
Proof.
  induction strings as [|s strings IH]; intros items st st' Hrun;
    cbn [string_loop] in Hrun; run_in Hrun; [discriminate|].
  unfold NorbitsProvider.search_string at 1 in Hrun. run_in Hrun.
  destruct (NorbitsProvider._check_auth cfg) as [ok|e] eqn:Ea.
  2: { eapply norbits_check_auth_raised; eauto. }
  destruct (get_url_json _ (sess st)) as [parsed_json w].
  destruct (negb (truthy parsed_json)); [discriminate|].
  destruct (NorbitsProvider.parse cfg parsed_json items) as [items1|e] eqn:Ep.
  - eapply IH; eauto.
  - inversion Hrun; subst. now apply norbits_parse_exn in Ep.
Qed.

(** [AuthException] out of [search] tells the missing credentials and
    nothing else. *)
Lemma norbits_auth_exception_is_configuration cfg search_strings st st' :
  NorbitsProvider.search cfg search_strings st = (Raise AuthException, st') ->
  missing_credentials cfg /\ has_pair search_strings.
Proof.
  unfold NorbitsProvider.search. generalize (@nil item) as results. revert st.
  induction search_strings as [|[mode strings] rest IH]; intros st results Hrun;
    cbn [mode_loop] in Hrun; run_in Hrun; [discriminate|].
  destruct (string_loop (NorbitsProvider.search_string cfg mode) strings [] st)
    as [[[items|]|e] st1] eqn:El.
  - apply IH in Hrun. destruct Hrun as (Hm & m & s & ss & Hin).
    split; [exact Hm|]. exists m, s, ss. now right.
  - discriminate.
  - inversion Hrun; subst. split.
    + eapply norbits_string_loop_auth; eauto.
    + destruct strings as [|s strings]; [cbn in El; run_in El; discriminate|].
      exists mode, s, strings. now left.
Qed.

(** Norbits: [search] called with at least one (mode, search string) pair
    while the username or the passkey is missing raises [AuthException] to
    the caller instead of returning a list, before any request; and
    [AuthException] out of [search] means just that: a pair to search and a
    missing credential. *)
Theorem norbits_missing_credentials_raise cfg search_strings st :
  (missing_credentials cfg ->
   has_pair search_strings ->
   NorbitsProvider.search cfg search_strings st = (Raise AuthException, st))
  /\ (forall st',
         NorbitsProvider.search cfg search_strings st = (Raise AuthException, st') ->
         missing_credentials cfg /\ has_pair search_strings).
Proof.
  split.
  - apply norbits_search_raises.
  - intros st'. apply norbits_auth_exception_is_configuration.
Qed.

(** With the credentials set, a response that is nothing ends [search]
    with the results of the modes completed, and raises nothing. *)
Lemma norbits_falsy_response_returns cfg mode s items st :
  NorbitsProvider._check_auth cfg = Ok true ->
  truthy (fst (get_url_json
                 (mkRequest NorbitsProvider.urls_search
                    [("username", username cfg); ("passkey", passkey cfg);
                     ("category", "2"); ("search", s)]) (sess st))) = false ->
  fst (NorbitsProvider.search_string cfg mode s items st) = Ok Return.
Proof.
  intros Ha Hfalse. unfold NorbitsProvider.search_string. run. rewrite Ha.
  destruct (get_url_json _ (sess st)) as [parsed_json w]. cbn in Hfalse.
  now rewrite Hfalse.
Qed.

(** A response without [data] raises [AttributeError]. *)
Lemma norbits_no_data_raises cfg d items :
  dict_find "data" d = None ->
  NorbitsProvider.parse cfg (VDict d) items = Raise AttributeError.
Proof.
  intros E. unfold NorbitsProvider.parse.
  rewrite check_auth_from_data_dict. cbn. now rewrite E.
Qed.

End NorbitsExceptions.

(** ** A fetch that brings nothing *)

Section EmptyFetch.
Context {T : Transport} {L : Library} {H : Helpers}.

(** ABNormal goes on to the next search string with the items it has. *)
Lemma abnormal_no_body_continues cfg mode s items st :
  no_body (fst (get_url_text
                  (mkRequest ABNormalProvider.urls_search
                     (ABNormalProvider.search_params mode s)) (sess st))) = true ->
  fst (ABNormalProvider.search_string cfg mode s items st) = Ok (Next items).
Proof.
  intros Hnone. unfold ABNormalProvider.search_string. run.
  destruct (get_url_text _ (sess st)) as [data w]. cbn in Hnone. now rewrite Hnone.
Qed.

(** So does IPTorrents (here without a custom URL). *)
Lemma iptorrents_no_body_continues cfg mode s items st :
  str_truthy (custom_url cfg) = false ->
  (forall rq, no_body (fst (get_url_text rq (sess st))) = true) ->
  fst (IPTorrentsProvider.search_string cfg mode s items st) = Ok (Next items).
Proof.
  intros Hc Hnone. unfold IPTorrentsProvider.search_string. run. rewrite Hc. cbn.
  match goal with
  | |- context [get_url_text ?rq (sess st)] =>
      specialize (Hnone rq); destruct (get_url_text rq (sess st)) as [data w]
  end.
  cbn in Hnone. now rewrite Hnone.
Qed.

(** An IPTorrents row that raises what the row's [except] does not name
    ends the page: the rows after it are not read. *)
Lemma iptorrents_uncaught_row_ends_page cfg search_url row rest items e :
  IPTorrentsProvider.read_row search_url row = Raise e ->
  IPTorrentsProvider.row_except e = false ->
  IPTorrentsProvider.parse_rows cfg search_url (row :: rest) items = items.
Proof.
  intros Hrow He. cbn [IPTorrentsProvider.parse_rows]. now rewrite Hrow, He.
Qed.

(** A mapping without [total_results] makes Ncore raise [KeyError]. *)
Lemma ncore_no_total_raises cfg text d items :
  json_loads text = Some (VDict d) ->
  dict_find "total_results" d = None ->
  NcoreProvider.parse cfg (Some text) items = Raise KeyError.
Proof.
  intros Hjson Hd. unfold NcoreProvider.parse. rewrite Hjson. cbn. now rewrite Hd.
Qed.

(** Ncore hands [None] to [json.loads]. *)
Lemma ncore_no_reply_raises cfg mode s items st :
  fst (get_url_text (mkRequest (NcoreProvider.urls_search s) []) (sess st)) = None ->
  fst (NcoreProvider.search_string cfg mode s items st) = Raise TypeError.
Proof.
  intros Hnone. unfold NcoreProvider.search_string. run.
  destruct (get_url_text _ (sess st)) as [data w]. cbn in Hnone. now subst data.
Qed.

End EmptyFetch.

(** ** Runs *)

Lemma fixture_try_int_numeric : @try_int_numeric Fixture.helpers.
Proof.
  intros v z Hv. destruct v; cbn in *; inversion Hv; reflexivity.
Qed.

(** Two search strings of one mode, each with a record that passes. *)
Lemma search_records_named_witness :
  let run := provider_search Norbits Fixture.cfg [("Episode", ["a"; "c"])]
               (Fixture.start (Fixture.anonymous [])) in
  fst run = Ok [Fixture.norbits_record "Show.S01E01" 10 2 100;
                Fixture.norbits_record "Show.S01E03" 8 1 300]
  /\ Forall named [Fixture.norbits_record "Show.S01E01" 10 2 100;
                   Fixture.norbits_record "Show.S01E03" 8 1 300].
Proof.
  cbv zeta. split; [vm_compute; reflexivity|].
  apply (search_records_named Norbits Fixture.cfg [("Episode", ["a"; "c"])]
           (Fixture.start (Fixture.anonymous [])) _
           (snd (provider_search Norbits Fixture.cfg [("Episode", ["a"; "c"])]
                   (Fixture.start (Fixture.anonymous []))))).
  vm_compute. reflexivity.
Defined.

Lemma Forall2_premise {A B} (G : A -> Prop) (R : A -> B -> Prop) l l' :
  Forall G l -> Forall2 (fun a b => G a -> R a b) l l' -> Forall2 R l l'.
Proof.
  intros HG HR. induction HR as [|a b l l' Hab HR IH]; constructor.
  - apply Hab. now inversion HG.
  - apply IH. now inversion HG.
Qed.

(** Ncore, logged in, with [minseed = 5] and [minleech = 1]: of two
    releases the one with 3 seeders is dropped and the one with 6 is
    returned, with its counts. *)
Lemma search_records_accepted_witness :
  let st := Fixture.start (Fixture.anonymous [Fixture.ncore_login_page; ("*", "nc-low")]) in
  let low := Fixture.release "Show.S01E03" "http://x/d/3" 3 2 300 in
  let good := Fixture.release "Show.S01E04" "http://x/d/4" 6 2 400 in
  let kept := mkItem (VStr "Show.S01E04") (VStr "http://x/d/4") (VInt 400)
                (VInt 6) (VInt 2) (VStr EmptyString) in
  fst (provider_search Ncore Fixture.cfg [("Episode", ["x"])] st) = Ok [kept]
  /\ meets Fixture.cfg kept
  /\ row_step Fixture.cfg (NcoreRow low) [] = Ok []
  /\ row_step Fixture.cfg (NcoreRow good) [] = Ok [kept]
  /\ row_counts (NcoreRow good) = Ok (seeders kept, leechers kept).
Proof.
  cbv zeta.
  destruct (@search_records_accepted Fixture.transport Fixture.library Fixture.helpers)
    as (Hall & Hdrop & Hstep).
  split; [vm_compute; reflexivity|]. split.
  - assert (Hrun : provider_search Ncore Fixture.cfg [("Episode", ["x"])]
                     (Fixture.start
                        (Fixture.anonymous [Fixture.ncore_login_page; ("*", "nc-low")]))
                   = (Ok [mkItem (VStr "Show.S01E04") (VStr "http://x/d/4") (VInt 400)
                            (VInt 6) (VInt 2) (VStr EmptyString)],
                      snd (provider_search Ncore Fixture.cfg [("Episode", ["x"])]
                             (Fixture.start
                                (Fixture.anonymous
                                   [Fixture.ncore_login_page; ("*", "nc-low")])))))
      by (vm_compute; reflexivity).
    apply Hall in Hrun.
    inversion Hrun as [|d rest (_ & Hm & _) _]. apply Hm; reflexivity.
  - split.
    + apply (Hdrop Fixture.cfg
               (NcoreRow (Fixture.release "Show.S01E03" "http://x/d/3" 3 2 300)) []
               (VInt 3, VInt 2)); [reflexivity|].
      left. reflexivity.
    + split; [vm_compute; reflexivity|].
      destruct (Hstep Fixture.cfg
                  (NcoreRow (Fixture.release "Show.S01E04" "http://x/d/4" 6 2 400)) []
                  [mkItem (VStr "Show.S01E04") (VStr "http://x/d/4") (VInt 400)
                     (VInt 6) (VInt 2) (VStr EmptyString)]
                  eq_refl) as [E | (d & E & Hc & _)].
      * discriminate E.
      * cbn [app] in E. inversion E; subst d. exact Hc.
Defined.

(** C2 as stated fails for Ncore: a release whose seeders are not a number
    is below nothing, and [search] returns it though its seeders do not
    reach [minseed]. *)
Lemma ncore_nan_is_not_below :
  let st := Fixture.start (Fixture.anonymous [Fixture.ncore_login_page; ("*", "nc-nan")]) in
  let d := mkItem (VStr "Show.S01E07") (VStr "http://x/d/7") (VInt 700)
             (VFloat FNan) (VInt 2) (VStr EmptyString) in
  provider_search Ncore Fixture.cfg [("Episode", ["x"])] st
  = (Ok [d], snd (provider_search Ncore Fixture.cfg [("Episode", ["x"])] st))
  /\ py_lt (seeders d) (minseed Fixture.cfg) = Ok false
  /\ py_ge (seeders d) (VInt (minseed Fixture.cfg)) = false
  /\ ~ (forall p cfg search_strings st rs st',
          provider_search p cfg search_strings st = (Ok rs, st') ->
          Forall (meets cfg) rs).
Proof.
  cbv zeta. split; [vm_compute; reflexivity|]. split; [reflexivity|].
  split; [reflexivity|].
  intros Hall.
  assert (Hrun : provider_search Ncore Fixture.cfg [("Episode", ["x"])]
                   (Fixture.start
                      (Fixture.anonymous [Fixture.ncore_login_page; ("*", "nc-nan")]))
                 = (Ok [mkItem (VStr "Show.S01E07") (VStr "http://x/d/7") (VInt 700)
                          (VFloat FNan) (VInt 2) (VStr EmptyString)],
                    snd (provider_search Ncore Fixture.cfg [("Episode", ["x"])]
                           (Fixture.start
                              (Fixture.anonymous
                                 [Fixture.ncore_login_page; ("*", "nc-nan")])))))
    by (vm_compute; reflexivity).
  apply Hall in Hrun.
  inversion Hrun as [|d rest [Hs _] _]. discriminate Hs.
Qed.

(** Two modes; the first finds seeders 8, 10, 8 and then 10: its block is
    10, 10, 8, 8 with each pair in the order found. *)
Lemma search_modes_sorted_witness :
  let ss := [("Episode", ["tie"; "a"]); ("Season", ["c"])] in
  let st := Fixture.start (Fixture.anonymous []) in
  exists blocks,
    fst (provider_search Norbits Fixture.cfg ss st) = Ok (List.concat blocks)
    /\ Forall2 stable_key_sort (search_found Norbits Fixture.cfg ss st) blocks
    /\ Forall2 stable_desc_sort (search_found Norbits Fixture.cfg ss st) blocks.
Proof.
  cbv zeta.
  destruct (search_modes_sorted Norbits Fixture.cfg
              [("Episode", ["tie"; "a"]); ("Season", ["c"])]
              (Fixture.start (Fixture.anonymous []))
              [Fixture.norbits_record "Show.S01E05" 10 1 500;
               Fixture.norbits_record "Show.S01E01" 10 2 100;
               Fixture.norbits_record "Show.S01E04" 8 1 400;
               Fixture.norbits_record "Show.S01E06" 8 1 600;
               Fixture.norbits_record "Show.S01E03" 8 1 300]
              (snd (provider_search Norbits Fixture.cfg
                      [("Episode", ["tie"; "a"]); ("Season", ["c"])]
                      (Fixture.start (Fixture.anonymous [])))))
    as (blocks & E & Fk & Fd & Fw).
  - vm_compute. reflexivity.
  - exists blocks. split; [rewrite <- E; vm_compute; reflexivity|].
    split; [exact Fk|].
    apply Forall2_premise with (G := Forall whole).
    + apply Fw. discriminate.
    + apply Fd. exact fixture_try_int_numeric.
Defined.

(** C3 as stated fails for Ncore: seeders 5.25 and 5.75 have the key 5, so
    the sort leaves them in the order found, the fewer seeders first. *)
Lemma ncore_sorts_by_key :
  let st := Fixture.start
              (Fixture.anonymous [Fixture.ncore_login_page; ("*", "nc-quarters")]) in
  let a := mkItem (VStr "Show.S01E08") (VStr "http://x/d/8") (VInt 800)
             (VFloat Fixture.five_and_a_quarter) (VInt 2) (VStr EmptyString) in
  let b := mkItem (VStr "Show.S01E09") (VStr "http://x/d/9") (VInt 900)
             (VFloat Fixture.five_and_three_quarters) (VInt 2) (VStr EmptyString) in
  fst (provider_search Ncore Fixture.cfg [("Episode", ["x"])] st) = Ok [a; b]
  /\ search_found Ncore Fixture.cfg [("Episode", ["x"])] st = [[a; b]]
  /\ sort_key a = 5 /\ sort_key b = 5
  /\ py_ge (seeders a) (seeders b) = false
  /\ ~ (exists blocks,
          [a; b] = List.concat blocks /\ Forall2 stable_desc_sort [[a; b]] blocks).
Proof.
  cbv zeta. split; [vm_compute; reflexivity|]. split; [vm_compute; reflexivity|].
  split; [reflexivity|]. split; [reflexivity|]. split; [reflexivity|].
  intros (blocks & E & F).
  inversion F as [|found block rest blocks' (_ & Hs & _) Hrest]; subst.
  inversion Hrest; subst. cbn in E. rewrite app_nil_r in E. subst block.
  inversion Hs as [|x l _ Hx]; subst.
  inversion Hx as [|y l' Hab _]; subst.
  unfold seeders_desc in Hab. discriminate Hab.
Qed.

(** A row whose size is unknown to the helper (ABNormal, [n/a]), a row of
    size [0 B] (IPTorrents) and a release of size 0 (Ncore): each is
    appended with size -1. *)
Lemma falsy_size_is_unknown_witness :
  row_step Fixture.cfg
    (ABNormalRow ["Release"; "DL"; "Size"; "S"; "L"]
       (Fixture.ab_row "Show.S01E02" "dl/2" "n/a" "9" "3")) []
  = Ok [mkItem (VStr "Show.S01E02") (VStr "https://abnormal.ws/dl/2") (VInt (-1))
          (VInt 9) (VInt 3) (VStr EmptyString)]
  /\ row_step Fixture.cfg
       (IPTorrentsRow "https://iptorrents.eu/t"
          (Fixture.ipt_row "Show.S01E03" "dl/3" "0 B" "9" "3")) []
     = Ok [mkItem (VStr "Show.S01E03") (VStr "https://iptorrents.eu/t/dl/3") (VInt (-1))
             (VInt 9) (VInt 3) (VStr EmptyString)]
  /\ row_step Fixture.cfg
       (NcoreRow (Fixture.release "Show.S01E01" "http://x/d/1" 10 2 0)) []
     = Ok [mkItem (VStr "Show.S01E01") (VStr "http://x/d/1") (VInt (-1))
             (VInt 10) (VInt 2) (VStr EmptyString)].
Proof.
  destruct (@falsy_size_is_unknown Fixture.transport Fixture.library Fixture.helpers)
    as (Happended & _ & _).
  split; [|split].
  - apply (Happended Fixture.cfg
             (ABNormalRow ["Release"; "DL"; "Size"; "S"; "L"]
                (Fixture.ab_row "Show.S01E02" "dl/2" "n/a" "9" "3")) []
             (VStr "Show.S01E02", VStr "https://abnormal.ws/dl/2") (VInt 9, VInt 3)
             (VStr "n/a") ABNormalProvider.units); reflexivity.
  - apply (Happended Fixture.cfg
             (IPTorrentsRow "https://iptorrents.eu/t"
                (Fixture.ipt_row "Show.S01E03" "dl/3" "0 B" "9" "3")) []
             (VStr "Show.S01E03", VStr "https://iptorrents.eu/t/dl/3") (VInt 9, VInt 3)
             (VStr "0 B") default_units); reflexivity.
  - apply (Happended Fixture.cfg
             (NcoreRow (Fixture.release "Show.S01E01" "http://x/d/1" 10 2 0)) []
             (VStr "Show.S01E01", VStr "http://x/d/1") (VInt 10, VInt 2)
             (VInt 0) default_units); reflexivity.
Defined.

(** IPTorrents with [uid] and [pass] in the session. *)
Lemma login_reuses_session_witness :
  let st := Fixture.start (Fixture.logged_in []) in
  session_proof IPTorrents (session_cookies (sess st)) = true
  /\ IPTorrentsProvider.login Fixture.cfg st = (Ok true, st).
Proof.
  cbv zeta. split; [reflexivity|].
  destruct (@login_reuses_session Fixture.transport Fixture.library) as (Hreuse & _).
  apply (Hreuse IPTorrents); reflexivity.
Defined.

(** C5 as stated fails for Ncore: with the cookies that are proof of a
    session for the other providers, its [login] still posts the form. *)
Lemma ncore_login_ignores_session :
  let st := Fixture.start (Fixture.logged_in [Fixture.ncore_login_page]) in
  session_proof ABNormal (session_cookies (sess st)) = true
  /\ session_proof IPTorrents (session_cookies (sess st)) = true
  /\ fst (NcoreProvider.login Fixture.cfg st) = Ok true
  /\ calls (snd (NcoreProvider.login Fixture.cfg st))
     = [mkRequest "https://ncore.cc/login.php"
          [("nev", "user"); ("pass", "secret"); ("submitted", "1")]]
  /\ NcoreProvider.login Fixture.cfg st <> (Ok true, st).
Proof.
  cbv zeta. repeat split; try (vm_compute; reflexivity).
  intros E. apply (f_equal (fun r => List.length (calls (snd r)))) in E.
  vm_compute in E. discriminate E.
Qed.

(** ABNormal with no cookie and a site that does not answer. *)
Lemma failed_login_no_search_witness :
  let st := Fixture.start (Fixture.anonymous []) in
  let st1 := snd (ABNormalProvider.login Fixture.cfg st) in
  ABNormalProvider.login Fixture.cfg st = (Ok false, st1)
  /\ List.length (calls st1) = 1%nat
  /\ provider_search ABNormal Fixture.cfg [("Episode", ["x"; "y"])] st = (Ok [], st1).
Proof.
  cbv zeta. split; [vm_compute; reflexivity|]. split; [reflexivity|].
  apply (failed_login_no_search ABNormal ABNormalProvider.login); [reflexivity|].
  vm_compute. reflexivity.
Defined.

(** Norbits without a passkey. *)
Lemma norbits_missing_credentials_raise_witness :
  let st := Fixture.start (Fixture.anonymous []) in
  NorbitsProvider.search Fixture.cfg_no_passkey [("RSS", []); ("Episode", ["a"])] st
  = (Raise AuthException, st).
Proof.
  cbv zeta.
  apply (proj1 (norbits_missing_credentials_raise Fixture.cfg_no_passkey
                  [("RSS", []); ("Episode", ["a"])]
                  (Fixture.start (Fixture.anonymous [])))).
  - right. reflexivity.
  - exists "Episode", "a", []. right. left. reflexivity.
Defined.

(** C9 as stated fails on a response that is not a mapping: the membership
    test of the marker raises. *)
Lemma check_auth_from_data_not_total :
  NorbitsProvider._check_auth_from_data (VInt 5) = Raise TypeError
  /\ ~ (forall parsed_json, NorbitsProvider._check_auth_from_data parsed_json = Ok true).
Proof.
  split; [reflexivity|].
  intros Hall. specialize (Hall (VInt 5)). discriminate Hall.
Qed.

(** The response to [denied] carries the marker and one torrent. *)
Lemma check_auth_from_data_true_witness :
  let data := [("data", VDict [("torrents", VList [Fixture.torrent "Show.S01E03" 3 8 1 300])])] in
  NorbitsProvider._check_auth_from_data
    (VDict (("status", VInt 3) :: ("message", VStr "denied") :: data)) = Ok true
  /\ NorbitsProvider.parse Fixture.cfg
       (VDict (("status", VInt 3) :: ("message", VStr "denied") :: data)) []
     = Ok [Fixture.norbits_record "Show.S01E03" 8 1 300]
  /\ fst (NorbitsProvider.search Fixture.cfg [("Episode", ["denied"])]
            (Fixture.start (Fixture.anonymous [])))
     = Ok [Fixture.norbits_record "Show.S01E03" 8 1 300].
Proof.
  cbv zeta.
  destruct (@check_auth_from_data_true Fixture.library Fixture.helpers)
    as (Htrue & _ & Hsame).
  split; [apply Htrue|]. split; [|vm_compute; reflexivity].
  destruct (Hsame Fixture.cfg
              [("data", VDict [("torrents", VList [Fixture.torrent "Show.S01E03" 3 8 1 300])])]
              (VStr "denied") []) as (_ & ->).
  vm_compute. reflexivity.
Defined.

(** C4, where the code departs from it.  Norbits: the fetch for [down]
    brings nothing, and [search] returns at once, without the record already
    found for [a] and without the request for [c]; Ncore: a fetch that
    brings [None] raises [TypeError] out of [search]. *)
Theorem falsy_fetch_ends_search :
  let st := Fixture.start (Fixture.anonymous [Fixture.ncore_login_page]) in
  let stopped := NorbitsProvider.search Fixture.cfg
                   [("Episode", ["a"; "down"]); ("Season", ["c"])] st in
  fst stopped = Ok []
  /\ map Fixture.search_of (calls (snd stopped)) = ["a"; "down"]
  /\ fst (NorbitsProvider.search Fixture.cfg [("Episode", ["a"]); ("Season", ["c"])] st)
     = Ok [Fixture.norbits_record "Show.S01E01" 10 2 100;
           Fixture.norbits_record "Show.S01E03" 8 1 300]
  /\ fst (NcoreProvider.search Fixture.cfg [("Episode", ["x"])] st) = Raise TypeError.
Proof.
  cbv zeta. repeat split; vm_compute; reflexivity.
Qed.

(** C7, where the code departs from it.  With the credentials set, a
    response without [data] raises [AttributeError] out of [search], torrents
    that are a number raise [TypeError] and a torrent that is one raises
    [AttributeError]: the missing credential is not the only error that
    reaches the caller. *)
Theorem norbits_other_errors_escape :
  let st := Fixture.start (Fixture.anonymous []) in
  NorbitsProvider._check_auth Fixture.cfg = Ok true
  /\ fst (NorbitsProvider.search Fixture.cfg [("Episode", ["bad"])] st)
     = Raise AttributeError
  /\ NorbitsProvider.parse Fixture.cfg
       (VDict [("data", VDict [("torrents", VInt 5)])]) []
     = Raise TypeError
  /\ NorbitsProvider.parse Fixture.cfg
       (VDict [("data", VDict [("torrents", VList [VInt 5])])]) []
     = Raise AttributeError.
Proof.
  cbv zeta. repeat split; vm_compute; reflexivity.
Qed.

(** C6, where the code departs from it.  Norbits: a response without
    [data] raises [AttributeError] out of [search]; Ncore: a mapping without
    [total_results] raises [KeyError]; IPTorrents: a row whose seeders are
    not a number ends the page, and the good row after it is lost. *)
Theorem malformed_response_raises :
  let st := Fixture.start (Fixture.anonymous [Fixture.ncore_login_page; ("*", "{}")]) in
  fst (NorbitsProvider.search Fixture.cfg [("Episode", ["bad"; "a"])] st)
  = Raise AttributeError
  /\ fst (NcoreProvider.search Fixture.cfg [("Episode", ["x"])] st) = Raise KeyError
  /\ fst (IPTorrentsProvider.search Fixture.cfg [("Episode", ["x"])]
            (Fixture.start (Fixture.logged_in [("*", "ipt-bad-then-good")])))
     = Ok []
  /\ List.length
       (IPTorrentsProvider.parse Fixture.cfg "https://iptorrents.eu/t" "ipt-good" [])
     = 1%nat.
Proof.
  cbv zeta. repeat split; vm_compute; reflexivity.
Qed.

(** * Further properties *)
(** ** The sort is determined *)

Section SortUnique.
Context {H : Helpers}.

Lemma filter_key_head x l :
  filter (fun d => sort_key d =? sort_key x) (x :: l)
  = x :: filter (fun d => sort_key d =? sort_key x) l.
Proof.
  cbn. now rewrite Z.eqb_refl.
Qed.

Lemma filter_key_in k d l :
  In d (filter (fun d => sort_key d =? k) l) -> In d l /\ sort_key d = k.
Proof.
  intros Hin. apply filter_In in Hin. destruct Hin as [Hin Hk].
  split; [exact Hin | now apply Z.eqb_eq].
Qed.

(** Two descending lists with the same records of every key, in the same
    order, are one list. *)
Lemma sorted_classes_eq l1 :
  forall l2,
    StronglySorted key_desc l1 -> StronglySorted key_desc l2 ->
    (forall k, filter (fun d => sort_key d =? k) l1 = filter (fun d => sort_key d =? k) l2) ->
    l1 = l2.
Proof.
  induction l1 as [|x l1 IH]; intros l2 S1 S2 Hcl.
  - destruct l2 as [|y l2]; [reflexivity|].
    specialize (Hcl (sort_key y)). rewrite filter_key_head in Hcl. discriminate Hcl.
  - destruct l2 as [|y l2].
    { specialize (Hcl (sort_key x)). rewrite filter_key_head in Hcl. discriminate Hcl. }
    inversion S1 as [|? ? S1' F1]; subst. inversion S2 as [|? ? S2' F2]; subst.
    rewrite Forall_forall in F1, F2.
    assert (Hxy : sort_key x = sort_key y).
    { pose proof (Hcl (sort_key x)) as Hx. rewrite filter_key_head in Hx.
      pose proof (Hcl (sort_key y)) as Hy. rewrite filter_key_head in Hy.
      assert (Hx2 : In x (y :: l2)).
      { apply (filter_key_in (sort_key x)). rewrite <- Hx. now left. }
      assert (Hy1 : In y (x :: l1)).
      { apply (filter_key_in (sort_key y)). rewrite Hy. now left. }
      destruct Hx2 as [<- | Hx2]; [reflexivity|].
      destruct Hy1 as [<- | Hy1]; [reflexivity|].
      apply F2 in Hx2. apply F1 in Hy1. unfold key_desc in *. lia. }
    assert (x = y).
    { pose proof (Hcl (sort_key x)) as Hx. rewrite filter_key_head in Hx.
      rewrite Hxy in Hx. rewrite filter_key_head in Hx. now inversion Hx. }
    subst y. f_equal. apply IH; try assumption.
    intros k. specialize (Hcl k). cbn [filter] in Hcl.
    destruct (sort_key x =? k); [now inversion Hcl | exact Hcl].
Qed.

(** X1. The sort is the only arrangement of the items that is descending
    by key and keeps, for every key, the items of that key in their order:
    every stable sort gives what [py_sort] gives. *)
Theorem stable_sort_unique l l' :
  StronglySorted key_desc l' ->
  (forall k, filter (fun d => sort_key d =? k) l' = filter (fun d => sort_key d =? k) l) ->
  l' = py_sort l.
Proof.
  intros Hs Hcl. apply sorted_classes_eq; [exact Hs | apply py_sort_sorted|].
  intros k. now rewrite Hcl, py_sort_stable.
Qed.

Lemma py_sort_idempotent l : py_sort (py_sort l) = py_sort l.
Proof.
  apply sorted_classes_eq; try apply py_sort_sorted.
  intros k. now rewrite !py_sort_stable.
Qed.

End SortUnique.

(** ** Requests *)

Section RequestCount.
Context {T : Transport} {H : Helpers}.
Variable body : string -> string -> list item -> M (flow (list item)).
Hypothesis body_one :
  forall mode s items st,
    (List.length (calls (snd (body mode s items st))) <= S (List.length (calls st)))%nat.

Lemma string_loop_calls mode strings :
  forall items st,
    (List.length (calls (snd (string_loop (body mode) strings items st)))
     <= List.length (calls st) + List.length strings)%nat.
Proof.
  induction strings as [|s strings IH]; intros items st; cbn [string_loop List.length].
  - unfold ret. cbn. lia.
  - unfold bind. pose proof (body_one mode s items st) as Hb.
    destruct (body mode s items st) as [[[items1|]|e] st1]; cbn [snd] in *.
    + specialize (IH items1 st1). lia.
    + unfold ret. cbn. lia.
    + lia.
Qed.

Lemma pairs_cons mode strings (rest : list (string * list string)) :
  List.length (pairs ((mode, strings) :: rest))
  = (List.length strings + List.length (pairs rest))%nat.
Proof.
  unfold pairs. cbn [flat_map fst snd]. now rewrite length_app, length_map.
Qed.

Lemma mode_loop_calls search_strings :
  forall results st,
    (List.length (calls (snd (mode_loop body search_strings results st)))
     <= List.length (calls st) + List.length (pairs search_strings))%nat.
Proof.
  induction search_strings as [|[mode strings] rest IH]; intros results st.
  - cbn. lia.
  - cbn [mode_loop]. rewrite pairs_cons. unfold bind.
    pose proof (string_loop_calls mode strings [] st) as Hs.
    destruct (string_loop (body mode) strings [] st) as [[[items|]|e] st1]; cbn [snd] in *.
    + specialize (IH (results ++ py_sort items) st1). lia.
    + unfold ret. cbn. lia.
    + lia.
Qed.

End RequestCount.

Section ProviderRequests.
Context {T : Transport} {L : Library} {H : Helpers}.

Lemma provider_body_one p cfg mode s items st :
  (List.length (calls (snd (provider_body p cfg mode s items st)))
   <= S (List.length (calls st)))%nat.
Proof.
  destruct p; cbn [provider_body].
  - unfold ABNormalProvider.search_string. run.
    destruct (get_url_text _ (sess st)) as [data w].
    destruct (no_body data); cbn; rewrite length_app; cbn; lia.
  - unfold IPTorrentsProvider.search_string. run.
    destruct (_ && _); [cbn; lia|].
    destruct (str_truthy (custom_url cfg)).
    + destruct (item_at _ _) as [path|e]; [|cbn; lia].
      destruct (get_url_text _ (sess st)) as [data w].
      destruct (no_body data); cbn; rewrite length_app; cbn; lia.
    + destruct (get_url_text _ (sess st)) as [data w].
      destruct (no_body data); cbn; rewrite length_app; cbn; lia.
  - unfold NcoreProvider.search_string. run.
    destruct (get_url_text _ (sess st)) as [data w].
    destruct (NcoreProvider.parse cfg data items); cbn; rewrite length_app; cbn; lia.
  - unfold NorbitsProvider.search_string. run.
    destruct (NorbitsProvider._check_auth cfg); [|cbn; lia].
    destruct (get_url_json _ (sess st)) as [parsed_json w].
    destruct (negb (truthy parsed_json)); [cbn; rewrite length_app; cbn; lia|].
    destruct (NorbitsProvider.parse cfg parsed_json items); cbn; rewrite length_app; cbn; lia.
Qed.

(** Counts the requests of the rest of IPTorrents' [login]: the index page
    and the form. *)
Ltac login_requests_counted :=
  destruct (_ && _); [cbn; lia|];
  cbn [sess calls];
  match goal with
  | |- context [get_url_text ?rq ?w] => destruct (get_url_text rq w)
  end;
  destruct (no_body _); [cbn; rewrite ?length_app; cbn; lia|];
  destruct (login_form _); [|cbn; rewrite ?length_app; cbn; lia];
  destruct (negb (str_truthy _)); [cbn; rewrite ?length_app; cbn; lia|];
  cbn [sess calls];
  match goal with
  | |- context [get_url_text ?rq ?w] => destruct (get_url_text rq w)
  end;
  destruct (no_body _); [cbn; rewrite ?length_app; cbn; lia|];
  repeat (match goal with
          | |- context [re_search ?a ?b] => destruct (re_search a b)
          end; [cbn; rewrite ?length_app; cbn; lia|]);
  cbn; rewrite ?length_app; cbn; lia.

Lemma abnormal_login_calls cfg st :
  (List.length (calls (snd (ABNormalProvider.login cfg st))) <= List.length (calls st) + 1)%nat.
Proof.
  unfold ABNormalProvider.login. run.
  destruct (existsb _ _); [cbn; lia|].
  destruct (get_url_text _ (sess st)) as [response w].
  destruct (no_body response); [cbn; rewrite length_app; cbn; lia|].
  destruct (negb _); cbn; rewrite length_app; cbn; lia.
Qed.

Lemma ncore_login_calls cfg st :
  (List.length (calls (snd (NcoreProvider.login cfg st))) <= List.length (calls st) + 1)%nat.
Proof.
  rewrite ncore_login_posts, length_app. cbn. lia.
Qed.

Lemma iptorrents_login_calls cfg st :
  (List.length (calls (snd (IPTorrentsProvider.login cfg st))) <= List.length (calls st) + 2)%nat.
Proof.
  unfold IPTorrentsProvider.login. run.
  destruct (_ && _); [cbn; lia|].
  destruct (str_truthy (cookies cfg)).
  - destruct (add_cookies_from_ui cfg (sess st)) as [[[|] status] w]; cbn [fst negb];
      [|cbn; lia].
    login_requests_counted.
  - cbn [negb]. login_requests_counted.
Qed.

(** X4. [search] issues at most one request per (mode, search string)
    pair on top of those of [login] (one for ABNormal and Ncore, two for
    IPTorrents, none for Norbits), whether it returns or raises. *)
Theorem search_request_bound p cfg search_strings st :
  (List.length (calls (snd (provider_search p cfg search_strings st)))
   <= List.length (calls st) + login_requests p + List.length (pairs search_strings))%nat.
Proof.
  assert (Hloop : forall st1,
             (List.length (calls (snd (mode_loop (provider_body p cfg) search_strings [] st1)))
              <= List.length (calls st1) + List.length (pairs search_strings))%nat).
  { intros st1. apply mode_loop_calls. intros. apply provider_body_one. }
  destruct p; cbn [provider_search login_requests];
    unfold ABNormalProvider.search, IPTorrentsProvider.search, NcoreProvider.search,
      NorbitsProvider.search.
  - unfold bind at 1. pose proof (abnormal_login_calls cfg st) as Hl.
    destruct (ABNormalProvider.login cfg st) as [[[|]|e] st1]; cbn [snd negb] in *.
    + specialize (Hloop st1). cbn [provider_body] in Hloop. lia.
    + unfold ret. cbn. lia.
    + lia.
  - unfold bind at 1. pose proof (iptorrents_login_calls cfg st) as Hl.
    destruct (IPTorrentsProvider.login cfg st) as [[[|]|e] st1]; cbn [snd negb] in *.
    + specialize (Hloop st1). cbn [provider_body] in Hloop. lia.
    + unfold ret. cbn. lia.
    + lia.
  - unfold bind at 1. pose proof (ncore_login_calls cfg st) as Hl.
    destruct (NcoreProvider.login cfg st) as [[[|]|e] st1]; cbn [snd negb] in *.
    + specialize (Hloop st1). cbn [provider_body] in Hloop. lia.
    + unfold ret. cbn. lia.
    + lia.
  - specialize (Hloop st). cbn [provider_body] in Hloop. lia.
Qed.

End ProviderRequests.

Section Traces.
Context {T : Transport} {H : Helpers}.
Variable body : string -> string -> list item -> M (flow (list item)).
Variable request_of : string -> string -> request.
Hypothesis body_fetches :
  forall mode s items st,
    exists items' st',
      body mode s items st = (Ok (Next items'), st')
      /\ calls st' = calls st ++ [request_of mode s].

Lemma string_loop_trace mode strings :
  forall items st,
    exists items' st',
      string_loop (body mode) strings items st = (Ok (Next items'), st')
      /\ calls st' = calls st ++ map (request_of mode) strings.
Proof.
  induction strings as [|s strings IH]; intros items st; cbn [string_loop map].
  - exists items, st. split; [reflexivity | now rewrite app_nil_r].
  - destruct (body_fetches mode s items st) as (items1 & st1 & Hb & Hc).
    destruct (IH items1 st1) as (items' & st' & Hl & Hc').
    exists items', st'. unfold bind. rewrite Hb. split; [exact Hl|].
    rewrite Hc', Hc, <- app_assoc. reflexivity.
Qed.

Lemma mode_loop_trace search_strings :
  forall results st,
    exists rs st',
      mode_loop body search_strings results st = (Ok rs, st')
      /\ calls st' = calls st ++ map (fun ms => request_of (fst ms) (snd ms)) (pairs search_strings).
Proof.
  induction search_strings as [|[mode strings] rest IH]; intros results st.
  - exists results, st. split; [reflexivity | cbn; now rewrite app_nil_r].
  - cbn [mode_loop]. destruct (string_loop_trace mode strings [] st) as (items & st1 & Hl & Hc).
    destruct (IH (results ++ py_sort items) st1) as (rs & st' & Hm & Hc').
    exists rs, st'. unfold bind. rewrite Hl. split; [exact Hm|].
    rewrite Hc', Hc, <- app_assoc. f_equal.
    unfold pairs. cbn [flat_map fst snd]. rewrite map_app, map_map. reflexivity.
Qed.

End Traces.

Section NoPairs.
Context {T : Transport} {H : Helpers}.
Variable body : string -> string -> list item -> M (flow (list item)).

Lemma mode_loop_no_pairs search_strings :
  forall results st,
    pairs search_strings = [] ->
    mode_loop body search_strings results st = (Ok results, st).
Proof.
  induction search_strings as [|[mode strings] rest IH]; intros results st Hp.
  - reflexivity.
  - unfold pairs in Hp. cbn [flat_map fst snd] in Hp.
    apply app_eq_nil in Hp. destruct Hp as [Hs Hrest].
    apply map_eq_nil in Hs. subst strings.
    cbn [mode_loop string_loop]. run. cbn [py_sort fold_right].
    rewrite app_nil_r. now apply IH.
Qed.

End NoPairs.

Section ABNormalFacts.
Context {T : Transport} {L : Library} {H : Helpers}.

Lemma abnormal_body_fetches cfg mode s items st :
  exists items' st',
    ABNormalProvider.search_string cfg mode s items st = (Ok (Next items'), st')
    /\ calls st' = calls st ++ [abnormal_request mode s].
Proof.
  unfold ABNormalProvider.search_string. run.
  destruct (get_url_text _ (sess st)) as [data w].
  destruct (no_body data); eexists; eexists; split; reflexivity.
Qed.

Lemma abnormal_login_returns cfg st :
  exists ok st', ABNormalProvider.login cfg st = (Ok ok, st').
Proof.
  unfold ABNormalProvider.login. run.
  destruct (existsb _ _); [eexists; eexists; reflexivity|].
  destruct (get_url_text _ (sess st)) as [response w].
  destruct (no_body response); [eexists; eexists; reflexivity|].
  destruct (negb _); eexists; eexists; reflexivity.
Qed.

Lemma abnormal_search_never_raises cfg search_strings st :
  exists rs st', ABNormalProvider.search cfg search_strings st = (Ok rs, st').
Proof.
  unfold ABNormalProvider.search. unfold bind at 1.
  destruct (abnormal_login_returns cfg st) as ([|] & st1 & ->); cbn [negb].
  - destruct (mode_loop_trace (ABNormalProvider.search_string cfg) abnormal_request
                (abnormal_body_fetches cfg) search_strings [] st1) as (rs & st' & Hm & _).
    eauto.
  - eexists; eexists; reflexivity.
Qed.

(** X5. ABNormal, once [login] has returned [True]: [search] issues exactly
    one request per (mode, search string) pair, in the order of the pairs,
    each to the search address with that pair's parameters. *)
Theorem abnormal_search_requests cfg search_strings st st1 :
  ABNormalProvider.login cfg st = (Ok true, st1) ->
  calls (snd (ABNormalProvider.search cfg search_strings st))
  = calls st1 ++ map (fun ms => abnormal_request (fst ms) (snd ms)) (pairs search_strings).
Proof.
  intros Hlogin. unfold ABNormalProvider.search. unfold bind at 1. rewrite Hlogin. cbn [negb].
  destruct (mode_loop_trace (ABNormalProvider.search_string cfg) abnormal_request
              (abnormal_body_fetches cfg) search_strings [] st1) as (rs & st' & Hm & Hc).
  now rewrite Hm.
Qed.

(** X7. With no search string in any mode, [search] returns the empty
    list and issues no request after [login]; Norbits, which has no
    [login], does not even look at its credentials. *)
Theorem search_without_pairs p cfg search_strings st :
  pairs search_strings = [] ->
  (provider_login p = None -> provider_search p cfg search_strings st = (Ok [], st))
  /\ (forall login st1,
         provider_login p = Some login -> login cfg st = (Ok true, st1) ->
         provider_search p cfg search_strings st = (Ok [], st1)).
Proof.
  intros Hp. split.
  - destruct p; cbn; try discriminate. intros _.
    unfold NorbitsProvider.search. now apply mode_loop_no_pairs.
  - intros login st1 Hl Hrun.
    destruct p; cbn in Hl; inversion Hl; subst login; cbn [provider_search].
    + unfold ABNormalProvider.search, bind. rewrite Hrun. cbn [negb].
      now apply mode_loop_no_pairs.
    + unfold IPTorrentsProvider.search, bind. rewrite Hrun. cbn [negb].
      now apply mode_loop_no_pairs.
    + unfold NcoreProvider.search, bind. rewrite Hrun. cbn [negb].
      now apply mode_loop_no_pairs.
Qed.

End ABNormalFacts.

(** ** Loops that return *)

Lemma prefix_append sep rest : String.prefix sep (sep ++ rest)%string = true.
Proof.
  induction sep as [|c sep IH]; cbn; [now destruct rest|].
  destruct (ascii_dec c c) as [_|N]; [exact IH | now elim N].
Qed.

Lemma string_app_assoc (a b c : string) : ((a ++ b) ++ c = a ++ (b ++ c))%string.
Proof.
  induction a as [|x a IH]; cbn; [reflexivity | now rewrite IH].
Qed.

Lemma split_aux_some sep s : forall cur skip, exists x l, split_aux sep s cur skip = x :: l.
Proof.
  induction s as [|c s IH]; intros cur skip; cbn [split_aux]; [eauto|].
  destruct skip as [|k]; [|apply IH].
  destruct (String.prefix sep (String c s)); [eauto | apply IH].
Qed.

(** [(sep + rest).split(sep)] has the empty string and then at least one
    more piece. *)
Lemma py_split_prefix c sep rest :
  exists path l,
    py_split (String c sep ++ rest)%string (String c sep) = EmptyString :: path :: l.
Proof.
  unfold py_split. cbn [String.append split_aux].
  change (String c (sep ++ rest)%string) with (String c sep ++ rest)%string.
  rewrite prefix_append.
  destruct (split_aux_some (String c sep) (sep ++ rest)%string EmptyString
              (pred (String.length (String c sep)))) as (x & l & ->).
  eauto.
Qed.

Section LoopsReturn.
Context {T : Transport} {H : Helpers}.
Variable body : string -> string -> list item -> M (flow (list item)).

Lemma string_loop_returns mode strings :
  (forall s items st, exists f st', body mode s items st = (Ok f, st')) ->
  forall items st, exists f st', string_loop (body mode) strings items st = (Ok f, st').
Proof.
  intros Hb. induction strings as [|s strings IH]; intros items st; cbn [string_loop].
  - eexists; eexists; reflexivity.
  - unfold bind. destruct (Hb s items st) as ([items1|] & st1 & ->).
    + apply IH.
    + eexists; eexists; reflexivity.
Qed.

Lemma mode_loop_returns search_strings :
  (forall mode s items st, exists f st', body mode s items st = (Ok f, st')) ->
  forall results st, exists rs st', mode_loop body search_strings results st = (Ok rs, st').
Proof.
  intros Hb. induction search_strings as [|[mode strings] rest IH]; intros results st;
    cbn [mode_loop].
  - eexists; eexists; reflexivity.
  - unfold bind.
    destruct (string_loop_returns mode strings (Hb mode) [] st) as ([items|] & st1 & ->).
    + apply IH.
    + eexists; eexists; reflexivity.
Qed.

(** A body that finds nothing leaves [search] with nothing; [P] is what
    the body keeps of the state. *)
Lemma string_loop_inert (P : state -> Prop) mode strings :
  (forall s st, P st -> exists f st', body mode s [] st = (Ok f, st')
                                      /\ P st' /\ (f = Next [] \/ f = Return)) ->
  forall st, P st -> exists f st', string_loop (body mode) strings [] st = (Ok f, st')
                                   /\ P st' /\ (f = Next [] \/ f = Return).
Proof.
  intros Hb. induction strings as [|s strings IH]; intros st HP; cbn [string_loop].
  - exists (Next []), st. auto.
  - unfold bind. destruct (Hb s st HP) as (f & st1 & -> & HP1 & [-> | ->]).
    + apply IH, HP1.
    + exists Return, st1. auto.
Qed.

Lemma mode_loop_inert (P : state -> Prop) search_strings :
  (forall mode s st, P st -> exists f st', body mode s [] st = (Ok f, st')
                                           /\ P st' /\ (f = Next [] \/ f = Return)) ->
  forall st, P st -> exists st', mode_loop body search_strings [] st = (Ok [], st') /\ P st'.
Proof.
  intros Hb. induction search_strings as [|[mode strings] rest IH]; intros st HP;
    cbn [mode_loop].
  - exists st. auto.
  - unfold bind.
    destruct (string_loop_inert P mode strings (Hb mode) st HP)
      as (f & st1 & -> & HP1 & [-> | ->]).
    + cbn [py_sort fold_right app]. apply IH, HP1.
    + exists st1. auto.
Qed.

End LoopsReturn.

Section IPTorrentsFacts.
Context {T : Transport} {L : Library} {H : Helpers}.

Lemma iptorrents_path cfg mode s :
  exists path,
    item_at
      (py_split
         (("https://iptorrents.eu/t?" ++ IPTorrentsProvider.categories
           ++ (if freeleech cfg then "&free=on" else EmptyString)
           ++ "&q=" ++ s ++ "&qf=#torrents")
          ++ (if negb (String.eqb mode "RSS") then ";o=seeders" else EmptyString))%string
         IPTorrentsProvider.url) 1 = Ok path.
Proof.
  assert (E : forall Y B : string,
             (("https://iptorrents.eu/t?" ++ Y) ++ B
              = "https://iptorrents.eu" ++ ("/t?" ++ (Y ++ B)))%string) by reflexivity.
  rewrite E. unfold IPTorrentsProvider.url.
  match goal with
  | |- context [("https://iptorrents.eu" ++ ?rest)%string] =>
      destruct (py_split_prefix "h" "ttps://iptorrents.eu" rest) as (path & l & Hs)
  end.
  rewrite Hs. exists path. reflexivity.
Qed.


Lemma iptorrents_body_returns cfg mode s items st :
  exists f st', IPTorrentsProvider.search_string cfg mode s items st = (Ok f, st').
Proof.
  unfold IPTorrentsProvider.search_string. run.
  destruct (_ && _); [eexists; eexists; reflexivity|].
  destruct (str_truthy (custom_url cfg)).
  - destruct (iptorrents_path cfg mode s) as (path & ->).
    destruct (get_url_text _ (sess st)) as [data w].
    destruct (no_body data); eexists; eexists; reflexivity.
  - destruct (get_url_text _ (sess st)) as [data w].
    destruct (no_body data); eexists; eexists; reflexivity.
Qed.

Lemma iptorrents_login_raise cfg st e st' :
  IPTorrentsProvider.login cfg st = (Raise e, st') -> e = AttributeError.
Proof.
  unfold IPTorrentsProvider.login. run.
  destruct (_ && _); [discriminate|].
  destruct (str_truthy (cookies cfg)).
  - destruct (add_cookies_from_ui cfg (sess st)) as [[[|] status] w]; cbn [fst negb];
      [|discriminate].
    destruct (_ && _); [discriminate|]. cbn [sess calls].
    destruct (get_url_text _ w) as [data w1].
    destruct (no_body data); [discriminate|].
    destruct (login_form _) as [action|]; [|now intros E; inversion E].
    destruct (negb (str_truthy action)); [discriminate|]. cbn [sess calls].
    destruct (get_url_text _ w1) as [response w2].
    destruct (no_body response); [discriminate|].
    repeat (match goal with |- context [re_search ?a ?b] => destruct (re_search a b) end;
            [discriminate|]).
    discriminate.
  - cbn [negb]. destruct (_ && _); [discriminate|].
    destruct (get_url_text _ (sess st)) as [data w1].
    destruct (no_body data); [discriminate|].
    destruct (login_form _) as [action|]; [|now intros E; inversion E].
    destruct (negb (str_truthy action)); [discriminate|]. cbn [sess calls].
    destruct (get_url_text _ w1) as [response w2].
    destruct (no_body response); [discriminate|].
    repeat (match goal with |- context [re_search ?a ?b] => destruct (re_search a b) end;
            [discriminate|]).
    discriminate.
Qed.

Lemma iptorrents_raise_is_login cfg search_strings st e st' :
  IPTorrentsProvider.search cfg search_strings st = (Raise e, st') ->
  e = AttributeError /\ IPTorrentsProvider.login cfg st = (Raise AttributeError, st').
Proof.
  unfold IPTorrentsProvider.search. unfold bind at 1.
  destruct (IPTorrentsProvider.login cfg st) as [[[|]|e1] st1] eqn:El; cbn [negb]; intros Hrun.
  - destruct (mode_loop_returns (IPTorrentsProvider.search_string cfg) search_strings
                (iptorrents_body_returns cfg) [] st1) as (rs & st2 & Hm).
    rewrite Hm in Hrun. discriminate.
  - discriminate.
  - inversion Hrun; subst. apply iptorrents_login_raise in El. now subst.
Qed.

(** X3. IPTorrents: the loops of [search] raise nothing; an exception out
    of [search] is the [AttributeError] of [login], raised when the page it
    fetched has no login form. *)
Theorem iptorrents_search_raise cfg search_strings st e st' :
  IPTorrentsProvider.search cfg search_strings st = (Raise e, st') ->
  e = AttributeError /\ IPTorrentsProvider.login cfg st = (Raise AttributeError, st').
Proof.
  apply iptorrents_raise_is_login.
Qed.

(** X6. IPTorrents with a custom URL that is not a valid URL: [search]
    returns the empty list and issues no request at all, logged in or
    not. *)
Theorem iptorrents_bad_custom_url cfg search_strings st :
  str_truthy (custom_url cfg) = true ->
  validators_url (custom_url cfg) = false ->
  fst (IPTorrentsProvider.search cfg search_strings st) = Ok []
  /\ calls (snd (IPTorrentsProvider.search cfg search_strings st)) = calls st.
Proof.
  intros Hc Hv.
  assert (Hbody : forall mode s st0, calls st0 = calls st -> exists f st1,
             IPTorrentsProvider.search_string cfg mode s [] st0 = (Ok f, st1)
             /\ calls st1 = calls st /\ (f = Next [] \/ f = Return)).
  { intros mode s st0 Hst0. unfold IPTorrentsProvider.search_string. run.
    rewrite Hc, Hv. cbn. exists Return, st0. auto. }
  unfold IPTorrentsProvider.search. unfold bind at 1.
  unfold IPTorrentsProvider.login. run. rewrite Hc, Hv. cbn [negb andb].
  destruct (_ && _).
  - cbn [negb].
    destruct (mode_loop_inert (IPTorrentsProvider.search_string cfg)
                (fun st0 => calls st0 = calls st) search_strings Hbody st eq_refl)
      as (st' & -> & Hcalls). auto.
  - destruct (str_truthy (cookies cfg)).
    + destruct (add_cookies_from_ui cfg (sess st)) as [[[|] status] w]; cbn; auto.
    + cbn. auto.
Qed.

End IPTorrentsFacts.

Section Unreachable.
Context {T : Transport} {L : Library} {H : Helpers}.

Lemma unreachable_body p cfg :
  unreachable ->
  (p = Norbits -> NorbitsProvider._check_auth cfg = Ok true) ->
  p <> Ncore ->
  forall mode s st, exists f st',
    provider_body p cfg mode s [] st = (Ok f, st')
    /\ (f = Next [] \/ f = Return).
Proof.
  intros [Htext Hjson] Hauth Hp mode s st. destruct p; cbn [provider_body].
  - unfold ABNormalProvider.search_string. run.
    match goal with
    | |- context [get_url_text ?rq (sess st)] =>
        pose proof (Htext rq (sess st)) as Hn; destruct (get_url_text rq (sess st)) as [data w]
    end.
    cbn in Hn. rewrite Hn. eauto.
  - unfold IPTorrentsProvider.search_string. run.
    destruct (_ && _); [eauto|].
    destruct (str_truthy (custom_url cfg)).
    + destruct (iptorrents_path cfg mode s) as (path & ->).
      match goal with
      | |- context [get_url_text ?rq (sess st)] =>
          pose proof (Htext rq (sess st)) as Hn; destruct (get_url_text rq (sess st)) as [data w]
      end.
      cbn in Hn. rewrite Hn. eauto.
    + match goal with
      | |- context [get_url_text ?rq (sess st)] =>
          pose proof (Htext rq (sess st)) as Hn; destruct (get_url_text rq (sess st)) as [data w]
      end.
      cbn in Hn. rewrite Hn. eauto.
  - now elim Hp.
  - unfold NorbitsProvider.search_string. run. rewrite (Hauth eq_refl).
    match goal with
    | |- context [get_url_json ?rq (sess st)] =>
        pose proof (Hjson rq (sess st)) as Hn; destruct (get_url_json rq (sess st)) as [j w]
    end.
    cbn in Hn. rewrite Hn. cbn. eauto.
Qed.


Lemma norbits_check_auth_set cfg :
  ~ missing_credentials cfg -> NorbitsProvider._check_auth cfg = Ok true.
Proof.
  unfold missing_credentials, NorbitsProvider._check_auth. intros Hm.
  destruct (str_truthy (username cfg)); [|elim Hm; now left].
  destruct (str_truthy (passkey cfg)); [reflexivity | elim Hm; now right].
Qed.

Lemma unreachable_loop p cfg search_strings st :
  unreachable ->
  (p = Norbits -> ~ missing_credentials cfg) ->
  p <> Ncore ->
  fst (mode_loop (provider_body p cfg) search_strings [] st) = Ok [].
Proof.
  intros Hu Hauth Hp.
  destruct (mode_loop_inert (provider_body p cfg) (fun _ => True) search_strings) with (st := st)
    as (st' & -> & _); [|exact I|reflexivity].
  intros mode s st0 _.
  destruct (unreachable_body p cfg Hu) with (mode := mode) (s := s) (st := st0)
    as (f & st1 & Hb & Hf); auto.
  - intros Hn. apply norbits_check_auth_set. auto.
  - eauto.
Qed.

(** X8. When the sites do not answer (every fetch brings nothing), every
    provider's [search] returns the empty list and raises nothing; for
    Norbits, given its credentials are set. *)
Theorem unreachable_sites_no_results p cfg search_strings st :
  unreachable ->
  (p = Norbits -> ~ missing_credentials cfg) ->
  fst (provider_search p cfg search_strings st) = Ok [].
Proof.
  intros Hu Hauth. pose proof Hu as [Htext _].
  destruct p; cbn [provider_search].
  - unfold ABNormalProvider.search. unfold bind at 1.
    unfold ABNormalProvider.login. run.
    destruct (existsb _ _).
    + cbn [negb]. apply (unreachable_loop ABNormal); auto. discriminate.
    + match goal with
      | |- context [get_url_text ?rq (sess st)] =>
          pose proof (Htext rq (sess st)) as Hn; destruct (get_url_text rq (sess st)) as [data w]
      end.
      cbn in Hn. rewrite Hn. reflexivity.
  - unfold IPTorrentsProvider.search. unfold bind at 1.
    unfold IPTorrentsProvider.login. run.
    destruct (_ && _).
    + cbn [negb]. apply (unreachable_loop IPTorrents); auto. discriminate.
    + destruct (str_truthy (cookies cfg)).
      * destruct (add_cookies_from_ui cfg (sess st)) as [[[|] status] w]; cbn [fst negb];
          [|reflexivity].
        destruct (_ && _); [reflexivity|]. cbn [sess calls].
        match goal with
        | |- context [get_url_text ?rq ?w0] =>
            pose proof (Htext rq w0) as Hn; destruct (get_url_text rq w0) as [data w1]
        end.
        cbn in Hn. rewrite Hn. reflexivity.
      * cbn [negb]. destruct (_ && _); [reflexivity|].
        match goal with
        | |- context [get_url_text ?rq ?w0] =>
            pose proof (Htext rq w0) as Hn; destruct (get_url_text rq w0) as [data w1]
        end.
        cbn in Hn. rewrite Hn. reflexivity.
  - unfold NcoreProvider.search. unfold bind at 1.
    unfold NcoreProvider.login. run.
    match goal with
    | |- context [get_url_text ?rq (sess st)] =>
        pose proof (Htext rq (sess st)) as Hn; destruct (get_url_text rq (sess st)) as [data w]
    end.
    cbn in Hn. rewrite Hn. reflexivity.
  - unfold NorbitsProvider.search. apply (unreachable_loop Norbits); auto. discriminate.
Qed.

End Unreachable.

(** ** Responses *)

Lemma fold_left_appends {A} (f : list item -> A -> list item) (g : A -> list item) :
  (forall acc a, f acc a = acc ++ g a) ->
  forall l acc, fold_left f l acc = acc ++ flat_map g l.
Proof.
  intros Hf. induction l as [|a l IH]; intros acc; cbn.
  - now rewrite app_nil_r.
  - now rewrite IH, Hf, <- app_assoc.
Qed.

Section Composition.
Context {T : Transport} {L : Library} {H : Helpers}.

Lemma abnormal_add_row_appends cfg labels acc row :
  ABNormalProvider.add_row cfg labels acc row
  = acc ++ ABNormalProvider.add_row cfg labels [] row.
Proof.
  unfold ABNormalProvider.add_row.
  destruct (_ <? _)%nat; [now rewrite app_nil_r|].
  destruct (ABNormalProvider.parse_row _ _ _) as [[d|]|e]; cbn; now rewrite ?app_nil_r.
Qed.

Lemma abnormal_parse_appends cfg data items :
  ABNormalProvider.parse cfg data items = items ++ ABNormalProvider.parse cfg data [].
Proof.
  unfold ABNormalProvider.parse.
  destruct (torrent_table _) as [[|header [|row rows]]|]; try now rewrite app_nil_r.
  rewrite (fold_left_appends _ _ (abnormal_add_row_appends cfg _) _ items).
  now rewrite (fold_left_appends _ _ (abnormal_add_row_appends cfg _) _ []).
Qed.

Lemma iptorrents_rows_append cfg search_url rows :
  forall items,
    IPTorrentsProvider.parse_rows cfg search_url rows items
    = items ++ IPTorrentsProvider.parse_rows cfg search_url rows [].
Proof.
  induction rows as [|row rows IH]; intros items; cbn [IPTorrentsProvider.parse_rows].
  - now rewrite app_nil_r.
  - destruct (IPTorrentsProvider.read_row search_url row) as [r|e].
    + destruct (IPTorrentsProvider.emit cfg r) as [d|]; [|apply IH].
      rewrite (IH (items ++ [d])), (IH ([] ++ [d])). cbn. now rewrite <- app_assoc.
    + destruct (IPTorrentsProvider.row_except e); [apply IH | now rewrite app_nil_r].
Qed.

Lemma iptorrents_parse_appends cfg search_url data items :
  IPTorrentsProvider.parse cfg search_url data items
  = items ++ IPTorrentsProvider.parse cfg search_url data [].
Proof.
  unfold IPTorrentsProvider.parse.
  destruct (no_torrents_found _); [now rewrite app_nil_r|].
  destruct (torrents_table _) as [[|header [|row rows]]|]; try now rewrite app_nil_r.
  apply iptorrents_rows_append.
Qed.

Lemma ncore_add_row_appends cfg acc row :
  NcoreProvider.add_row cfg acc row = acc ++ NcoreProvider.add_row cfg [] row.
Proof.
  unfold NcoreProvider.add_row.
  destruct (NcoreProvider.parse_row cfg row) as [[d|]|e]; cbn; now rewrite ?app_nil_r.
Qed.

Lemma ncore_parse_appends cfg data items :
  NcoreProvider.parse cfg data items
  = rbind (NcoreProvider.parse cfg data []) (fun new => Ok (items ++ new)).
Proof.
  unfold NcoreProvider.parse.
  destruct data as [text|]; [|reflexivity].
  destruct (json_loads text) as [parsed_json|]; [|cbn; now rewrite app_nil_r].
  destruct parsed_json; try (cbn; now rewrite app_nil_r).
  destruct (py_getitem (VDict d) "total_results") as [t|]; [|reflexivity]. cbn [rbind].
  destruct (negb (truthy t)); [cbn; now rewrite app_nil_r|].
  destruct (py_getitem (VDict d) "results") as [r|]; [|reflexivity]. cbn [rbind].
  destruct (py_iter r) as [rows|]; [|reflexivity]. cbn [rbind].
  rewrite (fold_left_appends _ _ (ncore_add_row_appends cfg) _ items).
  now rewrite (fold_left_appends _ _ (ncore_add_row_appends cfg) _ []).
Qed.

Lemma norbits_rows_append cfg rows :
  forall items,
    NorbitsProvider.parse_rows cfg rows items
    = rbind (NorbitsProvider.parse_rows cfg rows []) (fun new => Ok (items ++ new)).
Proof.
  induction rows as [|row rows IH]; intros items; cbn [NorbitsProvider.parse_rows].
  - cbn. now rewrite app_nil_r.
  - destruct (NorbitsProvider.parse_row cfg row) as [[d|]|e]; cbn [rbind].
    + rewrite (IH (items ++ [d])), (IH ([] ++ [d])).
      destruct (NorbitsProvider.parse_rows cfg rows []) as [new|]; cbn; [|reflexivity].
      now rewrite <- app_assoc.
    + apply IH.
    + reflexivity.
Qed.

Lemma norbits_parse_appends cfg parsed_json items :
  NorbitsProvider.parse cfg parsed_json items
  = rbind (NorbitsProvider.parse cfg parsed_json []) (fun new => Ok (items ++ new)).
Proof.
  unfold NorbitsProvider.parse.
  destruct (NorbitsProvider._check_auth_from_data parsed_json) as [[|]|]; cbn [rbind];
    [| cbn; now rewrite app_nil_r | reflexivity].
  destruct (py_get parsed_json "data" _) as [json_items|]; [|reflexivity]. cbn [rbind].
  destruct (py_get json_items "torrents" _) as [torrents|]; [|reflexivity]. cbn [rbind].
  destruct (py_iter torrents) as [rows|]; [|reflexivity]. cbn [rbind].
  apply norbits_rows_append.
Qed.

(** X9. What a response adds to the items of a mode does not depend on the
    items already collected, and these stay in front, in their order: the
    parse of a response onto [items] is [items] followed by its parse onto
    the empty list (or the same exception, for Ncore and Norbits). *)
Theorem pages_append :
  (forall cfg data items,
      ABNormalProvider.parse cfg data items = items ++ ABNormalProvider.parse cfg data [])
  /\ (forall cfg search_url data items,
         IPTorrentsProvider.parse cfg search_url data items
         = items ++ IPTorrentsProvider.parse cfg search_url data [])
  /\ (forall cfg data items,
         NcoreProvider.parse cfg data items
         = rbind (NcoreProvider.parse cfg data []) (fun new => Ok (items ++ new)))
  /\ (forall cfg parsed_json items,
         NorbitsProvider.parse cfg parsed_json items
         = rbind (NorbitsProvider.parse cfg parsed_json []) (fun new => Ok (items ++ new))).
Proof.
  repeat split.
  - apply abnormal_parse_appends.
  - apply iptorrents_parse_appends.
  - apply ncore_parse_appends.
  - apply norbits_parse_appends.
Qed.

Lemma ncore_parse_raise_cases cfg data items e :
  NcoreProvider.parse cfg data items = Raise e ->
  (data = None /\ e = TypeError)
  \/ exists text d,
       data = Some text /\ json_loads text = Some (VDict d)
       /\ ((dict_find "total_results" d = None /\ e = KeyError)
           \/ (dict_find "results" d = None /\ e = KeyError)
           \/ (exists r, dict_find "results" d = Some r
                         /\ py_iter r = Raise TypeError /\ e = TypeError)).
Proof.
  unfold NcoreProvider.parse. intros Hrun.
  destruct data as [text|]; [|left; now inversion Hrun].
  right. destruct (json_loads text) as [parsed_json|] eqn:Ej; [|discriminate].
  destruct parsed_json; try discriminate.
  exists text, d. split; [reflexivity|]. split; [exact Ej|].
  cbn [py_getitem] in Hrun.
  destruct (dict_find "total_results" d) as [t|]; cbn [rbind] in Hrun;
    [|left; now inversion Hrun].
  destruct (negb (truthy t)); [discriminate|].
  destruct (dict_find "results" d) as [r|]; cbn [rbind] in Hrun;
    [|right; left; now inversion Hrun].
  right. right. exists r. split; [reflexivity|].
  destruct (py_iter r) as [rows|e'] eqn:Ei; cbn [rbind] in Hrun; [discriminate|].
  inversion Hrun; subst. destruct r; cbn in Ei; inversion Ei; auto.
Qed.

(** X11. Ncore's parse of a response raises in three cases only: the
    fetch brought [None] ([TypeError]); the response is a mapping without
    [total_results], or with a true [total_results] and without [results]
    ([KeyError]); or its [results] cannot be iterated ([TypeError]).  No row
    makes it raise. *)
Theorem ncore_parse_raises cfg data items e :
  NcoreProvider.parse cfg data items = Raise e ->
  (data = None /\ e = TypeError)
  \/ exists text d,
       data = Some text /\ json_loads text = Some (VDict d)
       /\ ((dict_find "total_results" d = None /\ e = KeyError)
           \/ (dict_find "results" d = None /\ e = KeyError)
           \/ (exists r, dict_find "results" d = Some r
                         /\ py_iter r = Raise TypeError /\ e = TypeError)).
Proof.
  apply ncore_parse_raise_cases.
Qed.

End Composition.

(** [re.sub(r'[()]', '', s)] *)
Lemma strip_parens_clean s :
  has_char "(" (strip_parens s) = false /\ has_char ")" (strip_parens s) = false.
Proof.
  induction s as [|c s [IH1 IH2]]; cbn [strip_parens has_char]; [auto|].
  destruct (Ascii.eqb c "(") eqn:E1; cbn [orb]; [auto|].
  destruct (Ascii.eqb c ")") eqn:E2; cbn [orb]; [auto|].
  cbn [has_char].
  rewrite (Ascii.eqb_sym "(" c), E1, IH1, (Ascii.eqb_sym ")" c), E2, IH2. auto.
Qed.

Lemma strip_parens_id s :
  has_char "(" s = false -> has_char ")" s = false -> strip_parens s = s.
Proof.
  induction s as [|c s IH]; cbn [strip_parens has_char]; [reflexivity|].
  intros H1 H2. apply orb_false_iff in H1, H2. destruct H1 as [E1 H1], H2 as [E2 H2].
  rewrite (Ascii.eqb_sym c "("), E1, (Ascii.eqb_sym c ")"), E2. cbn [orb].
  now rewrite IH.
Qed.

(** ** Columns *)

Lemma cell_by_label_find label labels :
  forall cells,
    List.length cells = List.length labels ->
    cell_by_label labels cells label
    = match find (keyed label) (combine labels cells) with
      | Some p => Ok (snd p)
      | None => Raise ValueError
      end.
Proof.
  unfold cell_by_label, index_of, item_at.
  induction labels as [|y labels IH]; intros cells Hlen.
  - reflexivity.
  - destruct cells as [|c cells]; [discriminate|].
    cbn [list_index combine find keyed fst]. unfold keyed at 1. cbn [fst].
    destruct (String.eqb label y); [reflexivity|].
    specialize (IH cells ltac:(now inversion Hlen)).
    destruct (list_index label labels) as [n|]; cbn [rbind nth_error] in *; exact IH.
Qed.

Lemma keys_unique (l : list (string * td)) p q :
  NoDup (map fst l) -> In p l -> In q l -> fst p = fst q -> p = q.
Proof.
  induction l as [|x l IH]; intros Hnd Hp Hq E; [destruct Hp|].
  inversion Hnd as [|? ? Hx Hl]; subst.
  destruct Hp as [-> | Hp], Hq as [-> | Hq]; auto.
  - elim Hx. rewrite E. now apply in_map.
  - elim Hx. rewrite <- E. now apply in_map.
Qed.

Lemma find_keyed_perm label (l l' : list (string * td)) :
  NoDup (map fst l) -> Permutation l l' -> find (keyed label) l = find (keyed label) l'.
Proof.
  intros Hnd Hp.
  assert (Hnd' : NoDup (map fst l')).
  { eapply Permutation_NoDup; [apply Permutation_map, Hp | exact Hnd]. }
  destruct (find (keyed label) l) as [p|] eqn:E1, (find (keyed label) l') as [q|] eqn:E2.
  - f_equal. apply find_some in E1, E2. destruct E1 as [Hp1 K1], E2 as [Hq2 K2].
    apply (keys_unique l); auto.
    + eapply Permutation_in; [apply Permutation_sym, Hp | exact Hq2].
    + unfold keyed in *. apply String.eqb_eq in K1, K2. congruence.
  - apply find_some in E1. destruct E1 as [Hp1 K1].
    apply (Permutation_in _ Hp) in Hp1.
    rewrite (find_none _ _ E2 _ Hp1) in K1. discriminate.
  - apply find_some in E2. destruct E2 as [Hq2 K2].
    apply (Permutation_in _ (Permutation_sym Hp)) in Hq2.
    rewrite (find_none _ _ E1 _ Hq2) in K2. discriminate.
  - reflexivity.
Qed.

Lemma map_fst_combine (labels : list string) :
  forall cells : list td,
    List.length cells = List.length labels -> map fst (combine labels cells) = labels.
Proof.
  induction labels as [|y labels IH]; intros [|c cells] Hlen; try discriminate; cbn.
  - reflexivity.
  - f_equal. apply IH. now inversion Hlen.
Qed.

Lemma existsb_perm (f : string -> bool) l l' :
  Permutation l l' -> existsb f l = existsb f l'.
Proof.
  intros Hp. destruct (existsb f l) eqn:E1, (existsb f l') eqn:E2; try reflexivity.
  - apply existsb_exists in E1. destruct E1 as (x & Hx & Hf).
    assert (existsb f l' = true) by (apply existsb_exists; exists x; split;
      [eapply Permutation_in; eauto | exact Hf]). congruence.
  - apply existsb_exists in E2. destruct E2 as (x & Hx & Hf).
    assert (existsb f l = true) by (apply existsb_exists; exists x; split;
      [eapply Permutation_in; [apply Permutation_sym|]; eauto | exact Hf]). congruence.
Qed.

Section Columns.
Context {T : Transport} {L : Library} {H : Helpers}.

(** X10. ABNormal reads a row by the labels of the header: two rows that
    pair the same cells with the same labels, the columns in any order, are
    parsed alike, as long as no label occurs twice. *)
Theorem abnormal_column_order cfg labels cells labels' cells' :
  NoDup labels ->
  List.length cells = List.length labels ->
  List.length cells' = List.length labels' ->
  Permutation (combine labels cells) (combine labels' cells') ->
  ABNormalProvider.parse_row cfg labels cells = ABNormalProvider.parse_row cfg labels' cells'.
Proof.
  intros Hnd Hlen Hlen' Hp.
  assert (Hsame : forall label,
             cell_by_label labels cells label = cell_by_label labels' cells' label).
  { intros label. rewrite !cell_by_label_find by assumption.
    rewrite (find_keyed_perm label (combine labels cells) (combine labels' cells'));
      [reflexivity | now rewrite map_fst_combine | exact Hp]. }
  assert (Hlabels : Permutation labels labels').
  { rewrite <- (map_fst_combine labels cells Hlen), <- (map_fst_combine labels' cells' Hlen').
    now apply Permutation_map. }
  unfold ABNormalProvider.parse_row.
  rewrite !lookup_bind, Hsame.
  destruct (cell_by_label labels' cells' "Release") as [c1|]; cbn [rbind]; [|reflexivity].
  rewrite !lookup_bind, Hsame.
  destruct (cell_by_label labels' cells' "DL") as [c2|]; cbn [rbind]; [|reflexivity].
  destruct (ABNormalProvider.tooltip_href c2) as [href|]; cbn [rbind]; [|reflexivity].
  cbv zeta. destruct (negb _); [reflexivity|].
  rewrite !lookup_bind, Hsame.
  destruct (cell_by_label labels' cells' "S") as [c3|]; cbn [rbind]; [|reflexivity].
  rewrite !lookup_bind, Hsame.
  destruct (cell_by_label labels' cells' "L") as [c4|]; cbn [rbind]; [|reflexivity].
  destruct (_ || _); [reflexivity|].
  unfold ABNormalProvider.size_index.
  rewrite (existsb_perm _ _ _ Hlabels).
  destruct (existsb (String.eqb "Size") labels').
  - rewrite !lookup_bind, Hsame. reflexivity.
  - rewrite !lookup_bind, Hsame. reflexivity.
Qed.

End Columns.

(** ** Kinds of fields *)

Section Shapes.
Context {T : Transport} {L : Library} {H : Helpers}.
Variable G : item -> Prop.

Lemma abnormal_rows_keep cfg :
  (forall labels cells d, ABNormalProvider.parse_row cfg labels cells = Ok (Some d) -> G d) ->
  forall mode s items st items' st',
    Forall G items ->
    ABNormalProvider.search_string cfg mode s items st = (Ok (Next items'), st') ->
    Forall G items'.
Proof.
  intros Hrow mode s items st items' st' HG Hrun.
  unfold ABNormalProvider.search_string in Hrun. run_in Hrun.
  destruct (get_url_text _ (sess st)) as [data w].
  destruct (no_body data); inversion Hrun; subst; clear Hrun; [exact HG|].
  unfold ABNormalProvider.parse.
  destruct (torrent_table _) as [[|header [|row rows]]|]; try exact HG.
  apply fold_left_keeps; [|exact HG].
  intros acc r Hacc. unfold ABNormalProvider.add_row.
  destruct (_ <? _)%nat; [exact Hacc|].
  destruct (ABNormalProvider.parse_row _ _ _) as [[d|]|e] eqn:Er; try exact Hacc.
  apply Forall_snoc; [exact Hacc|]. eapply Hrow; eauto.
Qed.

Lemma iptorrents_emitted_keep cfg :
  (forall search_url row r d,
      IPTorrentsProvider.read_row search_url row = Ok r ->
      IPTorrentsProvider.emit cfg r = Some d -> G d) ->
  forall mode s items st items' st',
    Forall G items ->
    IPTorrentsProvider.search_string cfg mode s items st = (Ok (Next items'), st') ->
    Forall G items'.
Proof.
  intros Hrow.
  assert (Hrows : forall search_url rows items,
             Forall G items ->
             Forall G (IPTorrentsProvider.parse_rows cfg search_url rows items)).
  { intros search_url rows. induction rows as [|row rows IH]; intros items HG;
      cbn [IPTorrentsProvider.parse_rows]; [exact HG|].
    destruct (IPTorrentsProvider.read_row search_url row) as [r|e] eqn:Er.
    - destruct (IPTorrentsProvider.emit cfg r) as [d|] eqn:Ee; [|now apply IH].
      apply IH, Forall_snoc; [exact HG | eapply Hrow; eauto].
    - destruct (IPTorrentsProvider.row_except e); [now apply IH | exact HG]. }
  assert (Hparse : forall search_url data items,
             Forall G items -> Forall G (IPTorrentsProvider.parse cfg search_url data items)).
  { intros search_url data items HG. unfold IPTorrentsProvider.parse.
    destruct (no_torrents_found _); [exact HG|].
    destruct (torrents_table _) as [[|header [|row rows]]|]; try exact HG.
    now apply Hrows. }
  intros mode s items st items' st' HG Hrun.
  unfold IPTorrentsProvider.search_string in Hrun. run_in Hrun.
  destruct (_ && _); [discriminate|].
  destruct (str_truthy (custom_url cfg)).
  - destruct (item_at _ _) as [path|e]; [|discriminate].
    destruct (get_url_text _ (sess st)) as [data w].
    destruct (no_body data); inversion Hrun; subst; clear Hrun; [exact HG | now apply Hparse].
  - destruct (get_url_text _ (sess st)) as [data w].
    destruct (no_body data); inversion Hrun; subst; clear Hrun; [exact HG | now apply Hparse].
Qed.

Lemma ncore_rows_keep cfg :
  (forall row d, NcoreProvider.parse_row cfg row = Ok (Some d) -> G d) ->
  forall mode s items st items' st',
    Forall G items ->
    NcoreProvider.search_string cfg mode s items st = (Ok (Next items'), st') ->
    Forall G items'.
Proof.
  intros Hrow mode s items st items' st' HG Hrun.
  unfold NcoreProvider.search_string in Hrun. run_in Hrun.
  destruct (get_url_text _ (sess st)) as [data w].
  destruct (NcoreProvider.parse cfg data items) as [items1|e] eqn:Ep; [|discriminate].
  inversion Hrun; subst; clear Hrun.
  unfold NcoreProvider.parse in Ep.
  destruct data as [text|]; [|discriminate].
  destruct (json_loads text) as [parsed_json|]; [|now inversion Ep; subst].
  destruct parsed_json; try (now inversion Ep; subst).
  split_res Ep; inversion Ep; subst; clear Ep; try exact HG.
  apply fold_left_keeps; [|exact HG].
  intros acc r Hacc. unfold NcoreProvider.add_row.
  destruct (NcoreProvider.parse_row cfg r) as [[it|]|] eqn:Er; try exact Hacc.
  apply Forall_snoc; [exact Hacc|]. eapply Hrow; eauto.
Qed.

Lemma norbits_rows_keep_any cfg :
  (forall row d, NorbitsProvider.parse_row cfg row = Ok (Some d) -> G d) ->
  forall mode s items st items' st',
    Forall G items ->
    NorbitsProvider.search_string cfg mode s items st = (Ok (Next items'), st') ->
    Forall G items'.
Proof.
  intros Hrow.
  assert (Hrows : forall rows items items',
             Forall G items -> NorbitsProvider.parse_rows cfg rows items = Ok items' ->
             Forall G items').
  { induction rows as [|row rows IH]; intros items items' HG Hrun;
      cbn [NorbitsProvider.parse_rows] in Hrun.
    - now inversion Hrun; subst.
    - destruct (NorbitsProvider.parse_row cfg row) as [[d|]|e] eqn:Er;
        cbn [rbind] in Hrun; try discriminate.
      + eapply IH; [|exact Hrun]. apply Forall_snoc; [exact HG | eapply Hrow; eauto].
      + eapply IH; eauto. }
  intros mode s items st items' st' HG Hrun.
  unfold NorbitsProvider.search_string in Hrun. run_in Hrun.
  destruct (NorbitsProvider._check_auth cfg); [|discriminate].
  destruct (get_url_json _ (sess st)) as [parsed_json w].
  destruct (negb (truthy parsed_json)); [discriminate|].
  destruct (NorbitsProvider.parse cfg parsed_json items) as [items1|e] eqn:Ep;
    [|discriminate].
  inversion Hrun; subst; clear Hrun.
  unfold NorbitsProvider.parse in Ep.
  destruct (NorbitsProvider._check_auth_from_data parsed_json) as [[|]|];
    cbn [rbind] in Ep; try discriminate.
  - destruct (py_get parsed_json "data" _) as [json_items|]; cbn [rbind] in Ep;
      [|discriminate].
    destruct (py_get json_items "torrents" _) as [torrents|]; cbn [rbind] in Ep;
      [|discriminate].
    destruct (py_iter torrents) as [rows|]; cbn [rbind] in Ep; [|discriminate].
    eapply Hrows; eauto.
  - now inversion Ep; subst.
Qed.

End Shapes.

Section ShapeFacts.
Context {T : Transport} {L : Library} {H : Helpers}.

Lemma shape_body_keeps p cfg mode s items st items' st' :
  Forall (record_shape p cfg) items ->
  provider_body p cfg mode s items st = (Ok (Next items'), st') ->
  Forall (record_shape p cfg) items'.
Proof.
  destruct p; cbn [provider_body].
  - apply abnormal_rows_keep. intros labels cells d Hrow.
    unfold ABNormalProvider.parse_row in Hrow. split_res Hrow.
    inversion Hrow; subst d. cbn. split; [|reflexivity]. repeat eexists.
  - apply iptorrents_emitted_keep. intros search_url row r d _ Hemit.
    unfold IPTorrentsProvider.emit in Hemit. split_res Hemit.
    inversion Hemit; subst d. cbn. split; [|reflexivity]. repeat eexists.
  - apply ncore_rows_keep. intros row d Hrow.
    unfold NcoreProvider.parse_row in Hrow.
    destruct (py_pop row "release_name"); [|discriminate]. cbn [rbind] in Hrow.
    destruct (py_pop row "download_url"); [|discriminate]. cbn [rbind] in Hrow.
    destruct (negb _); [discriminate|].
    destruct (py_pop row "seeders"); [|discriminate]. cbn [rbind] in Hrow.
    destruct (py_pop row "leechers"); [|discriminate]. cbn [rbind] in Hrow.
    destruct (py_lt _ _) as [[|]|]; try discriminate. cbn [rbind] in Hrow.
    destruct (py_lt _ _) as [[|]|]; try discriminate. cbn [rbind] in Hrow.
    destruct (py_pop_default _ _ _); [|discriminate]. cbn [rbind] in Hrow.
    inversion Hrow; subst d. reflexivity.
  - apply norbits_rows_keep_any. intros row d Hrow.
    unfold NorbitsProvider.parse_row in Hrow. split_res Hrow.
    inversion Hrow; subst d. cbn. repeat eexists.
Qed.

(** X12. The fields of the records [search] returns have fixed kinds.
    ABNormal and IPTorrents: title and link are strings, seeders and
    leechers integers, the hash is empty.  Ncore: the hash is empty.
    Norbits: the link is the download address followed by the encoded id and
    passkey, seeders and leechers are integers. *)
Theorem search_record_shapes p cfg search_strings st rs st' :
  provider_search p cfg search_strings st = (Ok rs, st') ->
  Forall (record_shape p cfg) rs.
Proof.
  intros Hrun. apply provider_search_run in Hrun.
  destruct Hrun as [[-> _] | (st1 & Hloop & _)]; [constructor|].
  eapply mode_loop_keeps; [|constructor|exact Hloop].
  intros mode s items st2 items' st2'. apply shape_body_keeps.
Qed.

End ShapeFacts.

(** ** Exceptions *)

Section LoopRaises.
Context {T : Transport} {H : Helpers}.
Variable body : string -> string -> list item -> M (flow (list item)).
Variable S : exn -> Prop.
Hypothesis body_raises :
  forall mode s items st e st', body mode s items st = (Raise e, st') -> S e.

Lemma string_loop_raises mode strings :
  forall items st e st',
    string_loop (body mode) strings items st = (Raise e, st') -> S e.
Proof.
  induction strings as [|s strings IH]; intros items st e st' Hrun;
    cbn [string_loop] in Hrun; run_in Hrun; [discriminate|].
  destruct (body mode s items st) as [[[items1|]|e1] st1] eqn:Eb.
  - eapply IH; eauto.
  - discriminate.
  - inversion Hrun; subst. eapply body_raises; eauto.
Qed.

Lemma mode_loop_raises search_strings :
  forall results st e st',
    mode_loop body search_strings results st = (Raise e, st') -> S e.
Proof.
  induction search_strings as [|[mode strings] rest IH]; intros results st e st' Hrun;
    cbn [mode_loop] in Hrun; run_in Hrun; [discriminate|].
  destruct (string_loop (body mode) strings [] st) as [[[items|]|e1] st1] eqn:El.
  - eapply IH; eauto.
  - discriminate.
  - inversion Hrun; subst. eapply string_loop_raises; eauto.
Qed.

End LoopRaises.

Section Raises.
Context {T : Transport} {L : Library} {H : Helpers}.

Lemma py_pop_default_lookup row k d e : py_pop_default row k d = Raise e -> lookup_error e.
Proof.
  unfold lookup_error. destruct row; cbn; intros E; inversion E; auto.
Qed.

Lemma py_get_lookup v k d e : py_get v k d = Raise e -> lookup_error e.
Proof.
  unfold lookup_error. destruct v; cbn; intros E; inversion E; auto.
Qed.

Lemma py_iter_lookup v e : py_iter v = Raise e -> lookup_error e.
Proof.
  unfold lookup_error. destruct v; cbn; intros E; inversion E; auto.
Qed.

Lemma py_contains_lookup k v e : py_contains k v = Raise e -> lookup_error e.
Proof.
  unfold lookup_error. destruct v; cbn; intros E; inversion E; auto.
Qed.

Ltac raised_lookup Hrun :=
  repeat (cbn [rbind] in Hrun;
          match type of Hrun with
          | rbind ?r _ = Raise _ =>
              let E := fresh "E" in
              destruct r eqn:E; cbn [rbind] in Hrun;
              [| inversion Hrun; subst;
                 eauto using py_pop_default_lookup, py_get_lookup, py_iter_lookup,
                   py_contains_lookup]
          | (if ?b then _ else _) = Raise _ => destruct b; try discriminate Hrun
          end).

Lemma norbits_row_lookup cfg row e :
  NorbitsProvider.parse_row cfg row = Raise e -> lookup_error e.
Proof.
  unfold NorbitsProvider.parse_row. intros Hrow. raised_lookup Hrow.
  all: discriminate Hrow.
Qed.

Lemma norbits_rows_lookup cfg rows :
  forall items e, NorbitsProvider.parse_rows cfg rows items = Raise e -> lookup_error e.
Proof.
  induction rows as [|row rows IH]; intros items e Hrun;
    cbn [NorbitsProvider.parse_rows] in Hrun; [discriminate|].
  destruct (NorbitsProvider.parse_row cfg row) as [[d|]|e'] eqn:Er; cbn [rbind] in Hrun.
  - eapply IH; eauto.
  - eapply IH; eauto.
  - inversion Hrun; subst. eapply norbits_row_lookup; eauto.
Qed.

Lemma check_auth_from_data_lookup parsed_json e :
  NorbitsProvider._check_auth_from_data parsed_json = Raise e -> lookup_error e.
Proof.
  unfold NorbitsProvider._check_auth_from_data. intros Hrun.
  destruct (py_contains "status" parsed_json) as [[|]|e1] eqn:E1; cbn [rbind] in Hrun;
    try discriminate.
  - destruct (py_contains "message" parsed_json) as [[|]|e2] eqn:E2; cbn [rbind] in Hrun;
      try discriminate.
    + destruct (py_get parsed_json "status" VNone) as [v|e3] eqn:E3; cbn [rbind] in Hrun;
        [discriminate|].
      inversion Hrun; subst. eapply py_get_lookup; eauto.
    + inversion Hrun; subst. eapply py_contains_lookup; eauto.
  - inversion Hrun; subst. eapply py_contains_lookup; eauto.
Qed.

Lemma norbits_parse_lookup cfg parsed_json items e :
  NorbitsProvider.parse cfg parsed_json items = Raise e -> lookup_error e.
Proof.
  unfold NorbitsProvider.parse. intros Hrun.
  destruct (NorbitsProvider._check_auth_from_data parsed_json) as [[|]|e1] eqn:E1;
    cbn [rbind] in Hrun; try discriminate.
  - raised_lookup Hrun. eapply norbits_rows_lookup; eauto.
  - inversion Hrun; subst. eapply check_auth_from_data_lookup; eauto.
Qed.

Lemma norbits_body_raises cfg mode s items st e st' :
  NorbitsProvider.search_string cfg mode s items st = (Raise e, st') ->
  may_raise Norbits e = true.
Proof.
  unfold NorbitsProvider.search_string. run.
  unfold NorbitsProvider._check_auth.
  destruct (_ || _); [intros E; now inversion E|].
  destruct (get_url_json _ (sess st)) as [parsed_json w].
  destruct (negb (truthy parsed_json)); [discriminate|].
  destruct (NorbitsProvider.parse cfg parsed_json items) as [items1|e1] eqn:Ep;
    [discriminate|].
  intros E. inversion E; subst. apply norbits_parse_lookup in Ep.
  destruct Ep as [-> | ->]; reflexivity.
Qed.


Lemma ncore_login_returns cfg st :
  exists ok st', NcoreProvider.login cfg st = (Ok ok, st').
Proof.
  unfold NcoreProvider.login. run.
  destruct (get_url_text _ (sess st)) as [response w].
  destruct (no_body response); [eexists; eexists; reflexivity|].
  destruct (re_search _ _); eexists; eexists; reflexivity.
Qed.

End Raises.

Section SearchRaises.
Context {T : Transport} {L : Library} {H : Helpers}.

Lemma provider_body_raises p cfg mode s items st e st' :
  provider_body p cfg mode s items st = (Raise e, st') -> may_raise p e = true.
Proof.
  destruct p; cbn [provider_body]; intros Hrun.
  - destruct (abnormal_body_fetches cfg mode s items st) as (items' & st1 & Hb & _).
    rewrite Hb in Hrun. discriminate.
  - destruct (iptorrents_body_returns cfg mode s items st) as (f & st1 & Hb).
    rewrite Hb in Hrun. discriminate.
  - unfold NcoreProvider.search_string in Hrun. run_in Hrun.
    destruct (get_url_text _ (sess st)) as [data w].
    destruct (NcoreProvider.parse cfg data items) as [items1|e1] eqn:Ep; [discriminate|].
    inversion Hrun; subst. apply ncore_parse_raise_cases in Ep.
    destruct Ep as [[_ ->] | (text & d & _ & _ & [[_ ->] | [[_ ->] | (r & _ & _ & ->)]])];
      reflexivity.
  - eapply norbits_body_raises; eauto.
Qed.

(** X2. The exceptions that can leave [search], the helpers and libraries
    taken as returning: none for ABNormal; [AttributeError] for IPTorrents;
    [TypeError] and [KeyError] for Ncore; [AuthException], [TypeError] and
    [AttributeError] for Norbits. *)
Theorem search_exceptions p cfg search_strings st e st' :
  provider_search p cfg search_strings st = (Raise e, st') ->
  may_raise p e = true.
Proof.
  assert (Hloop : forall st1,
             mode_loop (provider_body p cfg) search_strings [] st1 = (Raise e, st') ->
             may_raise p e = true).
  { intros st1 Hrun1.
    eapply (mode_loop_raises (provider_body p cfg) (fun x => may_raise p x = true));
      [|exact Hrun1].
    intros mode s items st2 e2 st2'. apply provider_body_raises. }
  destruct p; cbn [provider_search];
    unfold ABNormalProvider.search, IPTorrentsProvider.search, NcoreProvider.search,
      NorbitsProvider.search; intros Hrun.
  - unfold bind at 1 in Hrun.
    destruct (abnormal_login_returns cfg st) as ([|] & st1 & Hl); rewrite Hl in Hrun;
      cbn [negb] in Hrun; [now apply (Hloop st1) | discriminate].
  - apply iptorrents_raise_is_login in Hrun. now destruct Hrun as [-> _].
  - unfold bind at 1 in Hrun.
    destruct (ncore_login_returns cfg st) as ([|] & st1 & Hl); rewrite Hl in Hrun;
      cbn [negb] in Hrun; [now apply (Hloop st1) | discriminate].
  - now apply (Hloop st).
Qed.

(** X13. The request ABNormal issues for a pair asks for descending order,
    by time for the mode RSS and by seeders for every other mode, and
    searches for the search string without its parentheses: the text sent
    has none, and is the search string itself when that has none. *)
Theorem abnormal_request_params mode s :
  param "way" (abnormal_request mode s) = Some "DESC"
  /\ param "order" (abnormal_request mode s)
     = Some (if String.eqb mode "RSS" then "Time" else "Seeders")
  /\ param "search" (abnormal_request mode s) = Some (strip_parens s)
  /\ has_char "(" (strip_parens s) = false
  /\ has_char ")" (strip_parens s) = false
  /\ (has_char "(" s = false -> has_char ")" s = false -> strip_parens s = s).
Proof.
  repeat split; try reflexivity.
  - apply strip_parens_clean.
  - apply strip_parens_clean.
  - apply strip_parens_id.
Qed.

End SearchRaises.

(** ** The migration of the qualities *)

Lemma pow2_bit k n : 0 <= k -> Z.testbit (Z.shiftl 1 k) n = (k =? n).
Proof.
  intros Hk. rewrite Z.shiftl_1_l. now apply Z.pow2_bits_eqb.
Qed.

Lemma flag_testbit r k : 0 <= k -> Add1080pAndRawHDQualities.flag r k = Z.testbit r k.
Proof.
  intros Hk. unfold Add1080pAndRawHDQualities.flag. destruct (Z.testbit r k) eqn:E.
  - apply negb_true_iff, Z.eqb_neq. intros H0.
    assert (Hb : Z.testbit (Z.land r (Z.shiftl 1 k)) k = true).
    { rewrite Z.land_spec, E, pow2_bit, Z.eqb_refl by lia. reflexivity. }
    rewrite H0, Z.bits_0 in Hb. discriminate.
  - apply negb_false_iff, Z.eqb_eq. apply Z.bits_inj'. intros n Hn.
    rewrite Z.land_spec, Z.bits_0, pow2_bit by lia.
    destruct (k =? n) eqn:Ek; [|apply andb_false_r].
    apply Z.eqb_eq in Ek. subst n. now rewrite E.
Qed.

(** One step of the migration moves a flag. *)
Lemma move_bit r a b n :
  0 <= a -> 0 <= b -> 0 <= n ->
  Z.testbit (if Add1080pAndRawHDQualities.flag r a
             then Z.lor (Z.land r (Z.lnot (Z.shiftl 1 a))) (Z.shiftl 1 b)
             else r) n
  = if Z.testbit r a then (Z.testbit r n && negb (a =? n)) || (b =? n) else Z.testbit r n.
Proof.
  intros Ha Hb Hn. rewrite flag_testbit by lia.
  destruct (Z.testbit r a); [|reflexivity].
  rewrite Z.lor_spec, Z.land_spec, Z.lnot_spec, !pow2_bit by lia. reflexivity.
Qed.

Ltac decide_eqb :=
  repeat match goal with
         | |- context [?a =? ?b] => destruct (Z.eqb_spec a b); try lia
         end.

Lemma update_quality_testbit q n :
  0 <= n ->
  Z.testbit (Add1080pAndRawHDQualities._update_quality q) n = migrated_bit q n.
Proof.
  intros Hn. unfold Add1080pAndRawHDQualities._update_quality, migrated_bit. cbv zeta.
  repeat rewrite move_bit by lia.
  destruct (Z.eq_dec n 8) as [->|N8]; [|destruct (Z.eq_dec n 7) as [->|N7];
    [|destruct (Z.eq_dec n 5) as [->|N5]; [|destruct (Z.eq_dec n 4) as [->|N4];
      [|destruct (Z.eq_dec n 3) as [->|N3]]]]].
  6: generalize (Z.testbit q n); intros bn.
  all: generalize (Z.testbit q 3) (Z.testbit q 4) (Z.testbit q 5) (Z.testbit q 7)
         (Z.testbit q 8); intros b3 b4 b5 b7 b8.
  all: decide_eqb.
  all: try destruct bn; destruct b3, b4, b5, b7, b8; reflexivity.
Qed.

(** X14. [_update_quality], bit by bit: the flag at bit 5 moves to bit 8,
    the flag at bit 4 to bit 7, the flag at bit 3 to bit 5; bits 3 and 4
    are clear afterwards; a flag already at bit 7 or 8 stays; every other
    bit is as it was. *)
Theorem update_quality_bits q n :
  0 <= n ->
  Z.testbit (Add1080pAndRawHDQualities._update_quality q) n = migrated_bit q n.
Proof.
  apply update_quality_testbit.
Qed.

Lemma update_quality_bit q n :
  0 <= n -> migrated_bit q n = Z.testbit (Add1080pAndRawHDQualities._update_quality q) n.
Proof.
  intros Hn. symmetry. now apply update_quality_testbit.
Qed.

(** X15. On the qualities of the old scheme (bits 6, 7 and 8 not in use)
    the migration loses nothing: two of them with the same migrated value
    are the same quality. *)
Theorem update_quality_injective q1 q2 :
  old_quality q1 -> old_quality q2 ->
  Add1080pAndRawHDQualities._update_quality q1
  = Add1080pAndRawHDQualities._update_quality q2 ->
  q1 = q2.
Proof.
  intros (A6 & A7 & A8) (B6 & B7 & B8) E.
  assert (Hb : forall n, 0 <= n -> migrated_bit q1 n = migrated_bit q2 n).
  { intros n Hn. rewrite !update_quality_bit by lia. now rewrite E. }
  assert (H8 : Z.testbit q1 8 || Z.testbit q1 5 = Z.testbit q2 8 || Z.testbit q2 5)
    by exact (Hb 8 ltac:(lia)).
  assert (H7 : Z.testbit q1 7 || Z.testbit q1 4 = Z.testbit q2 7 || Z.testbit q2 4)
    by exact (Hb 7 ltac:(lia)).
  assert (H5 : Z.testbit q1 3 = Z.testbit q2 3) by exact (Hb 5 ltac:(lia)).
  rewrite A8, B8 in H8. rewrite A7, B7 in H7. rewrite !orb_false_l in H8, H7.
  apply Z.bits_inj'. intros n Hn.
  destruct (Z.eq_dec n 8) as [->|N8]; [congruence|].
  destruct (Z.eq_dec n 7) as [->|N7]; [congruence|].
  destruct (Z.eq_dec n 6) as [->|N6]; [congruence|].
  destruct (Z.eq_dec n 5) as [->|N5]; [congruence|].
  destruct (Z.eq_dec n 4) as [->|N4]; [congruence|].
  destruct (Z.eq_dec n 3) as [->|N3]; [congruence|].
  generalize (Hb n Hn). unfold migrated_bit. decide_eqb. auto.
Qed.

Lemma update_quality_small q :
  (forall n, 16 <= n -> Z.testbit q n = false) ->
  forall n, 16 <= n -> Z.testbit (Add1080pAndRawHDQualities._update_quality q) n = false.
Proof.
  intros Hq n Hn. rewrite <- update_quality_bit by lia. unfold migrated_bit.
  decide_eqb. now apply Hq.
Qed.

Lemma low16_bits s n : 0 <= n -> Z.testbit (Z.land s 65535) n = Z.testbit s n && (n <? 16).
Proof.
  intros Hn. rewrite Z.land_spec. f_equal.
  change 65535 with (Z.ones 16).
  destruct (Z.ltb_spec n 16).
  - apply Z.ones_spec_low. lia.
  - apply Z.ones_spec_high. lia.
Qed.

(** X16. [_update_composite_qualities] migrates the two halves of a
    composite quality each on its own: the low 16 bits of the result are
    the migrated low 16 bits of the status, the bits above them the migrated
    bits 16 to 31, and nothing of the status above bit 31 is kept. *)
Theorem update_composite_halves status :
  Z.land (Add1080pAndRawHDQualities._update_composite_qualities status) 65535
  = Add1080pAndRawHDQualities._update_quality (Z.land status 65535)
  /\ Z.shiftr (Add1080pAndRawHDQualities._update_composite_qualities status) 16
     = Add1080pAndRawHDQualities._update_quality (Z.land (Z.shiftr status 16) 65535).
Proof.
  unfold Add1080pAndRawHDQualities._update_composite_qualities. cbv zeta.
  assert (Hbest : Z.shiftr (Z.land status (Z.shiftl 65535 16)) 16
                  = Z.land (Z.shiftr status 16) 65535).
  { apply Z.bits_inj'. intros n Hn.
    rewrite Z.shiftr_spec, !Z.land_spec, Z.shiftr_spec, Z.shiftl_spec by lia.
    now replace (n + 16 - 16) with n by lia. }
  rewrite Hbest.
  assert (Hlow : forall q n,
             16 <= n ->
             Z.testbit (Add1080pAndRawHDQualities._update_quality (Z.land q 65535)) n = false).
  { intros q. apply update_quality_small. intros n Hn.
    rewrite low16_bits by lia. destruct (Z.ltb_spec n 16); [lia|]. apply andb_false_r. }
  split; apply Z.bits_inj'; intros n Hn.
  - rewrite low16_bits, Z.lor_spec, Z.shiftl_spec by lia.
    destruct (Z.ltb_spec n 16).
    + rewrite (Z.testbit_neg_r _ (n - 16)) by lia. cbn. now rewrite andb_true_r.
    + rewrite andb_false_r. symmetry. apply Hlow. lia.
  - rewrite Z.shiftr_spec, Z.lor_spec, Z.shiftl_spec by lia.
    replace (n + 16 - 16) with n by lia.
    rewrite (Hlow status (n + 16)) by lia. apply orb_false_r.
Qed.

(** ** The Plex token *)

Section Plex.
Context {T : Transport}.

Lemma or_default a d :
  str_truthy (if str_truthy a then a else d) = str_truthy a || str_truthy d.
Proof.
  destruct (str_truthy a) eqn:E; [exact E | reflexivity].
Qed.

Lemma get_token_at_hand cfg username password plex_server_token n :
  token_known cfg plex_server_token n = true \/ can_sign_in cfg username password = false ->
  fst (PlexNotifier.get_token cfg username password plex_server_token n) = VBool true
  /\ PlexNotifier.net
       (snd (PlexNotifier.get_token cfg username password plex_server_token n))
     = PlexNotifier.net n.
Proof.
  unfold token_known, can_sign_in, PlexNotifier.get_token. cbv zeta.
  rewrite !or_default.
  intros [Hk | Hc].
  - destruct (str_truthy plex_server_token
              || str_truthy (PlexNotifier.PLEX_SERVER_TOKEN cfg)); [auto|].
    cbn in Hk. destruct (PlexNotifier.x_plex_token n); [auto | discriminate].
  - destruct (str_truthy plex_server_token
              || str_truthy (PlexNotifier.PLEX_SERVER_TOKEN cfg)); [auto|].
    destruct (PlexNotifier.x_plex_token n); [auto|]. rewrite Hc. auto.
Qed.

(** X17. [get_token] returns [True] without any request when a token is at
    hand (argument, setting or header) or when a username or a password is
    missing; with neither at hand it thus reports success although no token
    is known. *)
Theorem get_token_without_request cfg username password plex_server_token n :
  token_known cfg plex_server_token n = true \/ can_sign_in cfg username password = false ->
  fst (PlexNotifier.get_token cfg username password plex_server_token n) = VBool true
  /\ PlexNotifier.net
       (snd (PlexNotifier.get_token cfg username password plex_server_token n))
     = PlexNotifier.net n.
Proof.
  apply get_token_at_hand.
Qed.

Lemma get_token_signs_in cfg username password plex_server_token n :
  token_known cfg plex_server_token n = false ->
  can_sign_in cfg username password = true ->
  fst (PlexNotifier.get_token cfg username password plex_server_token n)
  = VBool (match token_in (fst (get_url_json (sign_in_request cfg username password)
                                  (sess (PlexNotifier.net n)))) with
           | Some _ => true
           | None => false
           end)
  /\ calls (PlexNotifier.net
              (snd (PlexNotifier.get_token cfg username password plex_server_token n)))
     = calls (PlexNotifier.net n) ++ [sign_in_request cfg username password]
  /\ PlexNotifier.x_plex_token
       (snd (PlexNotifier.get_token cfg username password plex_server_token n))
     = token_in (fst (get_url_json (sign_in_request cfg username password)
                        (sess (PlexNotifier.net n)))).
Proof.
  intros Hk Hc.
  unfold token_known, can_sign_in, PlexNotifier.get_token, sign_in_request, token_in in *.
  cbv zeta. rewrite !or_default.
  destruct (str_truthy plex_server_token
            || str_truthy (PlexNotifier.PLEX_SERVER_TOKEN cfg)); [discriminate|].
  destruct (PlexNotifier.x_plex_token n); [discriminate|]. rewrite Hc. cbn [negb].
  unfold fetch_json.
  destruct (get_url_json _ (sess (PlexNotifier.net n))) as [response w]. cbn [rbind fst].
  destruct (rbind (py_getitem response "user") _); cbn; auto.
Qed.

(** X18. With no token at hand and a username and password, [get_token]
    issues one sign-in request and returns whether the token could be read
    from the response: [True] with the token then in the headers, so that
    every later call returns [True] without a request, and [False] with no
    token in the headers. *)
Theorem get_token_sign_in cfg username password plex_server_token n :
  token_known cfg plex_server_token n = false ->
  can_sign_in cfg username password = true ->
  let n' := snd (PlexNotifier.get_token cfg username password plex_server_token n) in
  let token := token_in (fst (get_url_json (sign_in_request cfg username password)
                                (sess (PlexNotifier.net n)))) in
  fst (PlexNotifier.get_token cfg username password plex_server_token n)
  = VBool (match token with Some _ => true | None => false end)
  /\ calls (PlexNotifier.net n')
     = calls (PlexNotifier.net n) ++ [sign_in_request cfg username password]
  /\ PlexNotifier.x_plex_token n' = token
  /\ (PlexNotifier.x_plex_token n' <> None ->
      forall username' password' plex_server_token',
        fst (PlexNotifier.get_token cfg username' password' plex_server_token' n')
        = VBool true
        /\ PlexNotifier.net
             (snd (PlexNotifier.get_token cfg username' password' plex_server_token' n'))
           = PlexNotifier.net n').
Proof.
  intros Hk Hc. cbv zeta.
  destruct (get_token_signs_in cfg username password plex_server_token n Hk Hc)
    as (Hv & Hreq & Htok).
  repeat split; try assumption.
  - apply get_token_at_hand. left. unfold token_known.
    destruct (PlexNotifier.x_plex_token _); [apply orb_true_r | contradiction].
  - apply get_token_at_hand. left. unfold token_known.
    destruct (PlexNotifier.x_plex_token _); [apply orb_true_r | contradiction].
Qed.

End Plex.

(** ** Further runs *)

(** Seeders 8, 10 and 8: the sort puts 10 first and keeps the two 8 in
    their order. *)
Lemma stable_sort_unique_witness :
  let a := Fixture.norbits_record "Show.S01E04" 8 1 400 in
  let b := Fixture.norbits_record "Show.S01E05" 10 1 500 in
  let c := Fixture.norbits_record "Show.S01E06" 8 1 600 in
  [b; a; c] = @py_sort Fixture.helpers [a; b; c].
Proof.
  cbv zeta. apply (@stable_sort_unique Fixture.helpers).
  - repeat constructor; unfold key_desc, sort_key; cbn; lia.
  - intros k. unfold sort_key. cbn -[Z.eqb].
    destruct (10 =? k) eqn:E10, (8 =? k) eqn:E8; try reflexivity.
    apply Z.eqb_eq in E10, E8. lia.
Defined.

(** Norbits and a response without [data]. *)
Lemma search_exceptions_witness :
  let run := provider_search Norbits Fixture.cfg [("Episode", ["bad"])]
               (Fixture.start (Fixture.anonymous [])) in
  fst run = Raise AttributeError /\ may_raise Norbits AttributeError = true.
Proof.
  cbv zeta. split; [vm_compute; reflexivity|].
  apply (search_exceptions Norbits Fixture.cfg [("Episode", ["bad"])]
           (Fixture.start (Fixture.anonymous [])) AttributeError
           (snd (provider_search Norbits Fixture.cfg [("Episode", ["bad"])]
                   (Fixture.start (Fixture.anonymous []))))).
  vm_compute. reflexivity.
Defined.

(** IPTorrents, not logged in, and a page without a login form. *)
Lemma iptorrents_search_raise_witness :
  let st := Fixture.start (Fixture.anonymous [("*", "index")]) in
  let run := IPTorrentsProvider.search Fixture.cfg [("Episode", ["x"])] st in
  fst run = Raise AttributeError
  /\ IPTorrentsProvider.login Fixture.cfg st = (Raise AttributeError, snd run).
Proof.
  cbv zeta. split; [vm_compute; reflexivity|].
  apply (iptorrents_search_raise Fixture.cfg [("Episode", ["x"])]
           (Fixture.start (Fixture.anonymous [("*", "index")])) AttributeError).
  vm_compute. reflexivity.
Defined.

(** ABNormal, logged in, with two modes of one search string each. *)
Lemma abnormal_search_requests_witness :
  let st := Fixture.start (Fixture.logged_in [("*", "ab-two")]) in
  calls (snd (ABNormalProvider.search Fixture.cfg
                [("RSS", ["a"]); ("Episode", ["b (c)"])] st))
  = [abnormal_request "RSS" "a"; abnormal_request "Episode" "b (c)"].
Proof.
  cbv zeta.
  apply (abnormal_search_requests Fixture.cfg [("RSS", ["a"]); ("Episode", ["b (c)"])]
           (Fixture.start (Fixture.logged_in [("*", "ab-two")]))
           (Fixture.start (Fixture.logged_in [("*", "ab-two")]))).
  vm_compute. reflexivity.
Defined.

(** IPTorrents, logged in, with a custom URL that is no URL. *)
Lemma iptorrents_bad_custom_url_witness :
  let st := Fixture.start (Fixture.logged_in [("*", "ipt-good")]) in
  fst (IPTorrentsProvider.search Scenario.cfg_bad_url [("Episode", ["x"])] st) = Ok []
  /\ calls (snd (IPTorrentsProvider.search Scenario.cfg_bad_url [("Episode", ["x"])] st))
     = [].
Proof.
  cbv zeta.
  apply (iptorrents_bad_custom_url Scenario.cfg_bad_url [("Episode", ["x"])]
           (Fixture.start (Fixture.logged_in [("*", "ipt-good")]))); reflexivity.
Defined.

(** Norbits without a passkey and without a search string. *)
Lemma search_without_pairs_witness :
  let st := Fixture.start (Fixture.anonymous []) in
  provider_search Norbits Fixture.cfg_no_passkey [("RSS", []); ("Episode", [])] st
  = (Ok [], st).
Proof.
  cbv zeta.
  apply (proj1 (search_without_pairs Norbits Fixture.cfg_no_passkey
                  [("RSS", []); ("Episode", [])]
                  (Fixture.start (Fixture.anonymous [])) eq_refl)).
  reflexivity.
Defined.

(** Norbits, its credentials set, on a transport that never answers. *)
Lemma unreachable_sites_no_results_witness :
  fst (@provider_search Scenario.silent Fixture.library Fixture.helpers Norbits
         Fixture.cfg [("Episode", ["a"; "c"])] (Scenario.silent_start []))
  = Ok [].
Proof.
  apply (@unreachable_sites_no_results Scenario.silent Fixture.library Fixture.helpers).
  - split; intros rq w; reflexivity.
  - intros _ [E | E]; discriminate E.
Defined.

(** The columns Release, DL, Size, S, L and the same row under S, L,
    Release, Size, DL. *)
Lemma abnormal_column_order_witness :
  ABNormalProvider.parse_row Fixture.cfg ["Release"; "DL"; "Size"; "S"; "L"]
    (Scenario.ab_cells "Show.S01E01" "dl/1" "1 GO" "7" "2")
  = ABNormalProvider.parse_row Fixture.cfg Scenario.ab_labels_swapped
      (Scenario.ab_cells_swapped "Show.S01E01" "dl/1" "1 GO" "7" "2").
Proof.
  apply abnormal_column_order.
  - repeat constructor; cbn; intuition discriminate.
  - reflexivity.
  - reflexivity.
  - cbn [combine Scenario.ab_cells Scenario.ab_cells_swapped Scenario.ab_labels_swapped].
    match goal with
    | |- Permutation [?r; ?d; ?z; ?s; ?l] _ =>
        apply (Permutation_cons_app [s; l] [z; d]);
        apply (Permutation_cons_app [s; l; z] []);
        apply (Permutation_cons_app [s; l] []);
        apply Permutation_refl
    end.
Defined.

(** Ncore and the body [{}]. *)
Lemma ncore_parse_raises_witness :
  NcoreProvider.parse Fixture.cfg (Some "{}") [] = Raise KeyError
  /\ exists text d,
       Some "{}" = Some text /\ json_loads text = Some (VDict d)
       /\ dict_find "total_results" d = None.
Proof.
  split; [reflexivity|].
  destruct (@ncore_parse_raises Fixture.library Fixture.helpers Fixture.cfg (Some "{}") []
              KeyError eq_refl)
    as [[E _] | (text & d & Et & Ej & _)]; [discriminate E|].
  exists text, d. split; [exact Et|]. split; [exact Ej|].
  inversion Et; subst text. cbn in Ej. inversion Ej; subst d. reflexivity.
Defined.

(** Norbits and two records. *)
Lemma search_record_shapes_witness :
  let run := provider_search Norbits Fixture.cfg [("Episode", ["a"; "c"])]
               (Fixture.start (Fixture.anonymous [])) in
  fst run = Ok [Fixture.norbits_record "Show.S01E01" 10 2 100;
                Fixture.norbits_record "Show.S01E03" 8 1 300]
  /\ Forall (record_shape Norbits Fixture.cfg)
       [Fixture.norbits_record "Show.S01E01" 10 2 100;
        Fixture.norbits_record "Show.S01E03" 8 1 300].
Proof.
  cbv zeta. split; [vm_compute; reflexivity|].
  apply (search_record_shapes Norbits Fixture.cfg [("Episode", ["a"; "c"])]
           (Fixture.start (Fixture.anonymous [])) _
           (snd (provider_search Norbits Fixture.cfg [("Episode", ["a"; "c"])]
                   (Fixture.start (Fixture.anonymous []))))).
  vm_compute. reflexivity.
Defined.

(** A search string with a year in parentheses, and one without. *)
Lemma abnormal_request_params_witness :
  param "search" (abnormal_request "Episode" "Show (2019)") = Some "Show 2019"
  /\ strip_parens "Show S01E01" = "Show S01E01".
Proof.
  split; [reflexivity|].
  apply (@abnormal_request_params Fixture.library "Episode" "Show S01E01"); reflexivity.
Defined.

(** The old fullhdbluray, 1 << 5, is at bit 8 afterwards. *)
Lemma update_quality_bits_witness :
  Z.testbit (Add1080pAndRawHDQualities._update_quality 32) 8 = migrated_bit 32 8
  /\ migrated_bit 32 8 = true.
Proof.
  split; [|reflexivity]. apply update_quality_bits. lia.
Defined.

(** The old HD template, 4 + 8 + 16. *)
Lemma update_quality_injective_witness :
  Add1080pAndRawHDQualities._update_quality 28 = 164 /\ 28 = 28.
Proof.
  split; [reflexivity|].
  apply update_quality_injective; repeat split; reflexivity.
Defined.

(** A token passed as argument. *)
Lemma get_token_without_request_witness :
  fst (PlexNotifier.get_token Scenario.plex_settings EmptyString EmptyString "abc"
         Scenario.plex_start) = VBool true
  /\ PlexNotifier.net
       (snd (PlexNotifier.get_token Scenario.plex_settings EmptyString EmptyString "abc"
               Scenario.plex_start))
     = PlexNotifier.net Scenario.plex_start.
Proof.
  apply get_token_without_request. left. reflexivity.
Defined.

(** No token, a username and a password: plex.tv handing out a token, and
    plex.tv not answering. *)
Lemma get_token_sign_in_witness :
  let first := PlexNotifier.get_token Scenario.plex_settings EmptyString EmptyString
                 EmptyString Scenario.plex_start in
  let failed := PlexNotifier.get_token Scenario.plex_settings EmptyString EmptyString
                  EmptyString Scenario.plex_down in
  fst first = VBool true
  /\ PlexNotifier.x_plex_token (snd first) = Some (VStr "tok-1")
  /\ fst (PlexNotifier.get_token Scenario.plex_settings EmptyString EmptyString
            EmptyString (snd first)) = VBool true
  /\ fst failed = VBool false
  /\ PlexNotifier.x_plex_token (snd failed) = None.
Proof.
  cbv zeta.
  destruct (get_token_sign_in Scenario.plex_settings EmptyString EmptyString EmptyString
              Scenario.plex_start eq_refl eq_refl) as (Hv & _ & Htok & Hnext).
  destruct (get_token_sign_in Scenario.plex_settings EmptyString EmptyString EmptyString
              Scenario.plex_down eq_refl eq_refl) as (Hv' & _ & Htok' & _).
  split; [exact Hv|]. split; [rewrite Htok; reflexivity|].
  split; [apply Hnext; rewrite Htok; discriminate|].
  split; [exact Hv' | exact Htok'].
Defined.
